(** * Multi-sensor hourly analytics engine: a shallow embedding

    This development embeds the analytic core of the walk-by potential
    dashboard ([frontend/src/lib/realDataService.ts] and
    [frontend/src/lib/advancedAlgorithms.ts]) and proves the properties
    its design document states about it.

    Number model.  A JavaScript [number] is modelled as an exact rational
    ([Q]): sums, products, quotients and comparisons are the mathematical
    ones, there is no rounding error and there are no NaN or infinite
    values.  Equality of numbers is [Qeq] ([==]).  The only irrational
    operation of the code, [Math.sqrt] in [euclideanDistance], is kept
    symbolic (see [Dist] below).  Hours of the day, sample counts and array
    indices are natural numbers. *)

From Stdlib Require Import QArith Qround Qabs Lqa Lia ZArith.
From stdpp Require Import gmap list strings sorting.

Set Default Proof Using "Type".

(** * Part I: the embedding *)

(** ** JavaScript numbers and the [Math] functions the code uses *)

Module JsNum.
Local Open Scope Q_scope.

(** [a < b] and [a >= b] on numbers, as booleans. *)
Definition Qltb (a b : Q) : bool := negb (Qle_bool b a).
Definition Qgeb (a b : Q) : bool := Qle_bool b a.

Definition Math_max (a b : Q) : Q := if Qltb a b then b else a.
Definition Math_min (a b : Q) : Q := if Qltb b a then b else a.

(** [Math.floor] and [Math.round] (half-way cases round up). *)
Definition Math_floor (x : Q) : Z := Qfloor x.
Definition Math_round (x : Q) : Z := Qfloor (x + 0.5).

(** Truthiness of a number: every number except [0] is truthy. *)
Definition truthy (x : Q) : bool := negb (Qeq_bool x 0).

(** [x || d] on numbers, and on numbers that may be [undefined]. *)
Definition or_else (x d : Q) : Q := if truthy x then x else d.
Definition opt_or_else (x : option Q) (d : Q) : Q :=
  match x with
  | Some v => or_else v d
  | None => d
  end.

(** [xs.reduce((sum, v) => sum + v, 0)] and the mean
    [xs.reduce((sum, v) => sum + v, 0) / xs.length]. *)
Definition sum (xs : list Q) : Q := fold_left Qplus xs 0.
Definition average (xs : list Q) : Q :=
  sum xs / inject_Z (Z.of_nat (length xs)).

(** [Math.max(...xs)] for a non-empty [xs]; [None] stands for the
    [-Infinity] that [Math.max()] returns on no argument. *)
Definition Math_max_list (xs : list Q) : option Q :=
  match xs with
  | [] => None
  | x :: xs' => Some (fold_left Math_max xs' x)
  end.

(** A natural number as a JavaScript number. *)
Definition of_nat (n : nat) : Q := inject_Z (Z.of_nat n).
End JsNum.
Import JsNum.

(** ** The array methods the code uses *)

Module JsArray.
Local Open Scope Q_scope.

Section WithElements.
Context {A : Type}.

(** [Array.prototype.sort(cmp)] is a stable sort: [x] is placed before
    [y] exactly when [cmp(x, y) < 0], and elements that compare equal keep
    their order.  It is modelled as a stable insertion sort. *)
Fixpoint sort_insert (cmp : A -> A -> Q) (x : A) (l : list A) : list A :=
  match l with
  | [] => [x]
  | y :: l' =>
      if Qltb (cmp x y) 0 then x :: y :: l' else y :: sort_insert cmp x l'
  end.

Definition sort (cmp : A -> A -> Q) (l : list A) : list A :=
  fold_left (fun acc x => sort_insert cmp x acc) l [].

(** [l.findIndex(p)]; [None] stands for [-1]. *)
Fixpoint findIndex (p : A -> bool) (l : list A) : option nat :=
  match l with
  | [] => None
  | y :: l' => if p y then Some 0%nat else S <$> findIndex p l'
  end.

(** [l.find(p)]. *)
Fixpoint find (p : A -> bool) (l : list A) : option A :=
  match l with
  | [] => None
  | y :: l' => if p y then Some y else find p l'
  end.

(** [l.slice(-n)]: the last [n] elements, [l.slice(0, n)]: the first [n]. *)
Definition slice_last (n : nat) (l : list A) : list A :=
  drop (length l - n) l.
Definition slice_first (n : nat) (l : list A) : list A := take n l.

(** [l.filter(p)] for a boolean test. *)
Definition filterb (p : A -> bool) (l : list A) : list A := List.filter p l.

(** A comparator that orders by a numeric key. *)
Definition orders_by (cmp : A -> A -> Q) (key : A -> Q) : Prop :=
  forall a b, cmp a b < 0 <-> key a < key b.
End WithElements.

(** The comparator [(a, b) => a - b] on hours. *)
Definition by_number (a b : nat) : Q := of_nat a - of_nat b.
End JsArray.

(** ** Score fusion and the footfall estimator ([realDataService.ts]) *)

Module Fusion.
Local Open Scope Q_scope.

(** [estimatePedestriansFromSensors(audioLevel, lightLevel, sampleCount)].
    The light modulation is guarded by
    [lightLevel !== undefined && lightLevel > 0]. *)
Definition estimatePedestriansFromSensors
    (audioLevel : Q) (lightLevel : option Q) (sampleCount : nat) : Q :=
  let clampedAudio := Math_max (-70) (Math_min (-20) audioLevel) in
  let audioNormalized := Math_max 0 (Math_min 1 ((clampedAudio + 70) / 50)) in
  let pedestrians := audioNormalized * 100 in
  let pedestrians :=
    match lightLevel with
    | Some l =>
        if Qltb 0 l then
          let lightFactor := Math_min 1 (l / 500) in
          pedestrians * (0.7 + 0.3 * lightFactor)
        else pedestrians
    | None => pedestrians
    end in
  let pedestrians :=
    if (sampleCount <? 10)%nat then pedestrians * 0.5 else pedestrians in
  inject_Z (Math_round (Math_min pedestrians 100)).

(** The light term of [calculateScore]:
    [lightLevel ? Math.min(1, lightLevel / 500) : 0.5]. *)
Definition lightComponent (lightLevel : option Q) : Q :=
  match lightLevel with
  | Some l => if truthy l then Math_min 1 (l / 500) else 0.5
  | None => 0.5
  end.

(** [calculateScore(hour, audioLevel, footfall, lightLevel)]. *)
Definition calculateScore
    (hour : nat) (audioLevel footfall : Q) (lightLevel : option Q) : Q :=
  let clampedAudio := Math_max (-70) (Math_min (-20) audioLevel) in
  let audioComponent := Math_max 0 (Math_min 1 ((clampedAudio + 70) / 50)) in
  let footfallComponent := Math_min 1 (footfall / 100) in
  let lightComponent := lightComponent lightLevel in
  let score :=
    audioComponent * 0.4 + footfallComponent * 0.4 + lightComponent * 0.2 in
  score * 25.
End Fusion.

(** ** The hourly aggregator ([realDataService.ts]) *)

Module Aggregator.
Import Fusion.
Local Open Scope Q_scope.

Inductive Business := costa | tbc.

(** One sample of a sensor session as [loadSessionData] delivers it.
    [timestamp] is the epoch time in milliseconds ([None] when the field
    is missing); [audioDb] and [lightLux] are [None] when the field is
    missing or not a number, that is when it fails the test
    [!== undefined && !isNaN(...)].  A JSON [null] passes that test and
    counts as the number 0 in every sum: it is [Some 0]. *)
Record Session := {
  timestamp : option Z;
  audioDb : option Q;
  lightLux : option Q
}.

(** A row of the manual audio recording: the columns [Time (s)],
    [Recording (a.u.)] and [audioDb], each possibly missing. *)
Record AudioRow := {
  audioTime : option Q;
  recording : option Q;
  rowAudioDb : option Q
}.

(** A row of the manual light recording: [Time (s)] and
    [Illuminance (lx)]. *)
Record LightRow := {
  lightTime : option Q;
  illuminance : Q
}.

(** [manualData]: the [audio] and [light] tables of [loadManualData]. *)
Record ManualData := {
  audio : list AudioRow;
  light : list LightRow
}.

(** The per-hour entry of [processSessionData]. *)
Record SessionEntry := {
  entryAudio : list Q;
  entryLight : list Q;
  entryCount : nat
}.

(** The per-hour entry of [processAudioData]. *)
Record AudioEntry := {
  avg : Q;
  count : nat
}.

(** The greatest time value of a [Date], in milliseconds on either side
    of the epoch. *)
Definition maxTimeValue : Z := 8640000000000000.

(** [new Date(timestamp).getHours()]: the hour of the day in local time,
    [zone t] being the offset of local time from UTC, in milliseconds, at
    the time [t]; [None] stands for the [NaN] of an invalid date, which a
    time value beyond [maxTimeValue] gives. *)
Definition getHours (zone : Z -> Z) (t : Z) : option nat :=
  if (Z.abs t <=? maxTimeValue)%Z then
    Some (Z.to_nat (((t + zone t) / 3600000) mod 24))
  else None.

(** [processSessionData(sessions)]: a sample without (or with a falsy)
    timestamp is skipped; every other sample counts for its hour of the
    day, whatever its date.  The keys of the map are the values of
    [getHours]: the key [None] is the key [NaN], under which the samples
    of an invalid date are filed. *)
Definition processSessionData (zone : Z -> Z) (sessions : list Session)
    : gmap (option nat) SessionEntry :=
  fold_left
    (fun hourlyData session =>
       match timestamp session with
       | None => hourlyData
       | Some t =>
           if (t =? 0)%Z then hourlyData
           else
             let hour := getHours zone t in
             let entry :=
               default {| entryAudio := []; entryLight := []; entryCount := 0 |}
                       (hourlyData !! hour) in
             <[hour :=
                 {| entryAudio :=
                      entryAudio entry ++ option_list (audioDb session);
                    entryLight :=
                      entryLight entry ++ option_list (lightLux session);
                    entryCount := S (entryCount entry) |}]> hourlyData
       end)
    sessions ∅.

(** [convertAudioToDb(recording)]. *)
Definition convertAudioToDb (recording : Q) : Q :=
  let absValue := Qabs recording in
  if Qltb absValue 0.0001 then -80
  else if Qltb 1 absValue then -30
  else
    let dbValue := -80 + absValue * 40 in
    Math_max (-80) (Math_min (-30) dbValue).

Definition estimatedStartHour (business : option Business) : Z :=
  match business with
  | Some tbc => 13
  | _ => 8
  end.

(** [processAudioData(audioData, undefined, business)].  The keys are the
    estimated hours, which JavaScript's [%] leaves negative for a negative
    time offset. *)
Definition processAudioData
    (audioData : list AudioRow) (business : option Business)
    : gmap Z AudioEntry :=
  match last audioData with
  | None => ∅
  | Some lastRow =>
      let totalDuration :=
        opt_or_else (audioTime lastRow) (of_nat (length audioData) * 0.1) in
      if Qltb totalDuration 1 && negb (bool_decide (is_Some business))
      then ∅
      else
        let sums : gmap Z (Q * nat) :=
          fold_left
            (fun hourlyAudio '(idx, row) =>
               let timeOffset :=
                 opt_or_else (audioTime row) (of_nat idx * 0.1) in
               let progress := timeOffset / totalDuration in
               let hourOffset := Math_floor (progress * 12) in
               let hour :=
                 Z.rem (estimatedStartHour business + hourOffset) 24 in
               let audioValue :=
                 match recording row, rowAudioDb row with
                 | Some r, _ => convertAudioToDb r
                 | None, Some db => or_else db (-70)
                 | None, None => -70
                 end in
               let entry := default (0, 0%nat) (hourlyAudio !! hour) in
               <[hour := (entry.1 + audioValue, S entry.2)]> hourlyAudio)
            (imap (fun idx row => (idx, row)) audioData) ∅ in
        (fun '(s, n) => {| avg := s / of_nat n; count := n |}) <$> sums
  end.

(** The manual light readings attributed to [hour]: the rows whose
    estimated hour is [hour], their illuminance, the positive ones. *)
Definition manualLuxValues
    (business : Business) (rows : list LightRow) (hour : nat) : list Q :=
  let hourLight :=
    JsArray.filterb
      (fun row =>
         let timeOffset := opt_or_else (lightTime row) 0 in
         let progress := timeOffset / 36000 in
         let estimatedHour :=
           Z.rem (estimatedStartHour (Some business)
                  + Math_floor (progress * 12)) 24 in
         (estimatedHour =? Z.of_nat hour)%Z)
      rows in
  JsArray.filterb (fun v => Qltb 0 v) (map illuminance hourLight).

(** An entry of [hourlyData]. *)
Record RealTrafficDataPoint := {
  hour : nat;
  score : Q;
  pedestrians : Q;
  traffic : Q;
  activity : Q;
  lightLevel : option Q;
  sampleCount : nat
}.

(** Which branch of the footfall estimator produced a value. *)
Inductive FootfallSource := SensorEstimate | ArealFallback | NoData.

(** The footfall of one hour, with the branch that produced it:
    the sensor estimate when the hour has samples, else the areal dataset
    when it has the hour and there is no session sample at all, else 0. *)
Definition footfallWithSource
    (sessionData : list Session) (footfallData : gmap nat Q)
    (hour : nat) (audioLevel : Q) (lightLevel : option Q) (sampleCount : nat)
    : FootfallSource * Q :=
  if (0 <? sampleCount)%nat then
    (SensorEstimate,
     estimatePedestriansFromSensors audioLevel lightLevel sampleCount)
  else
    match footfallData !! hour with
    | Some v =>
        if (length sessionData =? 0)%nat then (ArealFallback, v)
        else (NoData, 0)
    | None => (NoData, 0)
    end.

(** The vehicle estimate of one hour. *)
Definition estimateTraffic (hour : nat) (audioLevel : Q) (sampleCount : nat)
    : Q :=
  if (0 <? sampleCount)%nat then
    let clampedAudio := Math_max (-70) (Math_min (-20) audioLevel) in
    let traffic :=
      if Qltb (-45) clampedAudio then
        inject_Z (Math_round (50 + (clampedAudio + 45) * 2.5))
      else if Qltb (-55) clampedAudio then
        inject_Z (Math_round (30 + (clampedAudio + 55) * 2))
      else if Qltb (-65) clampedAudio then
        inject_Z (Math_round (15 + (clampedAudio + 65) * 1.5))
      else inject_Z (Math_round (10 + (clampedAudio + 70) * 1)) in
    let traffic :=
      if ((7 <=? hour) && (hour <=? 9) || (17 <=? hour) && (hour <=? 19))%nat
      then inject_Z (Math_round (traffic * 1.2))
      else if ((22 <=? hour) || (hour <=? 5))%nat
      then inject_Z (Math_round (traffic * 0.7))
      else traffic in
    Math_min traffic 150
  else 0.

(** The inputs of one analysis run, as [generateRealTrafficData] loads
    them, and the time zone it runs in: [timeZone t] is the offset of local
    time from UTC, in milliseconds, at the time [t]. *)
Record Inputs := {
  business : Business;
  manualData : ManualData;
  sessionData : list Session;
  footfallData : gmap nat Q;
  timeZone : Z -> Z
}.

(** The signals of one hour: audio level, light level and sample count. *)
Definition hourSignals (inp : Inputs) (hour : nat) : Q * option Q * nat :=
  let hourlyAudio := processAudioData (audio (manualData inp))
                                      (Some (business inp)) in
  let hourlySessions :=
    processSessionData (timeZone inp) (sessionData inp) in
  let audioLevel :=
    match hourlySessions !! Some hour with
    | Some e =>
        match entryAudio e with
        | [] => -70
        | sessionAudio => average sessionAudio
        end
    | None =>
        match hourlyAudio !! Z.of_nat hour with
        | Some a => avg a
        | None => -70
        end
    end in
  let '(lightLevel, manualLightCount) :=
    match hourlySessions !! Some hour with
    | Some e =>
        match entryLight e with
        | [] => (None, 0%nat)
        | sessionLight => (Some (average sessionLight), 0%nat)
        end
    | None =>
        match manualLuxValues (business inp) (light (manualData inp)) hour with
        | [] => (None, 0%nat)
        | luxValues => (Some (average luxValues), length luxValues)
        end
    end in
  let sessionCount :=
    match hourlySessions !! Some hour with
    | Some e => entryCount e
    | None => 0%nat
    end in
  let manualAudioCount :=
    match hourlyAudio !! Z.of_nat hour with
    | Some a => count a
    | None => 0%nat
    end in
  let manualCount :=
    Nat.max manualAudioCount (if (0 <? manualLightCount)%nat then 1 else 0) in
  let sampleCount := (sessionCount + manualCount)%nat in
  (audioLevel, lightLevel, sampleCount).

(** The body of the loop [for (let hour = 0; hour < 24; hour++)] once the
    signals of the hour are known. *)
Definition bucket
    (sessionData : list Session) (footfallData : gmap nat Q)
    (hour : nat) (signals : Q * option Q * nat) : RealTrafficDataPoint :=
  let '(audioLevel, lightLevel, sampleCount) := signals in
  let footfall :=
    (footfallWithSource sessionData footfallData
                        hour audioLevel lightLevel sampleCount).2 in
  let score := calculateScore hour audioLevel footfall lightLevel in
  let traffic := estimateTraffic hour audioLevel sampleCount in
  {| hour := hour;
     score := score;
     pedestrians := inject_Z (Math_round footfall);
     traffic := inject_Z (Math_round traffic);
     activity := inject_Z (Math_round (audioLevel * 10)) / 10;
     lightLevel := lightLevel;
     sampleCount := sampleCount |}.

(** The source and the value of one hour's footfall in a run. *)
Definition hourFootfall (inp : Inputs) (hour : nat) : FootfallSource * Q :=
  let '(audioLevel, lightLevel, sampleCount) := hourSignals inp hour in
  footfallWithSource (sessionData inp) (footfallData inp)
                     hour audioLevel lightLevel sampleCount.

Definition hourlyPoint (inp : Inputs) (hour : nat) : RealTrafficDataPoint :=
  bucket (sessionData inp) (footfallData inp) hour (hourSignals inp hour).

(** The rule "one source or the other, globally": the 24 buckets of a run
    do not hold both a sensor estimate and an areal value. *)
Definition singleSource (inp : Inputs) : Prop :=
  ~ exists h1 h2 : nat,
      (h1 < 24)%nat /\ (h2 < 24)%nat
      /\ (hourFootfall inp h1).1 = SensorEstimate
      /\ (hourFootfall inp h2).1 = ArealFallback.

(** [hourlyData]: the 24 buckets of a run. *)
Definition hourlyData (inp : Inputs) : list RealTrafficDataPoint :=
  map (hourlyPoint inp) (seq 0 24).
End Aggregator.

(** ** The busy-period segmenter ([generateRealTrafficData], second half) *)

Module BusyPeriods.
Import Aggregator.
Local Open Scope Q_scope.

(** The text [getBusyReason] produces, as the branch taken and the figures
    it prints. *)
Inductive Reason :=
  | MorningRush (avgPedestrians avgActivity : Q)
  | LunchRush (avgPedestrians avgActivity : Q)
  | EveningRush (avgPedestrians avgActivity : Q)
  | HighFootfall (avgPedestrians avgScore : Q)
  | HighActivity (avgActivity avgPedestrians : Q)
  | PeakScore (avgScore avgPedestrians : Q)
  | Duration (duration : nat) (avgPedestrians avgActivity : Q).

(** [getBusyReason(start, end, hourlyData, avgPedestrians, avgScore,
    avgActivity)]. *)
Definition getBusyReason
    (start end_ : nat) (avgPedestrians avgScore avgActivity : Q) : Reason :=
  let duration := (end_ - start + 1)%nat in
  if ((7 <=? start) && (start <=? 10))%nat then
    MorningRush avgPedestrians avgActivity
  else if ((12 <=? start) && (start <=? 14))%nat then
    LunchRush avgPedestrians avgActivity
  else if ((17 <=? start) && (start <=? 19))%nat then
    EveningRush avgPedestrians avgActivity
  else if Qltb 200 avgPedestrians then HighFootfall avgPedestrians avgScore
  else if Qltb (-45) avgActivity then HighActivity avgActivity avgPedestrians
  else if Qltb 15 avgScore then PeakScore avgScore avgPedestrians
  else Duration duration avgPedestrians avgActivity.

(** [currentPeriod], the run being extended. *)
Record CurrentPeriod := {
  cur_start : nat;
  cur_end : nat;
  cur_score : Q;
  cur_pedestrians : Q;
  cur_activity : Q
}.

(** An entry of [busyPeriods]. *)
Record BusyPeriod := {
  start : nat;
  end_ : nat;
  reason : Reason;
  avgPedestrians : Q;
  avgScore : Q;
  avgActivity : Q
}.

(** An entry of [topBusyPeriods]. *)
Record TopPeriod := {
  top_start : nat;
  top_end : nat;
  top_reason : Reason
}.

(** The thresholds computed from the day's own data. *)
Definition scoreThreshold (hourlyData : list RealTrafficDataPoint) : Q :=
  match Math_max_list (map score hourlyData) with
  | Some maxScore => Math_max 6 (maxScore * 0.4)
  | None => 6
  end.

Definition pedestrianThreshold (hourlyData : list RealTrafficDataPoint) : Q :=
  match Math_max_list (map pedestrians hourlyData) with
  | Some maxPedestrians => Math_max 30 (maxPedestrians * 0.3)
  | None => 30
  end.

Definition activityThreshold : Q := -50.

Definition isBusy
    (hourlyData : list RealTrafficDataPoint) (data : RealTrafficDataPoint)
    : bool :=
  Qgeb (score data) (scoreThreshold hourlyData)
  && (0 <? sampleCount data)%nat
  && (Qgeb (pedestrians data) (pedestrianThreshold hourlyData)
      || Qgeb (activity data) activityThreshold).

(** Whether the hour [h] of a day whose buckets are in the order of their
    hours qualifies. *)
Definition busyAt (hourlyData : list RealTrafficDataPoint) (h : nat) : bool :=
  match hourlyData !! h with
  | Some data => isBusy hourlyData data
  | None => false
  end.

(** The record pushed onto [busyPeriods] when a run is closed. *)
Definition closePeriod
    (hourlyData : list RealTrafficDataPoint) (currentPeriod : CurrentPeriod)
    : BusyPeriod :=
  let periodData :=
    JsArray.filterb
      (fun d => ((cur_start currentPeriod <=? hour d)
                 && (hour d <=? cur_end currentPeriod))%nat)
      hourlyData in
  let avgPed :=
    inject_Z (Math_round (average (map pedestrians periodData))) in
  let avgScore := average (map score periodData) in
  let avgActivity := average (map activity periodData) in
  {| start := cur_start currentPeriod;
     end_ := cur_end currentPeriod;
     reason := getBusyReason (cur_start currentPeriod) (cur_end currentPeriod)
                             avgPed avgScore avgActivity;
     avgPedestrians := avgPed;
     avgScore := avgScore;
     avgActivity := avgActivity |}.

Definition startPeriod (data : RealTrafficDataPoint) : CurrentPeriod :=
  {| cur_start := hour data;
     cur_end := hour data;
     cur_score := score data;
     cur_pedestrians := pedestrians data;
     cur_activity := activity data |}.

(** The body of [hourlyData.forEach((data) => ...)], on the pair of
    [busyPeriods] and [currentPeriod]. *)
Definition scanHour
    (hourlyData : list RealTrafficDataPoint)
    (st : list BusyPeriod * option CurrentPeriod)
    (data : RealTrafficDataPoint)
    : list BusyPeriod * option CurrentPeriod :=
  let '(busyPeriods, currentPeriod) := st in
  if isBusy hourlyData data then
    match currentPeriod with
    | None => (busyPeriods, Some (startPeriod data))
    | Some cp =>
        if (hour data <=? cur_end cp + 1)%nat then
          (busyPeriods,
           Some {| cur_start := cur_start cp;
                   cur_end := hour data;
                   cur_score := Math_max (cur_score cp) (score data);
                   cur_pedestrians :=
                     Math_max (cur_pedestrians cp) (pedestrians data);
                   cur_activity :=
                     Math_max (cur_activity cp) (activity data) |})
        else
          (busyPeriods ++ [closePeriod hourlyData cp],
           Some (startPeriod data))
    end
  else
    match currentPeriod with
    | Some cp =>
        if (1 <=? cur_end cp - cur_start cp)%nat then
          (busyPeriods ++ [closePeriod hourlyData cp], None)
        else (busyPeriods, None)
    | None => (busyPeriods, None)
    end.

(** [busyPeriods] after the scan and the closing of the last run. *)
Definition closedPeriods (hourlyData : list RealTrafficDataPoint)
    : list BusyPeriod :=
  let '(busyPeriods, currentPeriod) :=
    fold_left (scanHour hourlyData) hourlyData ([], None) in
  match currentPeriod with
  | Some cp =>
      if (1 <=? cur_end cp - cur_start cp)%nat then
        busyPeriods ++ [closePeriod hourlyData cp]
      else busyPeriods
  | None => busyPeriods
  end.

(** [busyPeriods.sort((a, b) => b.avgScore - a.avgScore)]. *)
Definition rankedPeriods (hourlyData : list RealTrafficDataPoint)
    : list BusyPeriod :=
  JsArray.sort (fun a b => avgScore b - avgScore a) (closedPeriods hourlyData).

(** [busyPeriods.slice(0, 3)], before its average scores are dropped. *)
Definition keptPeriods (hourlyData : list RealTrafficDataPoint)
    : list BusyPeriod :=
  JsArray.slice_first 3 (rankedPeriods hourlyData).

Definition topBusyPeriods (hourlyData : list RealTrafficDataPoint)
    : list TopPeriod :=
  map (fun p => {| top_start := start p;
                   top_end := end_ p;
                   top_reason := reason p |})
      (keptPeriods hourlyData).

(** What holds of a run of hours [start .. end_] of the day [hd]: every
    hour of it qualifies and the hour before it does not. *)
Definition run_of (hd : list RealTrafficDataPoint) (s e : nat) : Prop :=
  (forall h, (s <= h <= e)%nat -> busyAt hd h = true)
  /\ (s = 0%nat \/ busyAt hd (s - 1) = false).

(** What holds of a closed run: it spans two hours or more, and the hour
    after it does not qualify. *)
Definition closed_run (hd : list RealTrafficDataPoint) (p : BusyPeriod) : Prop :=
  (1 <= end_ p - start p)%nat
  /\ run_of hd (start p) (end_ p)
  /\ busyAt hd (end_ p + 1) = false.

(** The state of the scan before the hour [i]. *)
Definition scan_inv (hd : list RealTrafficDataPoint) (i : nat)
    (st : list BusyPeriod * option CurrentPeriod) : Prop :=
  Forall (closed_run hd) st.1
  /\ match st.2 with
     | Some cp =>
         (cur_end cp + 1 = i)%nat
         /\ (cur_start cp <= cur_end cp)%nat
         /\ run_of hd (cur_start cp) (cur_end cp)
     | None => i = 0%nat \/ busyAt hd (i - 1) = false
     end.
End BusyPeriods.

(** ** The recursive filter ([advancedAlgorithms.ts]) *)

Module Kalman.
Local Open Scope Q_scope.

(** [KalmanState]: the estimate [x], the error covariance [P], the process
    noise [Q] and the measurement noise [R]. *)
Record KalmanState := {
  st_x : Q;
  st_P : Q;
  st_Q : Q;
  st_R : Q
}.

(** [Partial<KalmanState>]. *)
Record PartialKalmanState := {
  init_x : option Q;
  init_P : option Q;
  init_Q : option Q;
  init_R : option Q
}.

Record KalmanResult := {
  smoothed : list Q;
  predicted : Q;
  state : KalmanState
}.

(** The body of [measurements.forEach(z => ...)], on the pair of [state]
    and [smoothed]. *)
Definition kalmanStep (st : KalmanState * list Q) (z : Q)
    : KalmanState * list Q :=
  let '(state, smoothed) := st in
  let x_pred := st_x state in
  let P_pred := st_P state + st_Q state in
  let K := P_pred / (P_pred + st_R state) in
  let x := x_pred + K * (z - x_pred) in
  let P := (1 - K) * P_pred in
  ({| st_x := x; st_P := P; st_Q := st_Q state; st_R := st_R state |},
   smoothed ++ [x]).

(** [kalmanFilter(measurements, initialState)]. *)
Definition kalmanFilter
    (measurements : list Q) (initialState : option PartialKalmanState)
    : KalmanResult :=
  match measurements with
  | [] =>
      {| smoothed := [];
         predicted := 0;
         state := {| st_x := 0; st_P := 1; st_Q := 0.01; st_R := 0.1 |} |}
  | z0 :: _ =>
      let state0 :=
        {| st_x := default z0 (initialState ≫= init_x);
           st_P := default 1 (initialState ≫= init_P);
           st_Q := default 0.01 (initialState ≫= init_Q);
           st_R := default 0.1 (initialState ≫= init_R) |} in
      let '(state, smoothed) :=
        fold_left kalmanStep measurements (state0, []) in
      {| smoothed := smoothed; predicted := st_x state; state := state |}
  end.
End Kalman.

(** ** Smoothing and forecasting of the hourly series
       ([advancedAlgorithms.ts]) *)

Module Smoother.
Import Kalman.
Local Open Scope Q_scope.

(** An input point [{ hour, pedestrians }] or [{ hour, score }]. *)
Record HourValue := {
  hour : nat;
  value : Q
}.

(** An output point [{ hour, pedestrians, pedestriansRaw }] or
    [{ hour, score, scoreRaw }]. *)
Record SmoothedValue := {
  s_hour : nat;
  s_value : Q;
  s_raw : Q
}.

Record Forecast := {
  smoothedData : list SmoothedValue;
  nextHourPrediction : Q
}.

(** The point of an hour whose value is kept as it is. *)
Definition keep (d : HourValue) : SmoothedValue :=
  {| s_hour := hour d; s_value := value d; s_raw := value d |}.

(** [hourlyData.sort((a, b) => a.hour - b.hour)]. *)
Definition sortedData (hourlyData : list HourValue) : list HourValue :=
  JsArray.sort (fun a b => of_nat (hour a) - of_nat (hour b)) hourlyData.

(** [sortedData.filter(d => d.pedestrians > 0)]. *)
Definition hoursWithData (hourlyData : list HourValue) : list HourValue :=
  JsArray.filterb (fun d => Qltb 0 (value d)) (sortedData hourlyData).

(** The series handed to the filter. *)
Definition series (hourlyData : list HourValue) : list Q :=
  map value (hoursWithData hourlyData).

(** The forecast before its last adjustment: the filter's prediction,
    blended with the trend of the last three measured values when there
    are at least three measured hours. *)
Definition blendedPrediction (hourlyData : list HourValue) : Q :=
  let predicted := predicted (kalmanFilter (series hourlyData) None) in
  if (3 <=? length (hoursWithData hourlyData))%nat then
    let recentHours := JsArray.slice_last 3 (hoursWithData hourlyData) in
    let recentValues := map value recentHours in
    match rev recentValues with
    | v1 :: v2 :: older =>
        let lastTwoAvg := (v1 + v2) / 2 in
        let previousAvg :=
          match older with
          | v3 :: _ => (v2 + v3) / 2
          | [] => lastTwoAvg
          end in
        let trend := lastTwoAvg - previousAvg in
        predicted * 0.7 + (lastTwoAvg + trend) * 0.3
    | _ => predicted
    end
  else predicted.

(** The common body of [smoothAndPredictPedestrians] and
    [smoothAndPredictScores], which differ in the names of their fields
    and in the last adjustment [finish] of the forecast only. *)
Definition smoothAndPredictWith
    (finish : Q -> Q) (hourlyData : list HourValue) : Forecast :=
  let sortedData := sortedData hourlyData in
  let hoursWithData := hoursWithData hourlyData in
  if (length hoursWithData <? 2)%nat then
    let lastValue :=
      match last hoursWithData with
      | Some d => value d
      | None => 0
      end in
    {| smoothedData := map keep sortedData; nextHourPrediction := lastValue |}
  else
    let kf := kalmanFilter (series hourlyData) None in
    let smoothedData :=
      map
        (fun d =>
           if Qltb 0 (value d) then
             match
               JsArray.findIndex (fun h => (hour h =? hour d)%nat) hoursWithData
             with
             | Some dataIndex =>
                 match smoothed kf !! dataIndex with
                 | Some v =>
                     {| s_hour := hour d; s_value := v; s_raw := value d |}
                 | None => keep d
                 end
             | None => keep d
             end
           else keep d)
        sortedData in
    {| smoothedData := smoothedData;
       nextHourPrediction := finish (blendedPrediction hourlyData) |}.

(** [smoothAndPredictPedestrians]: the forecast is
    [Math.max(0, Math.round(nextHourPrediction))]. *)
Definition smoothAndPredictPedestrians (hourlyData : list HourValue)
    : Forecast :=
  smoothAndPredictWith
    (fun p => Math_max 0 (inject_Z (Math_round p))) hourlyData.

(** [smoothAndPredictScores]: the forecast is
    [Math.max(0, nextHourPrediction)]. *)
Definition smoothAndPredictScores (hourlyData : list HourValue) : Forecast :=
  smoothAndPredictWith (fun p => Math_max 0 p) hourlyData.
End Smoother.

(** ** The temporal clusterer ([advancedAlgorithms.ts]) *)

Module KMeans.
Local Open Scope Q_scope.

(** What a call can do: return a value, throw, or still be drawing random
    indices when the random source it is given is used up. *)
Inductive Outcome (A : Type) :=
  | Returned (a : A)
  | Thrown (msg : string)
  | StillDrawing.
Arguments Returned {A} a.
Arguments Thrown {A} msg.
Arguments StillDrawing {A}.

#[export] Instance Outcome_ret : MRet Outcome := fun A a => Returned a.
#[export] Instance Outcome_bind : MBind Outcome := fun A B f m =>
  match m with
  | Returned a => f a
  | Thrown msg => Thrown msg
  | StillDrawing => StillDrawing
  end.

(** A loop whose body may throw. *)
Fixpoint foldM {A S : Type} (f : S -> A -> Outcome S) (s : S) (l : list A)
    : Outcome S :=
  match l with
  | [] => Returned s
  | a :: l' => s' ← f s a; foldM f s' l'
  end.

(** A distance: the square root of a rational, kept symbolic, or the
    [Infinity] that [minDist] starts from.  Square roots are compared
    through their radicands. *)
Inductive Dist :=
  | Sqrt (radicand : Q)
  | Infinity.

(** [a < b] on distances. *)
Definition dist_ltb (a b : Dist) : bool :=
  match a, b with
  | Sqrt x, Sqrt y => Qltb x y
  | Sqrt _, Infinity => true
  | Infinity, _ => false
  end.

(** [d > c] for a distance [d] and a non-negative number [c]. *)
Definition dist_gtb (d : Dist) (c : Q) : bool :=
  match d with
  | Sqrt x => Qltb (c * c) x
  | Infinity => true
  end.

(** An entry of the clusterer's input. *)
Record HourRow := {
  hour : nat;
  activity : Q;
  light : option Q;
  pedestrians : Q;
  score : Q;
  sampleCount : option nat
}.

Record ClusterResult := {
  clusterId : nat;
  label : string;
  hours : list nat;
  centroid : list Q
}.

(** [euclideanDistance(a, b)]. *)
Definition euclideanDistance (a b : list Q) : Outcome Dist :=
  if negb (length a =? length b)%nat then
    Thrown "Vectors must have same length"
  else
    Returned
      (Sqrt (fold_left (fun sum '(val, bi) => sum + (val - bi) ^ 2)
                       (zip a b) 0)).

(** The test of [hourlyData.filter(...)]:
    [d.pedestrians > 0 || d.score > 0 || (d.activity && d.activity > -70)]. *)
Definition valid (d : HourRow) : bool :=
  Qltb 0 (pedestrians d) || Qltb 0 (score d)
  || (truthy (activity d) && Qltb (-70) (activity d)).

(** The feature vector
    [[activity || -70, light || 0, pedestrians || 0, score || 0]]. *)
Definition features (d : HourRow) : list Q :=
  [ or_else (activity d) (-70);
    opt_or_else (light d) 0;
    or_else (pedestrians d) 0;
    or_else (score d) 0 ].

(** [p[i]] for a vector [p] that has a component [i]. *)
Definition coord (i : nat) (p : list Q) : Q := default 0 (p !! i).

(** [Math.floor(Math.random() * n)] for the random number [r]. *)
Definition randomIndex (n : nat) (r : Q) : Z := Math_floor (r * of_nat n).

(** [validData[randomIdx]]. *)
Definition at_index {A : Type} (l : list A) (i : Z) : option A :=
  if (i <? 0)%Z then None else l !! Z.to_nat i.

(** The loop [do { randomIdx = ... } while (usedIndices.has(randomIdx))]
    on the random numbers [draws], of which it returns the rest; [None]
    when [draws] is used up before an unused index is drawn. *)
Fixpoint drawUnused (n : nat) (usedIndices : gset Z) (draws : list Q)
    : option (Z * list Q) :=
  match draws with
  | [] => None
  | r :: rest =>
      let randomIdx := randomIndex n r in
      if decide (randomIdx ∈ usedIndices) then drawUnused n usedIndices rest
      else Some (randomIdx, rest)
  end.

(** Step 1: [k] centroids from distinct random valid hours. *)
Fixpoint initCentroids
    (k : nat) (validData : list HourRow) (usedIndices : gset Z)
    (draws : list Q) : Outcome (list (list Q)) :=
  match k with
  | O => Returned []
  | S k' =>
      match drawUnused (length validData) usedIndices draws with
      | None => StillDrawing
      | Some (randomIdx, rest) =>
          match at_index validData randomIdx with
          | None => Thrown "TypeError: randomHour is undefined"
          | Some randomHour =>
              centroids ←
                initCentroids k' validData ({[randomIdx]} ∪ usedIndices) rest;
              Returned (features randomHour :: centroids)
          end
      end
  end.

(** The index of the centroid nearest to [features]: the first one at the
    least distance, and [0] when there is no centroid. *)
Definition nearestCluster (features : list Q) (centroids : list (list Q))
    : Outcome nat :=
  best ←
    foldM
      (fun '(minDist, nearestCluster) '(cIdx, centroid) =>
         dist ← euclideanDistance features centroid;
         Returned (if dist_ltb dist minDist then (dist, cIdx)
                   else (minDist, nearestCluster)))
      (Infinity, 0%nat)
      (imap (fun cIdx centroid => (cIdx, centroid)) centroids);
  Returned best.2.

(** Step 2, first half: [k] empty clusters, then every valid hour is pushed
    onto the cluster of its nearest centroid. *)
Definition assignHours
    (k : nat) (validData : list HourRow) (centroids : list (list Q))
    : Outcome (list (list nat)) :=
  foldM
    (fun clusters data =>
       nearest ← nearestCluster (features data) centroids;
       match clusters !! nearest with
       | Some members =>
           Returned (<[nearest := members ++ [hour data]]> clusters)
       | None => Thrown "TypeError: clusters[nearestCluster] is undefined"
       end)
    (replicate k []) validData.

(** The mean of the points of a cluster. *)
Definition meanPoint (clusterPoints : list (list Q)) : list Q :=
  [ average (map (coord 0) clusterPoints);
    average (map (coord 1) clusterPoints);
    average (map (coord 2) clusterPoints);
    average (map (coord 3) clusterPoints) ].

(** Step 3: every centroid of a non-empty cluster moves to the mean of
    its points; [changed] tells whether one moved by more than 0.01. *)
Definition updateCentroids
    (validData : list HourRow) (clusters : list (list nat))
    (centroids : list (list Q)) : Outcome (list (list Q) * bool) :=
  foldM
    (fun '(centroids, changed) cIdx =>
       match centroids !! cIdx with
       | None => Returned (centroids, changed)
       | Some centroid =>
           match clusters !! cIdx with
           | None => Thrown "TypeError: clusterHours is undefined"
           | Some clusterHours =>
               if (length clusterHours =? 0)%nat then
                 Returned (centroids, changed)
               else
                 let clusterPoints :=
                   omap
                     (fun h =>
                        features <$>
                          JsArray.find (fun d => (hour d =? h)%nat) validData)
                     clusterHours in
                 if (0 <? length clusterPoints)%nat then
                   let newCentroid := meanPoint clusterPoints in
                   dist ← euclideanDistance centroid newCentroid;
                   Returned (<[cIdx := newCentroid]> centroids,
                             changed || dist_gtb dist 0.01)
                 else Returned (centroids, changed)
           end
       end)
    (centroids, false) (seq 0 (length centroids)).

Definition maxIterations : nat := 100.

(** The loop [while (changed && iterations < maxIterations)], with
    [remaining = maxIterations - iterations]. *)
Fixpoint iterate
    (remaining : nat) (k : nat) (validData : list HourRow)
    (centroids : list (list Q)) (clusters : list (list nat)) (changed : bool)
    : Outcome (list (list nat) * list (list Q)) :=
  match remaining with
  | O => Returned (clusters, centroids)
  | S remaining' =>
      if changed then
        clusters ← assignHours k validData centroids;
        '(centroids, changed) ← updateCentroids validData clusters centroids;
        iterate remaining' k validData centroids clusters changed
      else Returned (clusters, centroids)
  end.

(** The label of the cluster at rank [idx]. *)
Definition labelOf (idx : nat) : string :=
  match idx with
  | 0%nat => "quiet"
  | 1%nat => "moderate"
  | _ => "busy"
  end.

(** [hourlyData.filter(...)], the hours that have data. *)
Definition validData (hourlyData : list HourRow) : list HourRow :=
  JsArray.filterb valid hourlyData.

(** [kMeansClustering(hourlyData, k)], the values of [Math.random()] being
    [draws]. *)
Definition kMeansClustering
    (hourlyData : list HourRow) (k : nat) (draws : list Q)
    : Outcome (list ClusterResult) :=
  if (length hourlyData =? 0)%nat then Returned []
  else
    let validData := validData hourlyData in
    if (length validData <? k)%nat then Returned []
    else
      centroids ← initCentroids k validData ∅ draws;
      '(clusters, centroids) ←
        iterate maxIterations k validData centroids [] true;
      let clusterResults :=
        imap
          (fun cIdx hours =>
             {| clusterId := cIdx;
                label := EmptyString;
                hours := JsArray.sort JsArray.by_number hours;
                centroid := default [] (centroids !! cIdx) |})
          clusters in
      let sortedClusters :=
        JsArray.sort
          (fun a b => coord 3 (centroid a) - coord 3 (centroid b))
          clusterResults in
      Returned
        (imap
           (fun idx cluster =>
              {| clusterId := clusterId cluster;
                 label := labelOf idx;
                 hours := hours cluster;
                 centroid := centroid cluster |})
           sortedClusters).
End KMeans.

(** ** The contract of score fusion, in the words of the design document *)

Module ScoreContract.
Local Open Scope Q_scope.

(** [clamp(x, lo, hi)]. *)
Definition clamp (x lo hi : Q) : Q :=
  if Qltb x lo then lo else if Qltb hi x then hi else x.

Definition audioComponent (audio : Q) : Q := clamp ((audio + 70) / 50) 0 1.

Definition footfallComponent (footfall : Q) : Q := Math_min 1 (footfall / 100).

(** Light is available when the hour has a light level and that level is
    not 0 lux. *)
Definition lightAvailable (light : option Q) : bool :=
  match light with
  | Some lux => negb (Qeq_bool lux 0)
  | None => false
  end.

Definition lightComponent (light : option Q) : Q :=
  match light with
  | Some lux => if lightAvailable light then Math_min 1 (lux / 500) else 0.5
  | None => 0.5
  end.

Definition score (audio footfall : Q) (light : option Q) : Q :=
  25 * (0.4 * audioComponent audio + 0.4 * footfallComponent footfall
        + 0.2 * lightComponent light).

(** A light level, when there is one, is not negative. *)
Definition lightNonNegative (light : option Q) : Prop :=
  match light with
  | Some lux => 0 <= lux
  | None => True
  end.
End ScoreContract.

(** ** The forecast, in the words of the design document *)

Module ForecastContract.
Local Open Scope Q_scope.

(** [avg(last2)] and [avg(prev2)] for the last three measured values
    [a], [b], [c] in the order of their hours: the last two are [b] and
    [c], the two before the last one are [a] and [b]. *)
Definition avgLast2 (a b c : Q) : Q := (b + c) / 2.
Definition avgPrev2 (a b c : Q) : Q := (a + b) / 2.
Definition trend (a b c : Q) : Q := avgLast2 a b c - avgPrev2 a b c.

(** [prediction = 0.7 x + 0.3 (avg(last2) + trend)]. *)
Definition prediction (x a b c : Q) : Q :=
  0.7 * x + 0.3 * (avgLast2 a b c + trend a b c).
End ForecastContract.

(** ** Sample runs *)

Module Samples.
Import Aggregator.
Local Open Scope Q_scope.

(** 09:00 UTC on 7 November 2025, in milliseconds. *)
Definition nine_oclock : Z := 1762506000000.

(** The sample runs are in UTC. *)
Definition utc : Z -> Z := fun _ => 0%Z.

(** A run whose only sample, at 09:00, reads -45 dB and 0 lux, and the
    same run with a sample that has no light reading. *)
Definition run_zero_lux : Inputs :=
  {| business := costa;
     manualData := {| audio := []; light := [] |};
     sessionData :=
       [ {| timestamp := Some nine_oclock;
            audioDb := Some (-45);
            lightLux := Some 0 |} ];
     footfallData := ∅;
     timeZone := utc |}.

Definition run_no_light : Inputs :=
  {| business := costa;
     manualData := {| audio := []; light := [] |};
     sessionData :=
       [ {| timestamp := Some nine_oclock;
            audioDb := Some (-45);
            lightLux := None |} ];
     footfallData := ∅;
     timeZone := utc |}.

(** A run without any session sample: one manual audio recording (which
    [processAudioData] attributes to 08:00 for this business) and an areal
    footfall dataset that knows 09:00. *)
Definition run_manual_only : Inputs :=
  {| business := costa;
     manualData :=
       {| audio :=
            [ {| audioTime := Some 0;
                 recording := Some 0.5;
                 rowAudioDb := None |} ];
          light := [] |};
     sessionData := [];
     footfallData := {[ 9%nat := 40 ]};
     timeZone := utc |}.

(** A day whose score is 9 at 02:00, 03:00, 04:00 and 07:00 and 2 at every
    other hour, every hour having five samples at -40 dB. *)
Definition day_with_gap : list RealTrafficDataPoint :=
  map (fun h =>
         {| hour := h;
            score := if bool_decide (h ∈ [2; 3; 4; 7]%nat) then 9 else 2;
            pedestrians := 20;
            traffic := 0;
            activity := -40;
            lightLevel := None;
            sampleCount := 5 |})
      (seq 0 24).

(** Five hours for the clusterer, the hour 3 having no data, and four
    values of [Math.random()]. *)
Definition sample_rows : list KMeans.HourRow :=
  map (fun '(h, a, p, s) =>
         {| KMeans.hour := h;
            KMeans.activity := a;
            KMeans.light := None;
            KMeans.pedestrians := p;
            KMeans.score := s;
            KMeans.sampleCount := Some 12%nat |})
      [ (0%nat, -60, 10, 3); (1%nat, -40, 60, 12); (2%nat, -30, 80, 20);
        (3%nat, -70, 0, 0); (4%nat, -35, 70, 18) ].

Definition sample_draws : list Q := [0.1; 0.1; 0.5; 0.9].

(** A run whose only sample, at 09:00, reads -45 dB and a light level of
    -1000 lux, as a faulty sensor may report. *)
Definition run_negative_lux : Inputs :=
  {| business := costa;
     manualData := {| audio := []; light := [] |};
     sessionData :=
       [ {| timestamp := Some nine_oclock;
            audioDb := Some (-45);
            lightLux := Some (-1000) |} ];
     footfallData := ∅;
     timeZone := utc |}.

(** A day with five runs of qualifying hours, two of which have the same
    average score, and one isolated qualifying hour: the score is 9 from
    02:00 to 04:00 and from 14:00 to 16:00, 7 at 07:00 and 08:00, 12 at
    10:00 and 11:00, 11 at 18:00 alone, 10 at 20:00 and 21:00, and 2 at
    every other hour, every hour having five samples at -40 dB. *)
Definition day_five_runs : list RealTrafficDataPoint :=
  map (fun h =>
         {| hour := h;
            score :=
              if bool_decide (h ∈ [2; 3; 4]%nat) then 9
              else if bool_decide (h ∈ [7; 8]%nat) then 7
              else if bool_decide (h ∈ [10; 11]%nat) then 12
              else if bool_decide (h ∈ [14; 15; 16]%nat) then 9
              else if bool_decide (h = 18%nat) then 11
              else if bool_decide (h ∈ [20; 21]%nat) then 10
              else 2;
            pedestrians := 20;
            traffic := 0;
            activity := -40;
            lightLevel := None;
            sampleCount := 5 |})
      (seq 0 24).
End Samples.

(** ** The areal footfall dataset ([loadFootfallData], after parsing) *)

Module Areal.
Local Open Scope Q_scope.

(** A record of the footfall file whose date is valid: the hour of the day
    of its time stamp and the values of its pedestrian columns that are
    numbers. *)
Record FootfallRow := {
  rowHour : nat;
  counts : list Q
}.

(** [totalPedestrians]: the sum of the values [val] with
    [val >= 0 && val < 10000]. *)
Definition totalPedestrians (row : FootfallRow) : Q :=
  fold_left
    (fun total val =>
       if Qgeb val 0 && Qltb val 10000 then total + val else total)
    (counts row) 0.

(** [hourlyFootfall]: per hour, the sum and the number of the records
    whose total is positive and below 10000. *)
Definition hourlyFootfall (rows : list FootfallRow) : gmap nat (Q * nat) :=
  fold_left
    (fun acc row =>
       let total := totalPedestrians row in
       if Qltb 0 total && Qltb total 10000 then
         let current := default (0, 0%nat) (acc !! rowHour row) in
         <[rowHour row := (current.1 + total, S current.2)]> acc
       else acc)
    rows ∅.

(** [hourlyAverages]: the mean of each hour, scaled down to 8 % for the
    location and capped at 150. *)
Definition hourlyAverages (rows : list FootfallRow) : gmap nat Q :=
  (fun '(s, n) =>
     let average := if (0 <? n)%nat then s / of_nat n else 0 in
     Math_min (average * 0.08) 150)
    <$> hourlyFootfall rows.
End Areal.

(** ** The metrics of a run ([generateRealTrafficData], the rest) *)

Module Metrics.
Import Aggregator BusyPeriods.
Local Open Scope Q_scope.

(** [l.reduce((max, item) => item.score > max.score ? item : max, first)]. *)
Definition maxByScore
    (first : RealTrafficDataPoint) (l : list RealTrafficDataPoint)
    : RealTrafficDataPoint :=
  fold_left
    (fun max item => if Qltb (score max) (score item) then item else max)
    l first.

(** [peakData]: the best hour among the hours that have samples, or among
    all hours when none has; [None] stands for the [undefined] that the
    reduction of an empty array gives. *)
Definition peakData (hourlyData : list RealTrafficDataPoint)
    : option RealTrafficDataPoint :=
  let hoursWithData :=
    JsArray.filterb (fun d => (0 <? sampleCount d)%nat) hourlyData in
  match hoursWithData with
  | first :: _ => Some (maxByScore first hoursWithData)
  | [] =>
      match hourlyData with
      | first :: _ => Some (maxByScore first hourlyData)
      | [] => None
      end
  end.

(** [activityRate], as returned: the percentage of the 24 hours whose
    activity is above -50 dB, rounded to one decimal. *)
Definition activityRate (hourlyData : list RealTrafficDataPoint) : Q :=
  let busyHours :=
    length (JsArray.filterb (fun d => Qltb (-50) (activity d)) hourlyData) in
  let activityRate := of_nat busyHours / 24 * 100 in
  inject_Z (Math_round (activityRate * 10)) / 10.

(** A recommendation, as the template used and the figures it prints. *)
Inductive Recommendation :=
  | MaximizePeak (peakHour peakEnd : nat) (pedestrians score : Q)
  | ExtendedBusyPeriod (start end_ : nat) (reason : Reason)
  | OptimizeLowTraffic (lowStart lowEnd : nat).

(** [generateRecommendations(hourlyData, busyPeriods, peakData)]. *)
Definition generateRecommendations
    (hourlyData : list RealTrafficDataPoint) (busyPeriods : list BusyPeriod)
    (peakData : RealTrafficDataPoint) : list Recommendation :=
  let peakHour := hour peakData in
  let peakEnd := Nat.min 23 (peakHour + 1) in
  let peak :=
    [MaximizePeak peakHour peakEnd (pedestrians peakData) (score peakData)] in
  let periods :=
    omap
      (fun period =>
         if (2 <=? end_ period - start period)%nat then
           Some (ExtendedBusyPeriod (start period) (end_ period)
                                    (reason period))
         else None)
      busyPeriods in
  let lowTrafficHours :=
    JsArray.filterb
      (fun d => Qltb (score d) 2 && Qltb (pedestrians d) 30) hourlyData in
  let low :=
    match lowTrafficHours, last lowTrafficHours with
    | first :: _, Some final => [OptimizeLowTraffic (hour first) (hour final)]
    | _, _ => []
    end in
  peak ++ periods ++ low.

(** The entry of [hourlyData] as [kMeansClustering] reads it: the
    clusterer reads the field [light], which the entry does not have. *)
Definition toHourRow (d : RealTrafficDataPoint) : KMeans.HourRow :=
  {| KMeans.hour := hour d;
     KMeans.activity := activity d;
     KMeans.light := None;
     KMeans.pedestrians := pedestrians d;
     KMeans.score := score d;
     KMeans.sampleCount := Some (sampleCount d) |}.

Record NextHourPrediction := {
  predictedPedestrians : Q;
  predictedScore : Q
}.

(** [BusinessMetrics]. *)
Record BusinessMetrics := {
  peakHour : nat;
  peakScore : Q;
  peakFootfall : Q;
  metricsActivityRate : Q;
  metricsHourlyData : list RealTrafficDataPoint;
  busyPeriods : list TopPeriod;
  recommendations : list Recommendation;
  clusters : list KMeans.ClusterResult;
  nextHourPrediction : NextHourPrediction;
  smoothedData : list RealTrafficDataPoint
}.

(** [smoothedData]: the buckets with the smoothed pedestrians and score of
    their hour. *)
Definition smoothedBuckets
    (hourlyData : list RealTrafficDataPoint)
    (pedestrianPrediction scorePrediction : Smoother.Forecast)
    : list RealTrafficDataPoint :=
  map
    (fun d =>
       let smoothedPed :=
         JsArray.find (fun s => (Smoother.s_hour s =? hour d)%nat)
                      (Smoother.smoothedData pedestrianPrediction) in
       let smoothedScore :=
         JsArray.find (fun s => (Smoother.s_hour s =? hour d)%nat)
                      (Smoother.smoothedData scorePrediction) in
       {| hour := hour d;
          score := match smoothedScore with
                   | Some s => Smoother.s_value s
                   | None => score d
                   end;
          pedestrians := match smoothedPed with
                         | Some s => Smoother.s_value s
                         | None => pedestrians d
                         end;
          traffic := traffic d;
          activity := activity d;
          lightLevel := lightLevel d;
          sampleCount := sampleCount d |})
    hourlyData.

(** [generateRealTrafficData(business)] from the inputs it loads, the values
    of [Math.random()] being [draws]. *)
Definition generateRealTrafficData (inp : Inputs) (draws : list Q)
    : KMeans.Outcome BusinessMetrics :=
  let hourlyData := hourlyData inp in
  match peakData hourlyData with
  | None => KMeans.Thrown "TypeError: peakData is undefined"
  | Some peakData =>
      let ranked := rankedPeriods hourlyData in
      let topBusyPeriods := topBusyPeriods hourlyData in
      let recommendations :=
        generateRecommendations hourlyData ranked peakData in
      match KMeans.kMeansClustering (map toHourRow hourlyData) 3 draws with
      | KMeans.Thrown msg => KMeans.Thrown msg
      | KMeans.StillDrawing => KMeans.StillDrawing
      | KMeans.Returned clusters =>
          let pedestrianPrediction :=
            Smoother.smoothAndPredictPedestrians
              (map (fun d => {| Smoother.hour := hour d;
                                Smoother.value := pedestrians d |})
                   hourlyData) in
          let scorePrediction :=
            Smoother.smoothAndPredictScores
              (map (fun d => {| Smoother.hour := hour d;
                                Smoother.value := score d |}) hourlyData) in
          KMeans.Returned
            {| peakHour := hour peakData;
               peakScore := inject_Z (Math_round (score peakData * 100)) / 100;
               peakFootfall := pedestrians peakData;
               metricsActivityRate := activityRate hourlyData;
               metricsHourlyData := hourlyData;
               busyPeriods := topBusyPeriods;
               recommendations := recommendations;
               clusters := clusters;
               nextHourPrediction :=
                 {| predictedPedestrians :=
                      inject_Z
                        (Math_round
                           (Smoother.nextHourPrediction pedestrianPrediction));
                    predictedScore :=
                      inject_Z
                        (Math_round
                           (Smoother.nextHourPrediction scorePrediction * 100))
                      / 100 |};
               smoothedData :=
                 smoothedBuckets hourlyData pedestrianPrediction
                                 scorePrediction |}
      end
  end.
End Metrics.

(** ** The combined view ([dataService.ts]) *)

Module DataService.
Local Open Scope Q_scope.

Record TrafficDataPoint := {
  hour : nat;
  score : Q;
  pedestrians : Q;
  traffic : Q;
  activity : Q
}.

(** An entry of [footfallData]: an hour and its averaged pedestrians. *)
Record FootfallPoint := {
  footfallHour : nat;
  footfallPedestrians : Q
}.

(** A sample of [sessionData]: its hour and its [audioDb], [None] when it
    is [null] or missing. *)
Record SessionSample := {
  sampleHour : nat;
  sampleAudioDb : option Q
}.

(** [calculateWalkByScore(hour, footfallData, sessionData,
    trafficEstimate)]. *)
Definition calculateWalkByScore
    (hour : nat) (footfallData : list FootfallPoint)
    (sessionData : list SessionSample) (trafficEstimate : Q)
    : TrafficDataPoint :=
  let pedestrians :=
    match JsArray.filterb (fun d => (footfallHour d =? hour)%nat) footfallData
    with
    | first :: _ => footfallPedestrians first
    | [] => 0
    end in
  let hourSessions :=
    JsArray.filterb (fun d => (sampleHour d =? hour)%nat) sessionData in
  let activity :=
    match omap sampleAudioDb hourSessions with
    | [] => -70
    | audioLevels => average audioLevels
    end in
  let footfallComponent := pedestrians / 100 in
  let activityComponent := Math_max 0 ((activity + 70) / 10) in
  let trafficComponent := trafficEstimate / 50 in
  let score := footfallComponent + activityComponent + trafficComponent in
  let cappedPedestrians := Math_min pedestrians 10000 in
  let traffic :=
    Math_max 500
      (Math_min (cappedPedestrians * 20
                 + (if Qltb (-50) activity then 5000 else 2000))
                50000) in
  {| hour := hour;
     score := Math_max 0 score;
     pedestrians := inject_Z (Math_round pedestrians);
     traffic := inject_Z (Math_round traffic);
     activity := inject_Z (Math_round (activity * 10)) / 10 |}.

(** The loop of [generateTrafficData] for the combined view. *)
Definition combinedTrafficData
    (footfallData : list FootfallPoint) (sessionData : list SessionSample)
    : list TrafficDataPoint :=
  map (fun hour => calculateWalkByScore hour footfallData sessionData 0)
      (seq 0 24).

(** The conversion of [generateTrafficData] for one business. *)
Definition businessTrafficData
    (hourlyData : list Aggregator.RealTrafficDataPoint)
    : list TrafficDataPoint :=
  map (fun hd =>
         {| hour := Aggregator.hour hd;
            score := Aggregator.score hd;
            pedestrians := Aggregator.pedestrians hd;
            traffic := Aggregator.traffic hd;
            activity := Aggregator.activity hd |})
      hourlyData.

Record DataStats := {
  peakData : TrafficDataPoint;
  totalPedestrians : Q;
  avgActivity : Q;
  activityRate : Q
}.

(** [getDataStats(trafficData)]. *)
Definition getDataStats (trafficData : list TrafficDataPoint) : DataStats :=
  match trafficData with
  | [] =>
      {| peakData := {| hour := 0; score := 0; pedestrians := 0;
                        traffic := 0; activity := -70 |};
         totalPedestrians := 0;
         avgActivity := -70;
         activityRate := 0 |}
  | first :: _ =>
      let peakData :=
        fold_left
          (fun max item => if Qltb (score max) (score item) then item else max)
          trafficData first in
      let totalPedestrians :=
        fold_left (fun sum d => sum + pedestrians d) trafficData 0 in
      let avgActivity :=
        fold_left (fun sum d => sum + activity d) trafficData 0
        / of_nat (length trafficData) in
      let busySamples :=
        length (JsArray.filterb (fun d => Qltb (-50) (activity d))
                                trafficData) in
      let activityRate :=
        of_nat busySamples / of_nat (length trafficData) * 100 in
      {| peakData := peakData;
         totalPedestrians := totalPedestrians;
         avgActivity := avgActivity;
         activityRate := inject_Z (Math_round (activityRate * 10)) / 10 |}
  end.
End DataService.

(** ** What pooling by hour of the day means *)

Module Pooling.
Import Aggregator.

(** The key a sample is filed under: none for a sample that is skipped,
    [Some None] for the key [NaN] of a sample whose date is invalid, and
    [Some (Some h)] for the hour [h] of the day. *)
Definition sessionHour (zone : Z -> Z) (s : Session) : option (option nat) :=
  match timestamp s with
  | Some t => if (t =? 0)%Z then None else Some (getHours zone t)
  | None => None
  end.

(** The samples filed under the key [k], in their order. *)
Definition atHour (zone : Z -> Z) (k : option nat) (sessions : list Session)
    : list Session :=
  JsArray.filterb (fun s => bool_decide (sessionHour zone s = Some k))
                  sessions.

(** The entry of the key [k]: the audio and the light readings of its
    samples and the number of its samples; none without a sample. *)
Definition pooled (zone : Z -> Z) (k : option nat) (sessions : list Session)
    : option SessionEntry :=
  let here := atHour zone k sessions in
  if (length here =? 0)%nat then None
  else Some {| entryAudio := omap audioDb here;
               entryLight := omap lightLux here;
               entryCount := length here |}.
End Pooling.

(** ** What the scan keeps about the runs it has closed *)

Module Segments.
Import Aggregator BusyPeriods.

(** Two runs lie apart: an hour or more separates the first from the
    second. *)
Definition apart (p q : BusyPeriod) : Prop := (end_ p + 1 < start q)%nat.

(** The closed runs are in the order of their hours and apart, and apart
    from the run being extended or, without one, end before the hour
    [i - 1]. *)
Definition ordered_inv (i : nat)
    (st : list BusyPeriod * option CurrentPeriod) : Prop :=
  StronglySorted apart st.1
  /\ Forall (fun p =>
               (end_ p + 1 < match st.2 with
                             | Some cp => cur_start cp
                             | None => i
                             end)%nat)
            st.1.

(** A maximal run of two or more qualifying hours. *)
Definition maximal_run (hd : list RealTrafficDataPoint) (s e : nat) : Prop :=
  (s < e)%nat /\ run_of hd s e /\ busyAt hd (e + 1) = false.

(** Every maximal run that the scan has passed is among the closed runs. *)
Definition complete_inv (hd : list RealTrafficDataPoint) (i : nat)
    (st : list BusyPeriod * option CurrentPeriod) : Prop :=
  forall s e,
    maximal_run hd s e -> (e + 1 < i)%nat ->
    exists p, p ∈ st.1 /\ start p = s /\ end_ p = e.

(** The record of a closed run is the one [closePeriod] builds. *)
Definition closed_by (hd : list RealTrafficDataPoint) (p : BusyPeriod)
    : Prop :=
  exists cp, p = closePeriod hd cp.

(** [periodData]: the buckets of the hours of a period. *)
Definition periodData (hd : list RealTrafficDataPoint) (p : BusyPeriod)
    : list RealTrafficDataPoint :=
  JsArray.filterb
    (fun d => ((start p <=? hour d) && (hour d <=? end_ p))%nat) hd.
End Segments.

(** ** The quantity the clusterer compares *)

Module Geometry.
Local Open Scope Q_scope.

(** The sum of squares under the square root of [euclideanDistance]. *)
Definition squaredDistance (a b : list Q) : Q :=
  fold_left (fun sum '(val, bi) => sum + (val - bi) ^ 2) (zip a b) 0.
End Geometry.

(** * Part II: the properties *)

(** ** Numbers *)

Section NumberFacts.
Local Open Scope Q_scope.

Lemma Qltb_lt a b : Qltb a b = true <-> a < b.
Proof.
  unfold Qltb. rewrite negb_true_iff.
  destruct (Qle_bool b a) eqn:E.
  - apply Qle_bool_iff in E. split; [discriminate | intros H; lra].
  - split; [intros _ | reflexivity].
    apply Qnot_le_lt. intros H. apply Qle_bool_iff in H. congruence.
Qed.

Lemma Qltb_ge a b : Qltb a b = false <-> b <= a.
Proof.
  destruct (Qltb a b) eqn:E.
  - apply Qltb_lt in E. split; [discriminate | intros H; lra].
  - split; [intros _ | reflexivity].
    apply Qnot_lt_le. intros H. apply Qltb_lt in H. congruence.
Qed.

Lemma truthy_neq x : truthy x = true <-> ~ x == 0.
Proof.
  unfold truthy. rewrite negb_true_iff.
  destruct (Qeq_bool x 0) eqn:E.
  - apply Qeq_bool_iff in E. split; [discriminate | tauto].
  - split; [intros _ H | reflexivity].
    apply Qeq_bool_iff in H. congruence.
Qed.

Lemma truthy_zero x : truthy x = false <-> x == 0.
Proof. unfold truthy. rewrite negb_false_iff. apply Qeq_bool_iff. Qed.
End NumberFacts.

(** Case analysis on an innermost comparison of the goal, with its
    meaning. *)
Ltac no_test t :=
  lazymatch t with
  | context [Qltb _ _] => fail
  | context [truthy _] => fail
  | _ => idtac
  end.

Ltac cmp_case :=
  match goal with
  | |- context [Qltb ?a ?b] =>
      no_test a; no_test b;
      let E := fresh "Hcmp" in
      destruct (Qltb a b) eqn:E;
      [apply Qltb_lt in E | apply Qltb_ge in E]
  | |- context [truthy ?a] =>
      no_test a;
      let E := fresh "Hnz" in
      destruct (truthy a) eqn:E;
      [apply truthy_neq in E | apply truthy_zero in E]
  end.

(** Division by a numeral is multiplication by its inverse. *)
Ltac const_div :=
  unfold Qdiv in *;
  repeat match goal with
    | |- context [Qinv (Qmake ?n ?d)] =>
        let v := eval vm_compute in (Qinv (Qmake n d)) in
        change (Qinv (Qmake n d)) with v in *
    | H : context [Qinv (Qmake ?n ?d)] |- _ =>
        let v := eval vm_compute in (Qinv (Qmake n d)) in
        change (Qinv (Qmake n d)) with v in *
    end.

Ltac minmax :=
  unfold Math_max, Math_min; const_div; repeat cmp_case; try lra.

Section MinMaxFacts.
Local Open Scope Q_scope.

Lemma Math_max_nonneg a : 0 <= Math_max 0 a.
Proof. minmax. Qed.
End MinMaxFacts.

(** ** Score fusion *)

Section ScoreFusion.
Import Fusion.
Local Open Scope Q_scope.

Lemma audio_component_clamp audio :
  Math_max 0 (Math_min 1 ((Math_max (-70) (Math_min (-20) audio) + 70) / 50))
  == ScoreContract.audioComponent audio.
Proof.
  unfold ScoreContract.audioComponent, ScoreContract.clamp. minmax.
Qed.

Lemma lightComponent_contract light :
  lightComponent light == ScoreContract.lightComponent light.
Proof.
  destruct light as [lux|]; simpl; [|reflexivity].
  unfold truthy. destruct (Qeq_bool lux 0); reflexivity.
Qed.

Lemma lightComponent_range light :
  ScoreContract.lightNonNegative light ->
  0 <= lightComponent light <= 1.
Proof.
  destruct light as [lux|]; simpl; [|lra].
  intros Hlux. cmp_case; [|lra]. minmax.
Qed.

(** The score of non-negative footfall and light lies in [0, 25]. *)
Lemma calculateScore_range hour audio footfall light :
  0 <= footfall ->
  ScoreContract.lightNonNegative light ->
  0 <= calculateScore hour audio footfall light <= 25.
Proof.
  intros Hfoot Hlight. unfold calculateScore.
  pose proof (lightComponent_range light Hlight) as Hl.
  set (l := lightComponent light) in *. clearbody l.
  minmax.
Qed.

Lemma Math_round_range x lo hi :
  inject_Z lo <= x <= inject_Z hi ->
  inject_Z lo <= inject_Z (Math_round x) <= inject_Z hi.
Proof.
  intros [Hlo Hhi]. unfold Math_round. rewrite <- !Zle_Qle. split.
  - rewrite <- (Qfloor_Z lo). apply Qfloor_resp_le. lra.
  - assert (Qfloor (x + 0.5) < hi + 1)%Z as Hlt; [|lia].
    rewrite Zlt_Qlt, inject_Z_plus.
    eapply Qle_lt_trans; [apply Qfloor_le|].
    change (inject_Z 1) with 1. lra.
Qed.

(** The footfall estimate is a count between 0 and 100. *)
Lemma estimatePedestrians_range audio light n :
  0 <= estimatePedestriansFromSensors audio light n <= 100.
Proof.
  unfold estimatePedestriansFromSensors.
  apply (Math_round_range _ 0 100).
  change (inject_Z 0) with 0. change (inject_Z 100) with 100.
  set (a := Math_max 0 (Math_min 1 ((Math_max (-70) (Math_min (-20) audio) + 70)
                                    / 50))).
  assert (0 <= a <= 1) as Ha by (subst a; minmax).
  clearbody a.
  assert (forall p, 0 <= p ->
            0 <= (if (n <? 10)%nat then p * 0.5 else p)) as Hhalf.
  { intros p Hp. destruct (n <? 10)%nat; lra. }
  assert (forall p, 0 <= p -> 0 <= Math_min p 100 <= 100) as Hcap.
  { intros p Hp. minmax. }
  apply Hcap, Hhalf.
  destruct light as [l|]; [|lra].
  destruct (Qltb 0 l) eqn:El; [|lra].
  apply Qltb_lt in El.
  assert (0 <= Math_min 1 (l / 500) <= 1) as Hf by minmax.
  set (f := Math_min 1 (l / 500)) in *. clearbody f. nra.
Qed.

(** The score of every bucket lies in [0, 25], light levels and areal
    footfall values being non-negative. *)
Lemma bucket_score_range sessions (footfalls : gmap nat Q) h audio light n :
  map_Forall (fun _ v => 0 <= v) footfalls ->
  ScoreContract.lightNonNegative light ->
  0 <= Aggregator.score
         (Aggregator.bucket sessions footfalls h (audio, light, n)) <= 25.
Proof.
  intros Hareal Hlight. cbn [Aggregator.bucket Aggregator.score].
  apply calculateScore_range; [|exact Hlight].
  unfold Aggregator.footfallWithSource.
  destruct (0 <? n)%nat; [apply estimatePedestrians_range|].
  destruct (footfalls !! h) as [v|] eqn:Hv; [|simpl; lra].
  destruct (length sessions =? 0)%nat; simpl; [|lra].
  exact (Hareal h v Hv).
Qed.

(** The light term is at most 1, whatever the light level. *)
Lemma lightComponent_at_most_1 light : lightComponent light <= 1.
Proof.
  unfold lightComponent. destruct light as [l|]; [|lra].
  destruct (truthy l); [minmax | lra].
Qed.

(** The score never exceeds 25. *)
Lemma calculateScore_at_most_25 hour audio footfall light :
  calculateScore hour audio footfall light <= 25.
Proof.
  unfold calculateScore.
  pose proof (lightComponent_at_most_1 light) as Hl.
  set (l := lightComponent light) in *. clearbody l.
  minmax.
Qed.

(** C4. The fused score of an hour is
    25 x (0.4 audioComponent + 0.4 footfallComponent + 0.2 lightComponent),
    with audioComponent = clamp((audio+70)/50, 0, 1), footfallComponent =
    min(1, footfall/100), and lightComponent = min(1, lux/500) when light is
    available and 0.5 otherwise; audio -45 dB, footfall 60 and light 500 lux
    give exactly 16.  The score never exceeds 25.  It is not negative when
    the footfall and the light level are not negative, and so is the score
    of every bucket whose light level and areal value are not negative:
    the two terms are clamped above only. *)
Theorem calculateScore_contract :
  (forall hour audio footfall light,
      calculateScore hour audio footfall light
      == ScoreContract.score audio footfall light)
  /\ (forall hour, calculateScore hour (-45) 60 (Some 500) == 16)
  /\ (forall hour audio footfall light,
         0 <= footfall ->
         ScoreContract.lightNonNegative light ->
         0 <= calculateScore hour audio footfall light <= 25)
  /\ (forall hour audio footfall light,
         calculateScore hour audio footfall light <= 25)
  /\ (forall sessions (footfalls : gmap nat Q) h audio light n,
         map_Forall (fun _ v => 0 <= v) footfalls ->
         ScoreContract.lightNonNegative light ->
         0 <= Aggregator.score
                (Aggregator.bucket sessions footfalls h (audio, light, n))
           <= 25).
Proof.
  split; [|split; [|split; [|split]]].
  - intros hour audio footfall light.
    unfold calculateScore, ScoreContract.score, ScoreContract.footfallComponent.
    rewrite audio_component_clamp, lightComponent_contract. ring.
  - intros hour. vm_compute. reflexivity.
  - apply calculateScore_range.
  - apply calculateScore_at_most_25.
  - apply bucket_score_range.
Qed.

Lemma calculateScore_contract_witness :
  0 <= calculateScore 9 (-45) 60 (Some 500) <= 25.
Proof.
  destruct calculateScore_contract as (_ & _ & Hrange & _).
  apply Hrange; simpl; lra.
Defined.

(** C4, as stated, fails: the score does not always lie in [0, 25].  A
    light level of -1000 lux gives the light term min(1, -1000/500) = -2
    and, on a silent hour without footfall, the score -10; the bucket of a
    run whose only sample reads -45 dB and -1000 lux has the score -2.5. *)
Lemma negative_lux_scores_below_zero :
  calculateScore 0 (-70) 0 (Some (-1000)) == -10
  /\ Aggregator.score (Aggregator.hourlyPoint Samples.run_negative_lux 9)
     == -2.5
  /\ ~ (0 <= Aggregator.score
              (Aggregator.hourlyPoint Samples.run_negative_lux 9) <= 25).
Proof.
  split; [vm_compute; reflexivity|].
  split; [vm_compute; reflexivity|].
  intros [Hlow _]. vm_compute in Hlow. apply Hlow. reflexivity.
Qed.
End ScoreFusion.

(** ** A reading of 0 lux *)

Section ZeroLux.
Import Fusion Aggregator.
Local Open Scope Q_scope.

Lemma lightComponent_zero lux : lux == 0 -> lightComponent (Some lux) = 0.5.
Proof.
  intros Hz. unfold lightComponent.
  apply truthy_zero in Hz. rewrite Hz. reflexivity.
Qed.

Lemma calculateScore_zero_lux hour audio footfall lux :
  lux == 0 ->
  calculateScore hour audio footfall (Some lux)
  = calculateScore hour audio footfall None.
Proof.
  intros Hz. unfold calculateScore.
  rewrite (lightComponent_zero lux Hz). reflexivity.
Qed.

Lemma estimatePedestrians_zero_lux audio lux n :
  lux == 0 ->
  estimatePedestriansFromSensors audio (Some lux) n
  = estimatePedestriansFromSensors audio None n.
Proof.
  intros Hz. unfold estimatePedestriansFromSensors.
  assert (Qltb 0 lux = false) as -> by (apply Qltb_ge; lra).
  reflexivity.
Qed.

(** C10, as it holds.  For a light level of exactly 0 lux, [calculateScore]
    uses the light term 0.5 and so returns what it returns without a light
    level, [estimatePedestriansFromSensors] applies no light modulation, and
    the bucket of the hour has the score, the pedestrians, the traffic, the
    activity and the sample count of the bucket without a light level; the
    bucket's own [lightLevel] field still holds the reading. *)
Theorem zero_lux_treated_as_unavailable (lux : Q) :
  lux == 0 ->
  lightComponent (Some lux) = 0.5
  /\ (forall hour audio footfall,
         calculateScore hour audio footfall (Some lux)
         = calculateScore hour audio footfall None)
  /\ (forall audio n,
         estimatePedestriansFromSensors audio (Some lux) n
         = estimatePedestriansFromSensors audio None n)
  /\ (forall sessions footfalls h audio n,
         let lit := bucket sessions footfalls h (audio, Some lux, n) in
         let dark := bucket sessions footfalls h (audio, None, n) in
         score lit = score dark
         /\ pedestrians lit = pedestrians dark
         /\ traffic lit = traffic dark
         /\ activity lit = activity dark
         /\ sampleCount lit = sampleCount dark
         /\ lightLevel lit = Some lux
         /\ lightLevel dark = None).
Proof.
  intros Hz. split; [|split; [|split]].
  - apply lightComponent_zero, Hz.
  - intros. apply calculateScore_zero_lux, Hz.
  - intros. apply estimatePedestrians_zero_lux, Hz.
  - intros sessions footfalls h audio n. simpl.
    unfold footfallWithSource.
    rewrite (estimatePedestrians_zero_lux audio lux n Hz).
    rewrite (calculateScore_zero_lux h audio _ lux Hz).
    repeat split; reflexivity.
Qed.

Lemma zero_lux_treated_as_unavailable_witness :
  calculateScore 9 (-45) 25 (Some 0) = calculateScore 9 (-45) 25 None.
Proof.
  destruct (zero_lux_treated_as_unavailable 0 (Qeq_refl 0)) as (_ & Hscore & _).
  exact (Hscore 9%nat (-45) 25).
Defined.

(** C10, as stated, fails: the public result tells a reading of 0 lux from
    an absent light sensor.  Of two runs that differ only in that the 09:00
    sample reads 0 lux in one and has no light reading in the other, the
    first reports [lightLevel = 0] for 09:00 and the second reports none,
    although both report the same score and footfall. *)
Lemma zero_lux_is_reported :
  lightLevel <$> hourlyData Samples.run_zero_lux !! 9%nat = Some (Some 0)
  /\ lightLevel <$> hourlyData Samples.run_no_light !! 9%nat = Some None
  /\ score <$> hourlyData Samples.run_zero_lux !! 9%nat
     = score <$> hourlyData Samples.run_no_light !! 9%nat
  /\ hourlyData Samples.run_zero_lux <> hourlyData Samples.run_no_light.
Proof.
  split; [|split; [|split]]; try (vm_compute; reflexivity).
  intros Heq.
  assert (lightLevel <$> hourlyData Samples.run_zero_lux !! 9%nat
          = lightLevel <$> hourlyData Samples.run_no_light !! 9%nat) as Hl
    by (rewrite Heq; reflexivity).
  vm_compute in Hl. discriminate Hl.
Qed.
End ZeroLux.

(** ** The source of the footfall values of a run *)

Section FootfallSources.
Import Fusion Aggregator.
Local Open Scope Q_scope.

Lemma footfallWithSource_cases sessions footfalls h audio lux n :
  let r := footfallWithSource sessions footfalls h audio lux n in
  ((0 < n)%nat ->
     r = (SensorEstimate, estimatePedestriansFromSensors audio lux n))
  /\ (n = 0%nat -> sessions <> [] -> r = (NoData, 0))
  /\ (n = 0%nat -> sessions = [] ->
        r = match footfalls !! h with
            | Some v => (ArealFallback, v)
            | None => (NoData, 0)
            end).
Proof.
  unfold footfallWithSource. split; [|split].
  - intros Hn. destruct n; [lia|]. reflexivity.
  - intros -> Hs. simpl. destruct sessions; [congruence|].
    destruct (footfalls !! h); reflexivity.
  - intros -> ->. simpl. destruct (footfalls !! h); reflexivity.
Qed.

(** C1, as it holds.  In every run, an hour with [sampleCount > 0] gets the
    sensor-derived estimate.  An hour with [sampleCount = 0] gets footfall 0
    when the run has at least one session sample, so that such a run holds
    no areal value and has a single source; when the run has no session
    sample the hour gets the areal value if the dataset has one for it, and
    0 otherwise. *)
Theorem footfall_source_by_hour (inp : Inputs) :
  (forall h : nat,
      let '(audio, lux, n) := hourSignals inp h in
      let r := hourFootfall inp h in
      ((0 < n)%nat ->
         r = (SensorEstimate, estimatePedestriansFromSensors audio lux n))
      /\ (n = 0%nat -> sessionData inp <> [] -> r = (NoData, 0))
      /\ (n = 0%nat -> sessionData inp = [] ->
            r = match footfallData inp !! h with
                | Some v => (ArealFallback, v)
                | None => (NoData, 0)
                end)
      /\ hourlyData inp !! h
         = (if decide (h < 24)%nat
            then Some (bucket (sessionData inp) (footfallData inp) h
                              (audio, lux, n))
            else None))
  /\ (sessionData inp <> [] -> singleSource inp).
Proof.
  assert (forall h,
             let '(audio, lux, n) := hourSignals inp h in
             let r := hourFootfall inp h in
             ((0 < n)%nat ->
                r = (SensorEstimate,
                     estimatePedestriansFromSensors audio lux n))
             /\ (n = 0%nat -> sessionData inp <> [] -> r = (NoData, 0))
             /\ (n = 0%nat -> sessionData inp = [] ->
                   r = match footfallData inp !! h with
                       | Some v => (ArealFallback, v)
                       | None => (NoData, 0)
                       end)) as Hsrc.
  { intros h. unfold hourFootfall.
    destruct (hourSignals inp h) as [[audio lux] n].
    apply footfallWithSource_cases. }
  split.
  - intros h. specialize (Hsrc h).
    destruct (hourSignals inp h) as [[audio lux] n] eqn:Hsig.
    destruct Hsrc as (Hpos & Hgap & Hareal).
    split; [exact Hpos|]. split; [exact Hgap|]. split; [exact Hareal|].
    unfold hourlyData. rewrite list_lookup_fmap.
    case_decide as Hh.
    + rewrite lookup_seq_lt by assumption. simpl.
      unfold hourlyPoint. rewrite Hsig. reflexivity.
    + rewrite lookup_seq_ge by lia. reflexivity.
  - intros Hs (h1 & h2 & _ & _ & _ & Hareal).
    specialize (Hsrc h2).
    destruct (hourSignals inp h2) as [[audio lux] n].
    destruct Hsrc as (Hpos & Hgap & _).
    destruct n as [|n].
    + rewrite Hgap in Hareal by auto. discriminate.
    + rewrite Hpos in Hareal by lia. discriminate.
Qed.

Lemma footfall_source_by_hour_witness : singleSource Samples.run_zero_lux.
Proof.
  apply footfall_source_by_hour. discriminate.
Defined.

(** C1, as stated, fails: a run without session samples mixes the two
    sources.  Manual collection covers 08:00, whose footfall 10 is the
    sensor estimate, and the areal dataset fills 09:00 with its value 40. *)
Lemma sensor_and_areal_values_coexist :
  ~ singleSource Samples.run_manual_only
  /\ hourFootfall Samples.run_manual_only 8
     = (SensorEstimate, estimatePedestriansFromSensors (-60) None 1)
  /\ hourFootfall Samples.run_manual_only 9 = (ArealFallback, 40)
  /\ pedestrians <$> hourlyData Samples.run_manual_only !! 8%nat = Some 10
  /\ pedestrians <$> hourlyData Samples.run_manual_only !! 9%nat = Some 40.
Proof.
  split; [|repeat split; vm_compute; reflexivity].
  intros Hsingle. apply Hsingle. exists 8%nat, 9%nat.
  repeat split; try lia; vm_compute; reflexivity.
Qed.
End FootfallSources.

(** ** Arrays *)

Section ArrayFacts.
Context {A : Type}.
Implicit Types (l : list A) (cmp : A -> A -> Q).
Local Open Scope Q_scope.

Lemma sort_insert_Permutation cmp x l : JsArray.sort_insert cmp x l ≡ₚ x :: l.
Proof.
  induction l as [|y l IH]; simpl; [reflexivity|].
  destruct (Qltb (cmp x y) 0); [reflexivity|].
  rewrite IH. apply Permutation_swap.
Qed.

Lemma sort_fold_Permutation cmp l acc :
  fold_left (fun acc x => JsArray.sort_insert cmp x acc) l acc ≡ₚ acc ++ l.
Proof.
  revert acc. induction l as [|x l IH]; intros acc; simpl.
  - rewrite app_nil_r. reflexivity.
  - rewrite IH, sort_insert_Permutation.
    rewrite (Permutation_middle acc l x). reflexivity.
Qed.

(** Sorting rearranges the array and does nothing else. *)
Lemma sort_Permutation cmp l : JsArray.sort cmp l ≡ₚ l.
Proof. unfold JsArray.sort. rewrite sort_fold_Permutation. reflexivity. Qed.

Lemma sort_length cmp l : length (JsArray.sort cmp l) = length l.
Proof. apply Permutation_length, sort_Permutation. Qed.

Lemma sort_elem_of cmp l x : x ∈ JsArray.sort cmp l <-> x ∈ l.
Proof. rewrite sort_Permutation. reflexivity. Qed.

Lemma sort_insert_sorted cmp key x l :
  JsArray.orders_by cmp key ->
  StronglySorted (fun a b => key a <= key b) l ->
  StronglySorted (fun a b => key a <= key b) (JsArray.sort_insert cmp x l).
Proof.
  intros Hord. induction l as [|y l IH]; intros Hs; simpl.
  - repeat constructor.
  - apply StronglySorted_inv in Hs as [Hl Hy].
    destruct (Qltb (cmp x y) 0) eqn:E.
    + apply Qltb_lt, Hord in E.
      constructor; [constructor; assumption|].
      constructor; [lra|].
      eapply Forall_impl; [exact Hy|]. simpl. intros z Hz. lra.
    + apply Qltb_ge in E.
      assert (key y <= key x) as Hyx.
      { destruct (Qlt_le_dec (key x) (key y)) as [Hlt|Hle]; [|exact Hle].
        apply Hord in Hlt. lra. }
      constructor; [apply IH, Hl|].
      rewrite sort_insert_Permutation. constructor; assumption.
Qed.

(** Sorting with such a comparator leaves the keys in ascending order. *)
Lemma sort_sorted cmp key l :
  JsArray.orders_by cmp key ->
  StronglySorted (fun a b => key a <= key b) (JsArray.sort cmp l).
Proof.
  intros Hord. unfold JsArray.sort.
  assert (forall acc,
             StronglySorted (fun a b => key a <= key b) acc ->
             StronglySorted (fun a b => key a <= key b)
               (fold_left (fun acc x => JsArray.sort_insert cmp x acc) l acc))
    as Hgen.
  { induction l as [|x l IH]; intros acc Hacc; simpl; [exact Hacc|].
    apply IH, sort_insert_sorted; assumption. }
  apply Hgen. constructor.
Qed.

Lemma filterb_elem_of (p : A -> bool) l x :
  x ∈ JsArray.filterb p l <-> x ∈ l /\ p x = true.
Proof.
  unfold JsArray.filterb. rewrite !list_elem_of_In. apply filter_In.
Qed.

Lemma filterb_sublist (p : A -> bool) l : JsArray.filterb p l `sublist_of` l.
Proof.
  induction l as [|x l IH]; simpl; [constructor|].
  destruct (p x); [apply sublist_skip | apply sublist_cons]; exact IH.
Qed.

Lemma filterb_map {B : Type} (f : A -> B) (q : B -> bool) l :
  JsArray.filterb q (map f l) = map f (JsArray.filterb (fun x => q (f x)) l).
Proof.
  induction l as [|x l IH]; simpl; [reflexivity|].
  destruct (q (f x)); simpl; rewrite IH; reflexivity.
Qed.

Lemma filterb_ext (p q : A -> bool) l :
  (forall x, x ∈ l -> p x = q x) -> JsArray.filterb p l = JsArray.filterb q l.
Proof.
  induction l as [|x l IH]; intros H; simpl; [reflexivity|].
  rewrite (H x) by left. rewrite IH; [reflexivity|].
  intros y Hy. apply H. right. exact Hy.
Qed.

(** [findIndex] returns the position of an element whose key is unique. *)
Lemma findIndex_unique {K : Type} `{EqDecision K} (key : A -> K)
    (eqb : K -> K -> bool) l i d :
  (forall a b, eqb a b = true <-> a = b) ->
  NoDup (map key l) ->
  l !! i = Some d ->
  JsArray.findIndex (fun h => eqb (key h) (key d)) l = Some i.
Proof.
  intros Heqb. revert i. induction l as [|y l IH]; intros i Hnd Hi.
  - rewrite lookup_nil in Hi. discriminate.
  - simpl in Hnd. apply NoDup_cons in Hnd as [Hy Hnd].
    destruct i as [|i]; simpl in *.
    + injection Hi as ->.
      assert (eqb (key d) (key d) = true) as -> by (apply Heqb; reflexivity).
      reflexivity.
    + destruct (eqb (key y) (key d)) eqn:E.
      * apply Heqb in E. exfalso. apply Hy. rewrite E.
        apply list_elem_of_fmap. exists d. split; [reflexivity|].
        eapply list_elem_of_lookup_2; eassumption.
      * rewrite (IH i Hnd Hi). reflexivity.
Qed.
End ArrayFacts.

(** ** The recursive filter *)

Section KalmanFacts.
Import Kalman.
Local Open Scope Q_scope.

Lemma kalman_fold_length l st acc :
  length (fold_left kalmanStep l (st, acc)).2 = (length acc + length l)%nat.
Proof.
  revert st acc. induction l as [|z l IH]; intros st acc; simpl.
  - lia.
  - rewrite IH, length_app. simpl. lia.
Qed.

(** The filter on a non-empty series, without an initial state. *)
Lemma kalmanFilter_cons z0 l :
  kalmanFilter (z0 :: l) None
  = let r := fold_left kalmanStep (z0 :: l)
               ({| st_x := z0; st_P := 1; st_Q := 0.01; st_R := 0.1 |}, []) in
    {| smoothed := r.2; predicted := st_x r.1; state := r.1 |}.
Proof.
  unfold kalmanFilter. cbv zeta. cbn [mbind option_bind default].
  destruct (fold_left kalmanStep _ _) as [st sm]. reflexivity.
Qed.

(** The filter emits one smoothed value per measurement. *)
Lemma kalmanFilter_length l :
  length (smoothed (kalmanFilter l None)) = length l.
Proof.
  destruct l as [|z0 l]; [reflexivity|].
  rewrite kalmanFilter_cons. cbv zeta. cbn [smoothed].
  rewrite kalman_fold_length. reflexivity.
Qed.

(** The prediction is the final estimate. *)
Lemma kalmanFilter_predicted l init :
  predicted (kalmanFilter l init) = st_x (state (kalmanFilter l init)).
Proof.
  unfold kalmanFilter. destruct l as [|z0 l]; [reflexivity|].
  destruct (fold_left kalmanStep _ _) as [st sm]. reflexivity.
Qed.

Lemma kalman_fold_constant c l st acc :
  Forall (fun z => z == c) l ->
  st_x st == c ->
  Forall (fun v => v == c) acc ->
  st_x (fold_left kalmanStep l (st, acc)).1 == c
  /\ Forall (fun v => v == c) (fold_left kalmanStep l (st, acc)).2.
Proof.
  revert st acc. induction l as [|z l IH]; intros st acc Hl Hx Hacc; simpl.
  - split; assumption.
  - apply Forall_cons in Hl as [Hz Hl].
    assert (st_x st + (st_P st + st_Q st) / (st_P st + st_Q st + st_R st)
                      * (z - st_x st) == c) as Hx'.
    { rewrite Hz, Hx. unfold Qdiv. ring. }
    apply IH; [exact Hl | exact Hx' |].
    apply Forall_app. split; [exact Hacc|].
    constructor; [exact Hx' | constructor].
Qed.

(** On a non-empty series whose measurements all equal [c], every smoothed
    value and the prediction equal [c]. *)
Lemma kalmanFilter_constant c l :
  l <> [] ->
  Forall (fun z => z == c) l ->
  Forall (fun v => v == c) (smoothed (kalmanFilter l None))
  /\ predicted (kalmanFilter l None) == c.
Proof.
  intros Hne Hl. destruct l as [|z0 l]; [congruence|].
  rewrite kalmanFilter_cons. cbv zeta. cbn [smoothed predicted].
  apply and_comm, kalman_fold_constant.
  - exact Hl.
  - apply Forall_cons in Hl as [Hz0 _]. exact Hz0.
  - constructor.
Qed.

(** C6. On a constant non-zero series of at least two measurements the
    filter is a fixed point: it emits one smoothed value per measurement,
    each equal to the constant, and its one-step-ahead prediction is the
    constant. *)
Theorem kalman_constant_fixed_point (c : Q) (n : nat) :
  (2 <= n)%nat ->
  ~ c == 0 ->
  let r := kalmanFilter (replicate n c) None in
  length (smoothed r) = n
  /\ Forall (fun v => v == c) (smoothed r)
  /\ predicted r == c.
Proof.
  intros Hn _ r. subst r. split.
  - rewrite kalmanFilter_length, length_replicate. reflexivity.
  - apply kalmanFilter_constant.
    + destruct n; [lia | discriminate].
    + apply Forall_forall. intros z Hz.
      apply elem_of_replicate in Hz as [-> _]. reflexivity.
Qed.

Lemma kalman_constant_fixed_point_witness :
  Forall (fun v => v == 50) (smoothed (kalmanFilter [50; 50; 50; 50] None))
  /\ predicted (kalmanFilter [50; 50; 50; 50] None) == 50.
Proof.
  assert (~ 50 == 0) as Hnz by (intros H; discriminate H).
  destruct (kalman_constant_fixed_point 50 4 ltac:(lia) Hnz) as (_ & Hs & Hp).
  split; [exact Hs | exact Hp].
Defined.
End KalmanFacts.

(** ** Smoothing and forecasting *)

Section SmootherFacts.
Import Kalman Smoother.
Local Open Scope Q_scope.

Lemma sortedData_Permutation hd : sortedData hd ≡ₚ hd.
Proof. apply sort_Permutation. Qed.

Lemma hoursWithData_measured hd d :
  d ∈ hoursWithData hd -> Qltb 0 (value d) = true.
Proof. intros H. apply filterb_elem_of in H. apply H. Qed.

Lemma hoursWithData_NoDup hd :
  NoDup (map hour hd) -> NoDup (map hour (hoursWithData hd)).
Proof.
  intros Hnd.
  assert (map hour (hoursWithData hd) `sublist_of` map hour (sortedData hd))
    as Hsub by (apply (fmap_sublist hour), filterb_sublist).
  refine (sublist_NoDup _ _ _ Hsub).
  assert (map hour (sortedData hd) ≡ₚ map hour hd) as ->
    by apply fmap_Permutation, sortedData_Permutation.
  exact Hnd.
Qed.

Lemma series_length hd : length (series hd) = length (hoursWithData hd).
Proof. apply length_map. Qed.

(** The point the smoother emits for the hour [d]. *)
Lemma smoothedData_unfold finish hd :
  exists g : HourValue -> SmoothedValue,
    smoothedData (smoothAndPredictWith finish hd) = map g (sortedData hd)
    /\ (forall d, s_raw (g d) = value d /\ s_hour (g d) = hour d)
    /\ (forall d, Qltb 0 (value d) = false -> g d = keep d)
    /\ ((2 <= length (hoursWithData hd))%nat ->
        forall d i v,
          Qltb 0 (value d) = true ->
          JsArray.findIndex (fun h => (hour h =? hour d)%nat) (hoursWithData hd)
          = Some i ->
          smoothed (kalmanFilter (series hd) None) !! i = Some v ->
          s_value (g d) = v).
Proof.
  unfold smoothAndPredictWith.
  destruct (length (hoursWithData hd) <? 2)%nat eqn:Hlen.
  - exists keep. cbn [smoothedData].
    apply Nat.ltb_lt in Hlen.
    repeat split; try reflexivity; intros; lia.
  - eexists. cbn [smoothedData]. split; [reflexivity|].
    split; [|split].
    + intros d. cbv beta.
      destruct (Qltb 0 (value d)); [|split; reflexivity].
      destruct (JsArray.findIndex _ _) as [i|]; [|split; reflexivity].
      destruct (smoothed _ !! i); split; reflexivity.
    + intros d Hd. cbv beta. rewrite Hd. reflexivity.
    + intros _ d i v Hd Hi Hv. cbv beta. rewrite Hd, Hi, Hv. reflexivity.
Qed.

(** An hour whose input value is 0 is emitted as it is. *)
Lemma zero_hours_kept finish hd d :
  d ∈ hd -> value d == 0 ->
  keep d ∈ smoothedData (smoothAndPredictWith finish hd).
Proof.
  intros Hin Hz.
  destruct (smoothedData_unfold finish hd) as (g & -> & _ & Hkeep & _).
  rewrite <- (Hkeep d) by (apply Qltb_ge; lra).
  apply list_elem_of_fmap_2. rewrite sortedData_Permutation. exact Hin.
Qed.

(** The values emitted for the measured hours are the output of the filter
    on the measured values, hour by hour. *)
Lemma measured_hours_filtered finish hd :
  NoDup (map hour hd) ->
  (2 <= length (hoursWithData hd))%nat ->
  map s_value
      (JsArray.filterb (fun o => Qltb 0 (s_raw o))
                       (smoothedData (smoothAndPredictWith finish hd)))
  = smoothed (kalmanFilter (series hd) None).
Proof.
  intros Hnd Hlen.
  destruct (smoothedData_unfold finish hd) as (g & -> & Hraw & _ & Hval).
  specialize (Hval Hlen).
  rewrite filterb_map.
  rewrite (filterb_ext _ (fun d => Qltb 0 (value d)))
    by (intros d _; simpl; rewrite (proj1 (Hraw d)); reflexivity).
  fold (hoursWithData hd).
  pose proof (hoursWithData_NoDup hd Hnd) as HndH.
  pose proof (kalmanFilter_length (series hd)) as Hslen.
  rewrite series_length in Hslen.
  apply list_eq. intros i.
  rewrite !list_lookup_fmap.
  destruct (hoursWithData hd !! i) as [d|] eqn:Hi; simpl.
  - assert (is_Some (smoothed (kalmanFilter (series hd) None) !! i))
      as [v Hv].
    { apply lookup_lt_is_Some. rewrite Hslen.
      eapply lookup_lt_Some; eassumption. }
    rewrite Hv. f_equal.
    apply (Hval d i v).
    + apply hoursWithData_measured with hd.
      eapply list_elem_of_lookup_2; eassumption.
    + apply (findIndex_unique hour Nat.eqb); [|assumption..].
      intros a b. apply Nat.eqb_eq.
    + exact Hv.
  - symmetry. apply lookup_ge_None. rewrite Hslen.
    apply lookup_ge_None. exact Hi.
Qed.

(** C5. The filter is given the values of the measured hours (value > 0)
    only; an hour whose input value is 0 is emitted with exactly its input
    value, and the values emitted for the measured hours are the filter's
    output on the measured values.  For the input [40, 0, 0, 60] the filter
    runs over [40, 60] and the two zero hours stay 0. *)
Theorem smoother_gap_safety :
  (forall hd d,
      d ∈ hd -> value d == 0 ->
      keep d ∈ smoothedData (smoothAndPredictPedestrians hd))
  /\ (forall hd,
         NoDup (map hour hd) ->
         (2 <= length (hoursWithData hd))%nat ->
         map s_value
             (JsArray.filterb (fun o => Qltb 0 (s_raw o))
                (smoothedData (smoothAndPredictPedestrians hd)))
         = smoothed (kalmanFilter (series hd) None))
  /\ (let hd := [ {| hour := 0; value := 40 |}; {| hour := 1; value := 0 |};
                  {| hour := 2; value := 0 |}; {| hour := 3; value := 60 |} ] in
      series hd = [40; 60]
      /\ exists a b,
          smoothed (kalmanFilter [40; 60] None) = [a; b]
          /\ map s_value (smoothedData (smoothAndPredictPedestrians hd))
             = [a; 0; 0; b]).
Proof.
  split; [|split].
  - intros hd d. apply zero_hours_kept.
  - intros hd. apply measured_hours_filtered.
  - cbv zeta. split; [vm_compute; reflexivity|].
    eexists _, _. split; vm_compute; reflexivity.
Qed.

Lemma smoother_gap_safety_witness :
  let hd := [ {| hour := 5; value := 0 |}; {| hour := 4; value := 12 |} ] in
  keep {| hour := 5; value := 0 |}
  ∈ smoothedData (smoothAndPredictPedestrians hd).
Proof.
  cbv zeta. apply smoother_gap_safety.
  - apply list_elem_of_here.
  - reflexivity.
Defined.
End SmootherFacts.

Section ForecastFacts.
Import Kalman Smoother.
Local Open Scope Q_scope.

Lemma Math_max_comp a a' b b' :
  a == a' -> b == b' -> Math_max a b == Math_max a' b'.
Proof. intros Ha Hb. minmax. Qed.

Lemma Math_round_comp x y : x == y -> Math_round x = Math_round y.
Proof. intros H. unfold Math_round. rewrite H. reflexivity. Qed.

Lemma slice_last_app {A : Type} (pre tl : list A) :
  JsArray.slice_last (length tl) (pre ++ tl) = tl.
Proof.
  unfold JsArray.slice_last. rewrite length_app.
  replace (length pre + length tl - length tl)%nat with (length pre) by lia.
  apply drop_app_length.
Qed.

Lemma slice_last_map {A B : Type} (f : A -> B) n (l : list A) :
  map f (JsArray.slice_last n l) = JsArray.slice_last n (map f l).
Proof.
  unfold JsArray.slice_last. rewrite length_map. apply fmap_drop.
Qed.

(** With three measured hours or more, the forecast before its last
    adjustment is the blend of the filter's prediction and the trend. *)
Lemma blendedPrediction_blend hd pre a b c :
  series hd = pre ++ [a; b; c] ->
  blendedPrediction hd
  == ForecastContract.prediction
       (st_x (state (kalmanFilter (series hd) None))) a b c.
Proof.
  intros Hser. unfold blendedPrediction.
  assert (length (hoursWithData hd) = length pre + 3)%nat as Hlen.
  { rewrite <- series_length, Hser, length_app. reflexivity. }
  assert ((3 <=? length (hoursWithData hd))%nat = true) as ->
    by (apply Nat.leb_le; lia).
  rewrite slice_last_map. fold (series hd). rewrite Hser.
  change 3%nat with (length [a; b; c]).
  rewrite (slice_last_app pre [a; b; c]). cbn [rev app].
  rewrite kalmanFilter_predicted, <- Hser.
  unfold ForecastContract.prediction, ForecastContract.trend,
    ForecastContract.avgLast2, ForecastContract.avgPrev2.
  unfold Qdiv. ring.
Qed.

Lemma enough_hours_for_filter hd pre a b c :
  series hd = pre ++ [a; b; c] ->
  (length (hoursWithData hd) <? 2)%nat = false.
Proof.
  intros Hser. apply Nat.ltb_ge.
  rewrite <- series_length, Hser, length_app. simpl. lia.
Qed.

(** C3. When the series has three measured hours or more, the last three
    measured values being [a], [b], [c], the forecast of the score series is
    0.7 x + 0.3 (avg(last2) + trend) clamped to be at least 0, where [x] is
    the final estimate of the filter and trend = avg(last2) - avg(prev2);
    the forecast of the pedestrian series is the same blend rounded to an
    integer and clamped to be at least 0. *)
Theorem forecast_blend hd pre a b c :
  series hd = pre ++ [a; b; c] ->
  let x := st_x (state (kalmanFilter (series hd) None)) in
  let blend := ForecastContract.prediction x a b c in
  nextHourPrediction (smoothAndPredictScores hd) == Math_max 0 blend
  /\ nextHourPrediction (smoothAndPredictPedestrians hd)
     == Math_max 0 (inject_Z (Math_round blend))
  /\ 0 <= nextHourPrediction (smoothAndPredictScores hd)
  /\ 0 <= nextHourPrediction (smoothAndPredictPedestrians hd).
Proof.
  intros Hser x blend.
  pose proof (blendedPrediction_blend hd pre a b c Hser) as Hblend.
  fold x in Hblend. fold blend in Hblend.
  unfold smoothAndPredictScores, smoothAndPredictPedestrians,
    smoothAndPredictWith.
  rewrite (enough_hours_for_filter hd pre a b c Hser).
  cbn [nextHourPrediction].
  rewrite (Math_round_comp _ _ Hblend).
  split; [|split; [|split]].
  - apply Math_max_comp; [reflexivity | exact Hblend].
  - reflexivity.
  - apply Math_max_nonneg.
  - apply Math_max_nonneg.
Qed.

Lemma forecast_blend_witness :
  let hd := [ {| hour := 8; value := 10 |}; {| hour := 9; value := 20 |};
              {| hour := 10; value := 0 |}; {| hour := 11; value := 40 |} ] in
  nextHourPrediction (smoothAndPredictScores hd)
  == Math_max 0
       (ForecastContract.prediction
          (st_x (state (kalmanFilter (series hd) None))) 10 20 40).
Proof.
  cbv zeta.
  refine (proj1 (forecast_blend _ [] 10 20 40 _)).
  vm_compute. reflexivity.
Defined.
Lemma filterb_all {A : Type} (p : A -> bool) (l : list A) :
  (forall x, x ∈ l -> p x = true) -> JsArray.filterb p l = l.
Proof.
  induction l as [|x l IH]; intros H; simpl; [reflexivity|].
  rewrite (H x) by left. f_equal. apply IH.
  intros y Hy. apply H. right. exact Hy.
Qed.

(** The forecast of a constant positive score series of two hours or more
    is the constant. *)
Lemma constant_scores_forecast hd c :
  0 < c ->
  (2 <= length hd)%nat ->
  Forall (fun d => value d = c) hd ->
  nextHourPrediction (smoothAndPredictScores hd) == c.
Proof.
  intros Hc Hlen Hall.
  assert (Forall (fun d => value d = c) (sortedData hd)) as Hsorted.
  { rewrite Forall_forall in Hall |- *. intros d Hd.
    apply Hall. rewrite <- (sortedData_Permutation hd). exact Hd. }
  assert (hoursWithData hd = sortedData hd) as HH.
  { apply filterb_all. intros d Hd.
    rewrite Forall_forall in Hsorted. rewrite (Hsorted d Hd).
    apply Qltb_lt, Hc. }
  assert (length (hoursWithData hd) = length hd) as HlenH
    by (rewrite HH; apply sort_length).
  assert (Forall (fun z => z = c) (series hd)) as Hser.
  { unfold series. rewrite HH. apply Forall_fmap.
    eapply Forall_impl; [exact Hsorted|]. auto. }
  destruct (kalmanFilter_constant c (series hd)) as [_ Hpred].
  { intros Hnil. apply (f_equal length) in Hnil.
    rewrite series_length, HlenH in Hnil. simpl in Hnil. lia. }
  { eapply Forall_impl; [exact Hser|]. intros z ->. reflexivity. }
  unfold smoothAndPredictScores, smoothAndPredictWith.
  assert ((length (hoursWithData hd) <? 2)%nat = false) as ->
    by (apply Nat.ltb_ge; lia).
  cbn [nextHourPrediction]. unfold blendedPrediction.
  set (p := predicted (kalmanFilter (series hd) None)) in *.
  destruct (3 <=? length (hoursWithData hd))%nat eqn:E3; [|minmax].
  apply Nat.leb_le in E3.
  rewrite slice_last_map. fold (series hd).
  assert (Forall (fun z => z = c) (rev (JsArray.slice_last 3 (series hd))))
    as Hrecent.
  { apply Forall_rev. unfold JsArray.slice_last. apply Forall_drop, Hser. }
  assert (length (rev (JsArray.slice_last 3 (series hd))) = 3%nat) as Hlen3.
  { rewrite length_rev. unfold JsArray.slice_last.
    rewrite length_drop, series_length. lia. }
  destruct (rev (JsArray.slice_last 3 (series hd)))
    as [|v1 [|v2 [|v3 [|v4 tl]]]]; try discriminate Hlen3.
  apply Forall_cons in Hrecent as [-> Hrecent].
  apply Forall_cons in Hrecent as [-> Hrecent].
  apply Forall_cons in Hrecent as [-> _].
  minmax.
Qed.

(** The pedestrian series [50, 50, 50, 50]: smoothed values and forecast
    are 50. *)
Example constant_pedestrians_forecast :
  let hd := map (fun h => {| hour := h; value := 50 |}) (seq 0 4) in
  Forall (fun o => s_value o == 50)
         (smoothedData (smoothAndPredictPedestrians hd))
  /\ nextHourPrediction (smoothAndPredictPedestrians hd) == 50.
Proof.
  cbv zeta. split; [|vm_compute; reflexivity].
  repeat constructor; vm_compute; reflexivity.
Qed.
End ForecastFacts.

(** ** The busy-period segmenter *)

Section BusyPeriodFacts.
Import Aggregator BusyPeriods.
Local Open Scope Q_scope.

Lemma scanHour_inv hd i st d :
  hd !! i = Some d ->
  hour d = i ->
  scan_inv hd i st ->
  scan_inv hd (S i) (scanHour hd st d).
Proof.
  intros Hd Hh [Hbp Hcur]. destruct st as [bp cur]. simpl in Hbp, Hcur.
  assert (busyAt hd i = isBusy hd d) as Hbusy
    by (unfold busyAt; rewrite Hd; reflexivity).
  unfold scanHour. destruct (isBusy hd d) eqn:Eb.
  - destruct cur as [cp|].
    + destruct Hcur as (Hend & Hle & Hall & Hbefore).
      assert ((hour d <=? cur_end cp + 1)%nat = true) as ->
        by (apply Nat.leb_le; lia).
      split; [exact Hbp|]. simpl.
      split; [lia|]. split; [lia|]. split; [|exact Hbefore].
      intros h Hr. destruct (decide (h = i)) as [->|Hne]; [exact Hbusy|].
      apply Hall. lia.
    + split; [exact Hbp|]. simpl. rewrite Hh.
      split; [lia|]. split; [lia|]. split.
      * intros h Hr. replace h with i by lia. exact Hbusy.
      * destruct Hcur as [->|Hprev]; [left; reflexivity|].
        right. exact Hprev.
  - destruct cur as [cp|].
    + destruct Hcur as (Hend & Hle & Hrun).
      destruct (1 <=? cur_end cp - cur_start cp)%nat eqn:Elen.
      * split; simpl.
        -- apply Forall_app. split; [exact Hbp|].
           constructor; [|constructor].
           split; [apply Nat.leb_le, Elen|]. split; [exact Hrun|].
           simpl. rewrite Hend. exact Hbusy.
        -- right. rewrite Nat.sub_0_r. exact Hbusy.
      * split; [exact Hbp|]. simpl. right. rewrite Nat.sub_0_r. exact Hbusy.
    + split; [exact Hbp|]. simpl. right. rewrite Nat.sub_0_r. exact Hbusy.
Qed.

Lemma scan_fold_inv hd :
  map hour hd = seq 0 (length hd) ->
  forall l pre st,
    hd = pre ++ l ->
    scan_inv hd (length pre) st ->
    scan_inv hd (length hd) (fold_left (scanHour hd) l st).
Proof.
  intros Hhours. induction l as [|d l IH]; intros pre st Hsplit Hinv.
  - rewrite app_nil_r in Hsplit. subst pre. exact Hinv.
  - simpl. assert (hd !! length pre = Some d) as Hd.
    { rewrite Hsplit. apply list_lookup_middle. reflexivity. }
    assert (hour d = length pre) as Hh.
    { assert (map hour hd !! length pre = Some (hour d)) as Hm
        by (rewrite list_lookup_fmap, Hd; reflexivity).
      rewrite Hhours in Hm. apply lookup_seq in Hm. lia. }
    apply (IH (pre ++ [d])).
    + rewrite <- app_assoc. exact Hsplit.
    + rewrite length_app. simpl. rewrite Nat.add_1_r.
      apply scanHour_inv; assumption.
Qed.

(** Every closed run of a day whose buckets are in the order of their hours
    is a maximal run of qualifying hours that spans two hours or more. *)
Lemma closedPeriods_runs hd :
  map hour hd = seq 0 (length hd) ->
  Forall (closed_run hd) (closedPeriods hd).
Proof.
  intros Hhours. unfold closedPeriods.
  pose proof (scan_fold_inv hd Hhours hd [] ([], None) eq_refl) as Hinv.
  destruct (fold_left (scanHour hd) hd ([], None)) as [bp cur].
  destruct Hinv as [Hbp Hcur].
  { split; [constructor | left; reflexivity]. }
  simpl in Hbp, Hcur. destruct cur as [cp|]; [|exact Hbp].
  destruct (1 <=? cur_end cp - cur_start cp)%nat eqn:Elen; [|exact Hbp].
  destruct Hcur as (Hend & Hle & Hrun).
  apply Forall_app. split; [exact Hbp|].
  constructor; [|constructor].
  split; [apply Nat.leb_le, Elen|]. split; [exact Hrun|].
  simpl. unfold busyAt.
  rewrite lookup_ge_None_2 by lia. reflexivity.
Qed.

Lemma StronglySorted_weaken {A : Type} (R R' : A -> A -> Prop) l :
  (forall a b, R a b -> R' a b) ->
  StronglySorted R l -> StronglySorted R' l.
Proof.
  intros Hw. induction 1 as [|x l _ IH Hx]; constructor; [exact IH|].
  eapply Forall_impl; [exact Hx|]. intros y. apply Hw.
Qed.

(** The ranking is by average score, highest first. *)
Lemma rankedPeriods_sorted hd :
  StronglySorted (fun p q => avgScore q <= avgScore p) (rankedPeriods hd).
Proof.
  apply (StronglySorted_weaken (fun p q => - avgScore p <= - avgScore q)).
  { intros p q H. lra. }
  apply sort_sorted. intros p q. split; intros H; lra.
Qed.

(** The buckets of a run are the hours 0 to 23, in this order. *)
Lemma hourlyData_hours (inp : Inputs) : map hour (hourlyData inp) = seq 0 24.
Proof.
  unfold hourlyData. apply list_eq. intros i.
  rewrite !list_lookup_fmap.
  destruct (seq 0 24 !! i) as [h|]; [|reflexivity].
  simpl. f_equal. unfold hourlyPoint, bucket.
  destruct (hourSignals inp h) as [[audio lux] n]. reflexivity.
Qed.

(** Every busy period closed on the buckets of a run spans two hours or
    more. *)
Lemma run_periods_span (inp : Inputs) p :
  p ∈ closedPeriods (hourlyData inp) -> (1 <= end_ p - start p)%nat.
Proof.
  intros Hp.
  assert (map hour (hourlyData inp) = seq 0 (length (hourlyData inp)))
    as Hhours.
  { rewrite hourlyData_hours. unfold hourlyData.
    rewrite length_map, length_seq. reflexivity. }
  pose proof (closedPeriods_runs _ Hhours) as Hruns.
  rewrite Forall_forall in Hruns. apply (Hruns p Hp).
Qed.

(** The isolated qualifying hour 07:00 of the sample day is not a run: the
    only closed run is 02:00 to 04:00. *)
Example day_with_gap_periods :
  map (fun p => (start p, end_ p)) (closedPeriods Samples.day_with_gap)
  = [(2, 4)%nat].
Proof. vm_compute. reflexivity. Qed.
End BusyPeriodFacts.

(** ** The temporal clusterer *)

Section KMeansFacts.
Import KMeans.
Local Open Scope Q_scope.

(** A loop whose body returns, and keeps an invariant about the elements
    visited so far, returns and establishes the invariant for them all. *)
Lemma foldM_returns {A S : Type} (f : S -> A -> Outcome S)
    (I : list A -> S -> Prop) (P : A -> Prop) l :
  (forall pre s a,
      I pre s -> P a -> exists s', f s a = Returned s' /\ I (pre ++ [a]) s') ->
  Forall P l ->
  forall pre s,
    I pre s -> exists s', foldM f s l = Returned s' /\ I (pre ++ l) s'.
Proof.
  intros Hstep. induction 1 as [|a l Ha _ IH]; intros pre s Hs; simpl.
  - exists s. rewrite app_nil_r. split; [reflexivity | exact Hs].
  - destruct (Hstep pre s a Hs Ha) as (s' & -> & Hs'). simpl.
    destruct (IH (pre ++ [a]) s' Hs') as (s'' & Hfold & Hs'').
    exists s''. rewrite <- app_assoc in Hs''. split; assumption.
Qed.

Lemma bind_returned {A B : Type} (a : A) (f : A -> Outcome B) :
  Returned a ≫= f = f a.
Proof. reflexivity. Qed.

Lemma features_length d : length (features d) = 4%nat.
Proof. reflexivity. Qed.

(** [euclideanDistance] returns on vectors of the same length. *)
Lemma euclideanDistance_returns a b :
  length a = length b -> exists d, euclideanDistance a b = Returned d.
Proof.
  intros Hlen. unfold euclideanDistance.
  rewrite Hlen, Nat.eqb_refl. simpl. eexists. reflexivity.
Qed.

(** [euclideanDistance] throws on vectors of different lengths. *)
Lemma euclideanDistance_throws a b :
  length a <> length b ->
  euclideanDistance a b = Thrown "Vectors must have same length".
Proof.
  intros Hlen. unfold euclideanDistance.
  apply Nat.eqb_neq in Hlen. rewrite Hlen. reflexivity.
Qed.

(** The nearest centroid of a 4-vector among 4-vectors is found, and is one
    of them when there is one. *)
Lemma nearestCluster_returns f centroids :
  length f = 4%nat ->
  Forall (fun c => length c = 4%nat) centroids ->
  exists n, nearestCluster f centroids = Returned n
            /\ (n = 0%nat \/ n < length centroids)%nat.
Proof.
  intros Hf Hcs. unfold nearestCluster.
  destruct (foldM_returns
              (fun '(minDist, nearestCluster) '(cIdx, centroid) =>
                 dist ← euclideanDistance f centroid;
                 Returned (if dist_ltb dist minDist then (dist, cIdx)
                           else (minDist, nearestCluster)))
              (fun _ s => s.2 = 0%nat \/ s.2 < length centroids)%nat
              (fun a => a.1 < length centroids /\ length a.2 = 4)%nat
              (imap (fun cIdx centroid => (cIdx, centroid)) centroids))
    with (pre := @nil (nat * list Q)) (s := (Infinity, 0%nat))
    as (best & Hfold & Hbest).
  - intros _ [minDist n] [cIdx c] Hn [Hidx Hc]. simpl in *.
    destruct (euclideanDistance_returns f c) as (d & ->); [congruence|].
    simpl. eexists. split; [reflexivity|].
    destruct (dist_ltb d minDist); simpl; [right; exact Hidx | exact Hn].
  - apply Forall_forall. intros [cIdx c] Hin.
    apply elem_of_lookup_imap in Hin as (i & c' & Heq & Hi).
    injection Heq as -> ->. simpl. split.
    + eapply lookup_lt_Some; eassumption.
    + rewrite Forall_forall in Hcs. apply Hcs.
      eapply list_elem_of_lookup_2; eassumption.
  - left. reflexivity.
  - rewrite Hfold. simpl. exists best.2. split; [reflexivity | exact Hbest].
Qed.

Lemma concat_push (clusters : list (list nat)) n members h :
  clusters !! n = Some members ->
  concat (<[n := members ++ [h]]> clusters) ≡ₚ concat clusters ++ [h].
Proof.
  revert n. induction clusters as [|c cs IH]; intros n Hn.
  - rewrite lookup_nil in Hn. discriminate.
  - destruct n as [|n]; simpl in *.
    + injection Hn as ->. rewrite <- !app_assoc.
      apply Permutation_app_head, Permutation_app_comm.
    + rewrite (IH n Hn), app_assoc. reflexivity.
Qed.

Lemma concat_replicate_nil {A : Type} k : concat (replicate k (@nil A)) = [].
Proof. induction k as [|k IH]; [reflexivity | exact IH]. Qed.

(** The assignment step returns [k] clusters that hold every valid hour
    once. *)
Lemma assignHours_returns k vd centroids :
  (1 <= k)%nat ->
  length centroids = k ->
  Forall (fun c => length c = 4%nat) centroids ->
  exists clusters,
    assignHours k vd centroids = Returned clusters
    /\ length clusters = k
    /\ concat clusters ≡ₚ map hour vd.
Proof.
  intros Hk Hlen Hcs. unfold assignHours.
  destruct (foldM_returns
              (fun clusters data =>
                 nearest ← nearestCluster (features data) centroids;
                 match clusters !! nearest with
                 | Some members =>
                     Returned (<[nearest := members ++ [hour data]]> clusters)
                 | None =>
                     Thrown "TypeError: clusters[nearestCluster] is undefined"
                 end)
              (fun pre clusters =>
                 length clusters = k /\ concat clusters ≡ₚ map hour pre)
              (fun _ => True) vd)
    with (pre := @nil HourRow) (s := replicate k (@nil nat))
    as (clusters & Hfold & Hclusters).
  - intros pre clusters data [Hcl Hperm] _.
    destruct (nearestCluster_returns (features data) centroids
                (features_length data) Hcs) as (n & -> & Hn).
    simpl.
    assert (n < length clusters)%nat as Hlt by lia.
    apply lookup_lt_is_Some in Hlt as [members Hm]. rewrite Hm.
    eexists. split; [reflexivity|]. split.
    + rewrite length_insert. exact Hcl.
    + rewrite (concat_push clusters n members _ Hm), Hperm.
      rewrite fmap_app. reflexivity.
  - apply Forall_forall. intros; exact I.
  - split; [apply length_replicate|].
    rewrite concat_replicate_nil. reflexivity.
  - exists clusters. split; [exact Hfold | exact Hclusters].
Qed.
(** The update step returns as many centroids as it was given, 4-vectors
    again. *)
Lemma updateCentroids_returns vd clusters centroids :
  length clusters = length centroids ->
  Forall (fun c => length c = 4%nat) centroids ->
  exists centroids' changed,
    updateCentroids vd clusters centroids = Returned (centroids', changed)
    /\ length centroids' = length centroids
    /\ Forall (fun c => length c = 4%nat) centroids'.
Proof.
  intros Hlen Hcs. unfold updateCentroids.
  match goal with
  | |- context [foldM ?f ?s0 ?l] =>
      destruct (foldM_returns f
                  (fun _ s => length s.1 = length centroids
                              /\ Forall (fun c => length c = 4%nat) s.1)
                  (fun cIdx => cIdx < length centroids)%nat l)
        with (pre := @nil nat) (s := s0)
        as ([centroids' changed] & Hfold & Hlen' & Hcs')
  end.
  - intros _ [cs ch] cIdx [Hl Hall] Hidx. simpl in *.
    destruct (cs !! cIdx) as [centroid|] eqn:Hc;
      [|eexists; split; [reflexivity | split; assumption]].
    assert (cIdx < length clusters)%nat as Hlt by lia.
    apply lookup_lt_is_Some in Hlt as [hours Hh]. rewrite Hh.
    destruct (length hours =? 0)%nat;
      [eexists; split; [reflexivity | split; assumption]|].
    destruct (0 <? length _)%nat;
      [|eexists; split; [reflexivity | split; assumption]].
    assert (length centroid = 4%nat) as Hc4.
    { rewrite Forall_forall in Hall. apply Hall.
      eapply list_elem_of_lookup_2; eassumption. }
    destruct (euclideanDistance_returns centroid (meanPoint
                (omap (fun h => features <$>
                         JsArray.find (fun d => (hour d =? h)%nat) vd) hours)))
      as (d & ->); [rewrite Hc4; reflexivity|].
    simpl. eexists. split; [reflexivity|]. simpl. split.
    + rewrite length_insert. exact Hl.
    + apply Forall_insert; [exact Hall | reflexivity].
  - apply Forall_forall. intros i Hi. apply elem_of_seq in Hi. lia.
  - split; [reflexivity | exact Hcs].
  - exists centroids', changed. split; [exact Hfold|]. split; assumption.
Qed.

(** The loop returns; its centroids are [k] 4-vectors, and its clusters are
    those of an assignment step as soon as it runs once. *)
Lemma iterate_returns k vd :
  (1 <= k)%nat ->
  forall remaining centroids clusters changed,
    length centroids = k ->
    Forall (fun c => length c = 4%nat) centroids ->
    (length clusters = k /\ concat clusters ≡ₚ map hour vd)
    \/ (changed = true /\ (0 < remaining)%nat) ->
    exists clusters' centroids',
      iterate remaining k vd centroids clusters changed
      = Returned (clusters', centroids')
      /\ length centroids' = k
      /\ Forall (fun c => length c = 4%nat) centroids'
      /\ length clusters' = k
      /\ concat clusters' ≡ₚ map hour vd.
Proof.
  intros Hk.
  induction remaining as [|remaining IH];
    intros centroids clusters changed Hlen Hcs Hcl; simpl.
  - destruct Hcl as [[Hl Hp]|[_ Hr]]; [|lia].
    exists clusters, centroids. repeat split; assumption.
  - destruct changed.
    + destruct (assignHours_returns k vd centroids Hk Hlen Hcs)
        as (clusters1 & -> & Hl1 & Hp1).
      simpl.
      destruct (updateCentroids_returns vd clusters1 centroids)
        as (centroids1 & changed1 & -> & Hlen1 & Hcs1);
        [congruence | exact Hcs|].
      simpl. apply IH; [congruence | exact Hcs1|].
      left. split; assumption.
    + destruct Hcl as [[Hl Hp]|[Habs _]]; [|discriminate].
      exists clusters, centroids. repeat split; assumption.
Qed.

(** A random number in [0, 1) gives an index of the array. *)
Lemma randomIndex_range n r :
  (0 < n)%nat -> 0 <= r < 1 ->
  (0 <= randomIndex n r < Z.of_nat n)%Z.
Proof.
  intros Hn [Hr0 Hr1]. unfold randomIndex, Math_floor, of_nat.
  assert (0 < inject_Z (Z.of_nat n)) as Hpos.
  { change 0 with (inject_Z 0). rewrite <- Zlt_Qlt. lia. }
  split.
  - change 0%Z with (Qfloor (inject_Z 0)). apply Qfloor_resp_le.
    change (inject_Z 0) with 0. apply Qmult_le_0_compat; lra.
  - rewrite Zlt_Qlt.
    eapply Qle_lt_trans; [apply Qfloor_le|]. nra.
Qed.

Lemma at_index_in_range {A : Type} (l : list A) i :
  (0 <= i < Z.of_nat (length l))%Z -> is_Some (at_index l i).
Proof.
  intros Hi. unfold at_index.
  assert ((i <? 0)%Z = false) as -> by (apply Z.ltb_ge; lia).
  apply lookup_lt_is_Some. lia.
Qed.

(** What the drawing loop returns: an unused index drawn from the random
    numbers, and the random numbers it has not consumed. *)
Lemma drawUnused_some n used draws idx rest :
  drawUnused n used draws = Some (idx, rest) ->
  (idx ∉ used)
  /\ (exists r, r ∈ draws /\ idx = randomIndex n r)
  /\ (forall r, r ∈ rest -> r ∈ draws)
  /\ (list_to_set (randomIndex n <$> draws) ∖ used : gset Z)
     ⊆ {[idx]} ∪ (list_to_set (randomIndex n <$> rest) ∖ ({[idx]} ∪ used)).
Proof.
  induction draws as [|r draws IH]; simpl; [discriminate|].
  destruct (decide (randomIndex n r ∈ used)) as [Hused|Hfresh].
  - intros H. destruct (IH H) as (Hidx & (r' & Hr' & Heq) & Hrest & Hsub).
    split; [exact Hidx|]. split; [exists r'; split; [right|]; assumption|].
    split; [intros r0 Hr0; right; apply Hrest, Hr0|].
    intros x Hx. apply Hsub.
    apply elem_of_difference in Hx as [Hx Hxu].
    apply elem_of_difference. split; [|exact Hxu].
    apply elem_of_union in Hx as [Hx|Hx]; [|exact Hx].
    apply elem_of_singleton in Hx. subst x. contradiction.
  - intros H. injection H as <- <-.
    split; [exact Hfresh|]. split; [exists r; split; [left | reflexivity]|].
    split; [intros r0 Hr0; right; exact Hr0|].
    intros x Hx. destruct (decide (x = randomIndex n r)) as [->|Hne].
    + apply elem_of_union_l, elem_of_singleton. reflexivity.
    + apply elem_of_union_r.
      apply elem_of_difference in Hx as [Hx Hxu].
        apply elem_of_union in Hx as [Hx|Hx];
        [apply elem_of_singleton in Hx; contradiction|].
      apply elem_of_difference. split; [exact Hx|].
      intros [Hn|Hn]%elem_of_union; [|contradiction].
      apply elem_of_singleton in Hn. contradiction.
Qed.

(** The drawing loop runs out of random numbers only when every index they
    give is used. *)
Lemma drawUnused_none n used draws :
  drawUnused n used draws = None ->
  (list_to_set (randomIndex n <$> draws) ∖ used : gset Z) = ∅.
Proof.
  induction draws as [|r draws IH]; simpl.
  - intros _. apply leibniz_equiv. intros x.
    split; [|intros []%not_elem_of_empty].
    intros [Hx _]%elem_of_difference. exact Hx.
  - destruct (decide (randomIndex n r ∈ used)) as [Hused|Hfresh];
      [|discriminate].
    intros H. specialize (IH H).
    apply leibniz_equiv. intros x. split; [|intros []%not_elem_of_empty].
    intros Hx. rewrite <- IH.
    apply elem_of_difference in Hx as [Hx Hxu].
    apply elem_of_difference. split; [|exact Hxu].
    apply elem_of_union in Hx as [Hx|Hx]; [|exact Hx].
    apply elem_of_singleton in Hx. subst x. contradiction.
Qed.

Lemma size_at_most_one_more (D D' : gset Z) (x : Z) :
  D ⊆ {[x]} ∪ D' -> (size D <= S (size D'))%nat.
Proof.
  intros Hsub. apply subseteq_size in Hsub.
  rewrite (size_union_alt (C := gset Z)), size_singleton in Hsub.
  assert (size (D' ∖ {[x]}) <= size D')%nat as Hle
    by (apply subseteq_size, subseteq_difference_l; reflexivity).
  lia.
Qed.

(** The initialisation does not throw on random numbers in [0, 1): it
    returns [k] centroids, 4-vectors, when the random numbers give [k]
    unused indices or more, and is still drawing otherwise. *)
Lemma initCentroids_outcome vd :
  (0 < length vd)%nat ->
  forall k used draws,
    Forall (fun r => 0 <= r < 1) draws ->
    (initCentroids k vd used draws = StillDrawing
     /\ (size (list_to_set (randomIndex (length vd) <$> draws) ∖ used
              : gset Z) < k)%nat)
    \/ (exists centroids,
          initCentroids k vd used draws = Returned centroids
          /\ length centroids = k
          /\ Forall (fun c => length c = 4%nat) centroids).
Proof.
  intros Hvd. induction k as [|k IH]; intros used draws Hdraws; simpl.
  - right. exists []. repeat split. constructor.
  - destruct (drawUnused (length vd) used draws) as [[idx rest]|] eqn:Hdraw.
    + destruct (drawUnused_some _ _ _ _ _ Hdraw)
        as (Hidx & (r & Hr & ->) & Hrest & Hsub).
      rewrite Forall_forall in Hdraws.
      destruct (at_index_in_range vd (randomIndex (length vd) r))
        as [randomHour ->].
      { apply randomIndex_range; [exact Hvd | apply Hdraws, Hr]. }
      destruct (IH ({[randomIndex (length vd) r]} ∪ used) rest)
        as [[-> Hsize]|(centroids & -> & Hlen & Hcs)].
      { apply Forall_forall. intros r0 Hr0. apply Hdraws, Hrest, Hr0. }
      * left. split; [reflexivity|].
        apply size_at_most_one_more in Hsub. lia.
      * right. simpl. eexists. split; [reflexivity|]. split.
        -- simpl. rewrite Hlen. reflexivity.
        -- constructor; [reflexivity | exact Hcs].
    + left. split; [reflexivity|].
      rewrite (drawUnused_none _ _ _ Hdraw), size_empty. lia.
Qed.
Lemma concat_sorted_hours (clusters : list (list nat)) :
  concat (JsArray.sort JsArray.by_number <$> clusters) ≡ₚ concat clusters.
Proof.
  induction clusters as [|c cs IH]; simpl; [reflexivity|].
  rewrite IH, sort_Permutation. reflexivity.
Qed.

Lemma concat_Permutation {A : Type} (l l' : list (list A)) :
  l ≡ₚ l' -> concat l ≡ₚ concat l'.
Proof.
  induction 1 as [|x l l' _ IH|x y l|l l' l'' _ IH1 _ IH2]; simpl.
  - reflexivity.
  - rewrite IH. reflexivity.
  - rewrite !app_assoc, (Permutation_app_comm y x). reflexivity.
  - etransitivity; eassumption.
Qed.

(** With fewer valid hours than clusters to form, the clusterer returns
    before it draws a random number. *)
Lemma insufficient_data hd k draws :
  (length (validData hd) < k)%nat ->
  kMeansClustering hd k draws = Returned [].
Proof.
  intros Hfew. unfold kMeansClustering.
  destruct (length hd =? 0)%nat; [reflexivity|].
  apply Nat.ltb_lt in Hfew. rewrite Hfew. reflexivity.
Qed.

(** C8. When fewer hours are valid than there are clusters to form (fewer
    than k = 3, two valid hours for instance), the clusterer returns the
    empty list: it does not throw, it is not left drawing random numbers,
    and it returns no smaller set of clusters. *)
Theorem too_few_valid_hours hd k draws :
  (length (validData hd) < k)%nat ->
  kMeansClustering hd k draws = Returned []
  /\ (forall msg, kMeansClustering hd k draws <> Thrown msg)
  /\ kMeansClustering hd k draws <> StillDrawing.
Proof.
  intros Hfew. rewrite (insufficient_data hd k draws Hfew).
  split; [reflexivity|]. split; [intros msg|]; discriminate.
Qed.

Lemma too_few_valid_hours_witness :
  length (validData (take 2 Samples.sample_rows)) = 2%nat
  /\ kMeansClustering (take 2 Samples.sample_rows) 3 Samples.sample_draws
     = Returned [].
Proof.
  split; [reflexivity|].
  apply too_few_valid_hours. vm_compute. lia.
Defined.

(** The clusterer from its initial centroids on: the loop and the ranking. *)
Lemma clusters_from_centroids k vd centroids :
  (1 <= k)%nat ->
  length centroids = k ->
  Forall (fun c => length c = 4%nat) centroids ->
  exists clusters centroids',
    iterate maxIterations k vd centroids [] true
    = Returned (clusters, centroids')
    /\ length centroids' = k
    /\ Forall (fun c => length c = 4%nat) centroids'
    /\ length clusters = k
    /\ concat clusters ≡ₚ map hour vd.
Proof.
  intros Hk Hlen Hcs.
  apply iterate_returns; [exact Hk | exact Hlen | exact Hcs|].
  right. split; [reflexivity | unfold maxIterations; lia].
Qed.

Lemma result_hours (centroids : list (list Q)) (clusters : list (list nat)) :
  hours <$>
    imap (fun cIdx hours =>
            {| clusterId := cIdx;
               label := EmptyString;
               hours := JsArray.sort JsArray.by_number hours;
               centroid := default [] (centroids !! cIdx) |}) clusters
  = JsArray.sort JsArray.by_number <$> clusters.
Proof.
  apply list_eq. intros i.
  rewrite !list_lookup_fmap, list_lookup_imap.
  destruct (clusters !! i); reflexivity.
Qed.

(** The clusterer returns, or is still drawing; what it returns are as many
    clusters as asked for, which hold every valid hour once, whose centroids
    are 4-vectors, in ascending order of the score coordinate of their
    centroids, labelled by rank. *)
Lemma kMeansClustering_outcome hd k draws :
  (1 <= k <= length (validData hd))%nat ->
  Forall (fun r => 0 <= r < 1) draws ->
  (kMeansClustering hd k draws = StillDrawing
   /\ (size (list_to_set (randomIndex (length (validData hd)) <$> draws)
            : gset Z) < k)%nat)
  \/ (exists sorted,
        kMeansClustering hd k draws
        = Returned
            (imap (fun idx cluster =>
                     {| clusterId := clusterId cluster;
                        label := labelOf idx;
                        hours := hours cluster;
                        centroid := centroid cluster |}) sorted)
        /\ length sorted = k
        /\ Forall (fun c => length (centroid c) = 4%nat) sorted
        /\ StronglySorted
             (fun a b => coord 3 (centroid a) <= coord 3 (centroid b)) sorted
        /\ concat (hours <$> sorted) ≡ₚ map hour (validData hd)).
Proof.
  intros [Hk Hvalid] Hdraws. unfold kMeansClustering.
  assert ((length hd =? 0)%nat = false) as ->.
  { apply Nat.eqb_neq. intros Hz.
    apply length_zero_iff_nil in Hz. subst hd. simpl in Hvalid. lia. }
  fold (validData hd).
  assert ((length (validData hd) <? k)%nat = false) as ->
    by (apply Nat.ltb_ge; exact Hvalid).
  destruct (initCentroids_outcome (validData hd) ltac:(lia) k ∅ draws Hdraws)
    as [[-> Hsize]|(centroids & -> & Hlen & Hcs)].
  - left. split; [reflexivity|].
    rewrite difference_empty_L in Hsize. exact Hsize.
  - right.
    destruct (clusters_from_centroids k (validData hd) centroids Hk Hlen Hcs)
      as (clusters & centroids' & Hiter & Hlen' & Hcs' & Hcl & Hperm).
    rewrite bind_returned, Hiter, bind_returned.
    eexists. split; [reflexivity|].
    split; [rewrite sort_length, length_imap; exact Hcl|].
    split; [|split].
    + apply Forall_forall. intros c Hc.
      apply sort_elem_of in Hc.
      apply elem_of_lookup_imap in Hc as (i & h & -> & Hi). simpl.
      assert (i < length centroids')%nat as Hlt.
      { rewrite Hlen', <- Hcl. eapply lookup_lt_Some; eassumption. }
      apply lookup_lt_is_Some in Hlt as [c Hc]. rewrite Hc. simpl.
      rewrite Forall_forall in Hcs'. apply Hcs'.
      eapply list_elem_of_lookup_2; eassumption.
    + apply sort_sorted. intros a b. split; intros H; lra.
    + rewrite <- Hperm, <- (concat_sorted_hours clusters).
      apply concat_Permutation.
      rewrite (fmap_Permutation hours _ _ (sort_Permutation _ _)).
      rewrite result_hours. reflexivity.
Qed.

(** C9. On random numbers in [0, 1) and for one cluster or more, the
    clusterer does not throw: the length test of [euclideanDistance], which
    throws exactly on vectors of different lengths, always passes, for every
    feature vector and every centroid has 4 components, and so has the
    centroid of every cluster returned. *)
Theorem kMeans_never_throws hd k draws :
  (1 <= k)%nat ->
  Forall (fun r => 0 <= r < 1) draws ->
  (forall msg, kMeansClustering hd k draws <> Thrown msg)
  /\ (forall results,
         kMeansClustering hd k draws = Returned results ->
         Forall (fun c => length (centroid c) = 4%nat) results)
  /\ (forall d, length (features d) = 4%nat)
  /\ (forall a b,
         length a = length b <-> exists d, euclideanDistance a b = Returned d).
Proof.
  intros Hk Hdraws.
  assert (forall a b,
             length a = length b <-> exists d, euclideanDistance a b = Returned d)
    as Hdist.
  { intros a b. split; [apply euclideanDistance_returns|].
    intros [d Hd]. destruct (decide (length a = length b)) as [|Hne]; [auto|].
    rewrite (euclideanDistance_throws a b Hne) in Hd. discriminate. }
  destruct (decide (length (validData hd) < k)%nat) as [Hfew|Henough].
  - rewrite (insufficient_data hd k draws Hfew).
    split; [intros msg; discriminate|].
    split; [intros results [= <-]; constructor|].
    split; [reflexivity | exact Hdist].
  - destruct (kMeansClustering_outcome hd k draws ltac:(lia) Hdraws)
      as [[-> _]|(sorted & -> & _ & Hlen4 & _)].
    + split; [intros msg; discriminate|].
      split; [intros results; discriminate|].
      split; [reflexivity | exact Hdist].
    + split; [intros msg; discriminate|].
      split; [|split; [reflexivity | exact Hdist]].
      intros results [= <-].
      apply Forall_forall. intros c Hc.
      apply elem_of_lookup_imap in Hc as (i & c' & -> & Hi). simpl.
      rewrite Forall_forall in Hlen4. apply Hlen4.
      eapply list_elem_of_lookup_2; eassumption.
Qed.

Lemma kMeans_never_throws_witness :
  kMeansClustering Samples.sample_rows 3 Samples.sample_draws
  <> Thrown "Vectors must have same length".
Proof.
  apply kMeans_never_throws; [lia|].
  repeat constructor; vm_compute; discriminate.
Defined.
Lemma validData_NoDup hd :
  NoDup (map hour hd) -> NoDup (map hour (validData hd)).
Proof.
  intros Hnd.
  assert (map hour (validData hd) `sublist_of` map hour hd) as Hsub
    by (apply (fmap_sublist hour), filterb_sublist).
  exact (sublist_NoDup _ _ Hnd Hsub).
Qed.

(** C7. With k = 3, three valid hours or more, and random numbers in [0, 1)
    that give three distinct indices (so that the random initialisation
    ends), the clusterer returns exactly three clusters, labelled quiet,
    moderate and busy in this order, with
    quiet.centroidScore <= moderate.centroidScore <= busy.centroidScore;
    their member lists together hold every valid hour exactly once, so that
    when the hours of the input are distinct the member sets are disjoint
    and their union is the set of valid hours. *)
Theorem three_ranked_clusters hd draws :
  (3 <= length (validData hd))%nat ->
  Forall (fun r => 0 <= r < 1) draws ->
  (3 <= size (list_to_set (randomIndex (length (validData hd)) <$> draws)
           : gset Z))%nat ->
  exists quiet moderate busy,
    kMeansClustering hd 3 draws = Returned [quiet; moderate; busy]
    /\ label quiet = "quiet"
    /\ label moderate = "moderate"
    /\ label busy = "busy"
    /\ coord 3 (centroid quiet) <= coord 3 (centroid moderate)
    /\ coord 3 (centroid moderate) <= coord 3 (centroid busy)
    /\ hours quiet ++ hours moderate ++ hours busy
       ≡ₚ map hour (validData hd)
    /\ (NoDup (map hour hd) ->
        NoDup (hours quiet ++ hours moderate ++ hours busy)).
Proof.
  intros Hvalid Hdraws Hdistinct.
  destruct (kMeansClustering_outcome hd 3 draws ltac:(lia) Hdraws)
    as [[_ Hsize]|(sorted & -> & Hlen & _ & Hsorted & Hperm)]; [lia|].
  destruct sorted as [|s0 [|s1 [|s2 [|s3 sorted]]]]; try discriminate Hlen.
  apply StronglySorted_inv in Hsorted as [Hsorted H0].
  apply StronglySorted_inv in Hsorted as [_ H1].
  apply Forall_cons in H0 as [H01 _].
  apply Forall_cons in H1 as [H12 _].
  simpl in Hperm. rewrite app_nil_r in Hperm.
  eexists _, _, _. split; [reflexivity|]. simpl.
  repeat (split; [first [reflexivity | assumption]|]).
  intros Hnd. rewrite Hperm. apply validData_NoDup, Hnd.
Qed.

Lemma three_ranked_clusters_witness :
  exists quiet moderate busy,
    kMeansClustering Samples.sample_rows 3 Samples.sample_draws
    = Returned [quiet; moderate; busy]
    /\ coord 3 (centroid quiet) <= coord 3 (centroid moderate)
    /\ coord 3 (centroid moderate) <= coord 3 (centroid busy).
Proof.
  destruct (three_ranked_clusters Samples.sample_rows Samples.sample_draws)
    as (q & m & b & Hret & _ & _ & _ & Hqm & Hmb & _).
  - vm_compute. lia.
  - repeat constructor; vm_compute; discriminate.
  - vm_compute. lia.
  - exists q, m, b. split; [exact Hret|]. split; assumption.
Defined.

(** The clusters of the sample hours. *)
Example sample_clusters :
  (fun c => (label c, hours c))
    <$> match kMeansClustering Samples.sample_rows 3 Samples.sample_draws with
        | Returned cs => cs
        | _ => []
        end
  = [("quiet", [0%nat]); ("moderate", [1%nat; 4%nat]); ("busy", [2%nat])].
Proof. vm_compute. reflexivity. Qed.
End KMeansFacts.

(** * Part III: further properties of the code *)

(** ** The footfall estimator and the score *)

Section EstimatorFacts.
Import Fusion Aggregator.
Local Open Scope Q_scope.

Lemma Math_round_mono x y :
  x <= y -> inject_Z (Math_round x) <= inject_Z (Math_round y).
Proof.
  intros H. unfold Math_round. rewrite <- Zle_Qle.
  apply Qfloor_resp_le. lra.
Qed.

(** The audio level normalised to [0, 1]. *)
Lemma audioNormalized_range audio :
  0 <= Math_max 0 (Math_min 1 ((Math_max (-70) (Math_min (-20) audio) + 70)
                               / 50)) <= 1.
Proof. minmax. Qed.

Lemma audioNormalized_mono audio audio' :
  audio <= audio' ->
  Math_max 0 (Math_min 1 ((Math_max (-70) (Math_min (-20) audio) + 70) / 50))
  <= Math_max 0 (Math_min 1 ((Math_max (-70) (Math_min (-20) audio') + 70)
                             / 50)).
Proof. intros H. minmax. Qed.

(** The estimate before rounding. *)
Lemma estimate_unrounded audio light n :
  exists p,
    estimatePedestriansFromSensors audio light n
    = inject_Z (Math_round (Math_min p 100))
    /\ 0 <= p <= 100
    /\ ((n < 10)%nat -> p <= 50)
    /\ (audio <= -70 -> p == 0).
Proof.
  unfold estimatePedestriansFromSensors.
  pose proof (audioNormalized_range audio) as Ha.
  assert (audio <= -70 ->
          Math_max 0 (Math_min 1 ((Math_max (-70) (Math_min (-20) audio) + 70)
                                  / 50)) == 0) as Hquiet
    by (intros Hq; minmax).
  set (a := Math_max 0 (Math_min 1 _)) in *. clearbody a.
  assert (exists f, 0 <= f <= 1
                    /\ match light with
                       | Some l =>
                           if Qltb 0 l
                           then a * 100 * (0.7 + 0.3 * Math_min 1 (l / 500))
                           else a * 100
                       | None => a * 100
                       end == a * 100 * f) as (f & Hf & Hlight).
  { destruct light as [l|]; [|exists 1; split; [lra | ring]].
    destruct (Qltb 0 l) eqn:El; [|exists 1; split; [lra | ring]].
    apply Qltb_lt in El.
    exists (0.7 + 0.3 * Math_min 1 (l / 500)).
    split; [minmax | reflexivity]. }
  eexists. split; [reflexivity|].
  set (p := match light with Some _ => _ | None => _ end) in *. clearbody p.
  destruct (n <? 10)%nat eqn:En.
  - split; [nra|]. split; [intros _; nra|].
    intros Hq. specialize (Hquiet Hq). nra.
  - apply Nat.ltb_ge in En. split; [nra|]. split; [intros Hn; lia|].
    intros Hq. specialize (Hquiet Hq). nra.
Qed.

(** X1. The footfall estimate is a whole number between 0 and 100; it is at
    most 50 for an hour with fewer than ten samples, and it is 0 at -70 dB
    or below. *)
Theorem estimate_is_bounded_count audio light n :
  (exists z : Z,
      estimatePedestriansFromSensors audio light n = inject_Z z
      /\ (0 <= z <= 100)%Z)
  /\ ((n < 10)%nat -> estimatePedestriansFromSensors audio light n <= 50)
  /\ (audio <= -70 -> estimatePedestriansFromSensors audio light n == 0).
Proof.
  destruct (estimate_unrounded audio light n) as (p & -> & Hp & Hlow & Hquiet).
  split; [|split].
  - eexists. split; [reflexivity|].
    rewrite !Zle_Qle. apply (Math_round_range _ 0 100).
    change (inject_Z 0) with 0. change (inject_Z 100) with 100. minmax.
  - intros Hn. specialize (Hlow Hn).
    apply (Math_round_range _ 0 50).
    change (inject_Z 0) with 0. change (inject_Z 50) with 50. minmax.
  - intros Hq. specialize (Hquiet Hq).
    assert (0 <= inject_Z (Math_round (Math_min p 100)) <= 0); [|lra].
    apply (Math_round_range _ 0 0). change (inject_Z 0) with 0. minmax.
Qed.

Lemma estimate_is_bounded_count_witness :
  estimatePedestriansFromSensors (-30) (Some 800) 4 <= 50
  /\ estimatePedestriansFromSensors (-75) (Some 800) 40 == 0.
Proof.
  destruct (estimate_is_bounded_count (-30) (Some 800) 4) as (_ & Hlow & _).
  destruct (estimate_is_bounded_count (-75) (Some 800) 40) as (_ & _ & Hq).
  split; [apply Hlow; lia | apply Hq; lra].
Defined.

Lemma estimate_mono audio audio' light n :
  audio <= audio' ->
  estimatePedestriansFromSensors audio light n
  <= estimatePedestriansFromSensors audio' light n.
Proof.
  intros H. unfold estimatePedestriansFromSensors.
  pose proof (audioNormalized_range audio) as Ha.
  pose proof (audioNormalized_range audio') as Ha'.
  pose proof (audioNormalized_mono audio audio' H) as Hm.
  set (a := Math_max 0 (Math_min 1 _)) in *.
  set (a' := Math_max 0 (Math_min 1 _)) in *.
  clearbody a a'.
  apply Math_round_mono.
  assert (forall p q, p <= q -> Math_min p 100 <= Math_min q 100) as Hcap
    by (intros p q Hpq; minmax).
  apply Hcap.
  assert (forall p q, p <= q ->
            (if (n <? 10)%nat then p * 0.5 else p)
            <= (if (n <? 10)%nat then q * 0.5 else q)) as Hhalf
    by (intros p q Hpq; destruct (n <? 10)%nat; lra).
  apply Hhalf.
  destruct light as [l|]; [|lra].
  destruct (Qltb 0 l) eqn:El; [|lra].
  assert (0 <= Math_min 1 (l / 500) <= 1) as Hf
    by (apply Qltb_lt in El; minmax).
  set (f := Math_min 1 (l / 500)) in *. clearbody f. nra.
Qed.

Lemma score_mono h audio audio' footfall footfall' light :
  audio <= audio' -> footfall <= footfall' ->
  calculateScore h audio footfall light
  <= calculateScore h audio' footfall' light.
Proof.
  intros Ha Hf. unfold calculateScore.
  set (l := lightComponent light). clearbody l. minmax.
Qed.

(** X2. A louder hour never gets a lower footfall estimate, the light level
    and the number of samples being the same. *)
Theorem louder_means_no_fewer_pedestrians audio audio' light n :
  audio <= audio' ->
  estimatePedestriansFromSensors audio light n
  <= estimatePedestriansFromSensors audio' light n.
Proof. apply estimate_mono. Qed.

Lemma louder_means_no_fewer_pedestrians_witness :
  estimatePedestriansFromSensors (-60) (Some 300) 12
  <= estimatePedestriansFromSensors (-40) (Some 300) 12.
Proof.
  apply louder_means_no_fewer_pedestrians. lra.
Defined.

(** X3. The bucket of an hour that has samples never has fewer pedestrians
    nor a lower score when the hour is louder, the light level and the
    number of samples being the same. *)
Theorem louder_bucket_scores_no_lower
    sessions footfalls h audio audio' light n :
  (0 < n)%nat ->
  audio <= audio' ->
  let quiet := bucket sessions footfalls h (audio, light, n) in
  let loud := bucket sessions footfalls h (audio', light, n) in
  pedestrians quiet <= pedestrians loud /\ score quiet <= score loud.
Proof.
  intros Hn Ha. cbn [bucket pedestrians score].
  unfold footfallWithSource.
  assert ((0 <? n)%nat = true) as -> by (apply Nat.ltb_lt; exact Hn).
  cbn [snd]. pose proof (estimate_mono audio audio' light n Ha) as He.
  split; [apply Math_round_mono, He | apply score_mono; assumption].
Qed.

Lemma louder_bucket_scores_no_lower_witness :
  score (bucket [] ∅ 9 (-60, None, 12%nat))
  <= score (bucket [] ∅ 9 (-40, None, 12%nat)).
Proof.
  apply (louder_bucket_scores_no_lower [] ∅ 9 (-60) (-40) None 12);
    [lia | lra].
Defined.
End EstimatorFacts.

(** ** The manual recordings and the traffic estimate *)

Section SignalFacts.
Import Fusion Aggregator.
Local Open Scope Q_scope.

(** X4. [convertAudioToDb] returns a level between -80 and -30 dB that
    depends on the size of the recording only, not on its sign; it is -80
    below 0.0001, at most -40 up to 1, and -30 above 1. *)
Theorem convertAudioToDb_range recording :
  -80 <= convertAudioToDb recording <= -30
  /\ convertAudioToDb (- recording) == convertAudioToDb recording
  /\ (Qabs recording < 0.0001 -> convertAudioToDb recording == -80)
  /\ (Qabs recording <= 1 -> convertAudioToDb recording <= -40)
  /\ (1 < Qabs recording -> convertAudioToDb recording == -30).
Proof.
  unfold convertAudioToDb.
  pose proof (Qabs_nonneg recording) as Hpos.
  pose proof (Qabs_opp recording) as Hopp.
  set (a := Qabs recording) in *. set (b := Qabs (- recording)) in *.
  clearbody a b.
  split; [|split; [|split; [|split]]]; try intros H; minmax.
Qed.

Lemma convertAudioToDb_range_witness :
  convertAudioToDb 0.5 <= -40 /\ convertAudioToDb (-3) == -30.
Proof.
  destruct (convertAudioToDb_range 0.5) as (_ & _ & _ & Hmid & _).
  destruct (convertAudioToDb_range (-3)) as (_ & _ & _ & _ & Hloud).
  split; [apply Hmid | apply Hloud]; vm_compute;
    first [reflexivity | discriminate].
Defined.

Lemma clampedAudio_range audio :
  -70 <= Math_max (-70) (Math_min (-20) audio) <= -20.
Proof. minmax. Qed.

(** X5. The traffic estimate is 0 for an hour without samples and lies
    between 7 and 136 vehicles for an hour with samples, so that its cap of
    150 never applies. *)
Theorem estimateTraffic_range h audio n :
  (n = 0%nat -> estimateTraffic h audio n = 0)
  /\ ((0 < n)%nat -> 7 <= estimateTraffic h audio n <= 136).
Proof.
  unfold estimateTraffic. split.
  - intros ->. reflexivity.
  - intros Hn.
    assert ((0 <? n)%nat = true) as -> by (apply Nat.ltb_lt; exact Hn).
    pose proof (clampedAudio_range audio) as Hc.
    set (c := Math_max (-70) (Math_min (-20) audio)) in *. clearbody c.
    assert (10 <= (if Qltb (-45) c
                   then inject_Z (Math_round (50 + (c + 45) * 2.5))
                   else if Qltb (-55) c
                        then inject_Z (Math_round (30 + (c + 55) * 2))
                        else if Qltb (-65) c
                             then inject_Z (Math_round (15 + (c + 65) * 1.5))
                             else inject_Z (Math_round (10 + (c + 70) * 1)))
            <= 113) as Hbase.
    { change 10 with (inject_Z 10). change 113 with (inject_Z 113).
      repeat cmp_case; apply Math_round_range;
        change (inject_Z 10) with 10; change (inject_Z 113) with 113; lra. }
    set (t := if Qltb (-45) c then _ else _) in *. clearbody t.
    assert (7 <= (if ((7 <=? h) && (h <=? 9)
                      || (17 <=? h) && (h <=? 19))%nat
                  then inject_Z (Math_round (t * 1.2))
                  else if ((22 <=? h) || (h <=? 5))%nat
                       then inject_Z (Math_round (t * 0.7))
                       else t)
            <= 136) as Hday.
    { change 7 with (inject_Z 7). change 136 with (inject_Z 136).
      destruct ((7 <=? h) && (h <=? 9) || (17 <=? h) && (h <=? 19))%nat;
        [apply Math_round_range;
         change (inject_Z 7) with 7; change (inject_Z 136) with 136; lra|].
      destruct ((22 <=? h) || (h <=? 5))%nat;
        [apply Math_round_range|];
        change (inject_Z 7) with 7; change (inject_Z 136) with 136; lra. }
    set (t' := if (_ || _)%bool then _ else _) in *. clearbody t'.
    minmax.
Qed.

Lemma estimateTraffic_range_witness :
  7 <= estimateTraffic 8 (-40) 12 <= 136.
Proof.
  apply estimateTraffic_range. lia.
Defined.
End SignalFacts.

(** ** The hourly aggregator *)

Section PoolingFacts.
Import Aggregator Pooling.
Local Open Scope Q_scope.

Lemma processSessionData_snoc zone sessions s :
  processSessionData zone (sessions ++ [s])
  = match sessionHour zone s with
    | None => processSessionData zone sessions
    | Some k =>
        let entry :=
          default {| entryAudio := []; entryLight := []; entryCount := 0 |}
                  (processSessionData zone sessions !! k) in
        <[k := {| entryAudio := entryAudio entry ++ option_list (audioDb s);
                  entryLight := entryLight entry ++ option_list (lightLux s);
                  entryCount := S (entryCount entry) |}]>
          (processSessionData zone sessions)
    end.
Proof.
  unfold processSessionData at 1. rewrite fold_left_app. cbn [fold_left].
  fold (processSessionData zone sessions). unfold sessionHour.
  destruct (timestamp s) as [t|]; [|reflexivity].
  destruct (t =? 0)%Z; reflexivity.
Qed.

Lemma atHour_snoc zone k sessions s :
  atHour zone k (sessions ++ [s])
  = atHour zone k sessions
    ++ (if bool_decide (sessionHour zone s = Some k) then [s] else []).
Proof.
  unfold atHour, JsArray.filterb. rewrite List.filter_app. reflexivity.
Qed.

Lemma processSessionData_pooled zone sessions k :
  processSessionData zone sessions !! k = pooled zone k sessions.
Proof.
  induction sessions as [|s sessions IH] using rev_ind; [reflexivity|].
  rewrite processSessionData_snoc. unfold pooled in *.
  rewrite atHour_snoc.
  destruct (sessionHour zone s) as [k'|] eqn:Hk.
  - cbv zeta. destruct (decide (k' = k)) as [->|Hne].
    + rewrite lookup_insert_eq, IH.
      rewrite bool_decide_eq_true_2 by reflexivity.
      rewrite length_app, !omap_app. cbn [length].
      rewrite Nat.add_1_r. cbn [Nat.eqb].
      destruct (length (atHour zone k sessions) =? 0)%nat eqn:E.
      * apply Nat.eqb_eq, length_zero_iff_nil in E. rewrite E.
        cbn. destruct (audioDb s), (lightLux s); reflexivity.
      * cbn. destruct (audioDb s), (lightLux s); reflexivity.
    + rewrite lookup_insert_ne by exact Hne. rewrite IH.
      rewrite bool_decide_eq_false_2 by congruence.
      rewrite app_nil_r. reflexivity.
  - rewrite IH. rewrite (bool_decide_eq_false_2 (None = Some k))
      by discriminate.
    rewrite app_nil_r. reflexivity.
Qed.

Lemma omap_length_le {A B : Type} (f : A -> option B) (l : list A) :
  (length (omap f l) <= length l)%nat.
Proof.
  induction l as [|x l IH]; [reflexivity|].
  cbn. destruct (f x); cbn; lia.
Qed.

(** The hour of a valid date is below 24, in every time zone; the date is
    invalid exactly beyond the greatest time value. *)
Lemma getHours_cases zone t :
  ((Z.abs t <= maxTimeValue)%Z
   /\ exists h, getHours zone t = Some h /\ (h < 24)%nat)
  \/ ((maxTimeValue < Z.abs t)%Z /\ getHours zone t = None).
Proof.
  unfold getHours. destruct (Z.abs t <=? maxTimeValue)%Z eqn:E.
  - apply Z.leb_le in E. left. split; [exact E|].
    eexists. split; [reflexivity|].
    pose proof (Z.mod_pos_bound ((t + zone t) / 3600000) 24 ltac:(lia)).
    lia.
  - apply Z.leb_gt in E. right. split; [exact E | reflexivity].
Qed.

Lemma atHour_elem_of zone k sessions s :
  s ∈ atHour zone k sessions <-> s ∈ sessions /\ sessionHour zone s = Some k.
Proof.
  unfold atHour. rewrite filterb_elem_of, bool_decide_eq_true. reflexivity.
Qed.

(** X6. [processSessionData] pools the samples by the value of
    [getHours], whatever their date: the entry of a key holds the audio and
    the light readings of the samples filed under it, in their order, and
    counts every one of them, with or without a reading; a key without a
    sample has no entry, and a sample without a usable timestamp counts
    nowhere.  A sample whose time value a [Date] can hold is filed under
    an hour below 24 of the local time, whatever the time zone; a sample
    whose time value is beyond that range is filed under the key [NaN],
    and no other sample is. *)
Theorem samples_pooled_by_hour zone sessions k :
  processSessionData zone sessions !! k = pooled zone k sessions
  /\ (is_Some (processSessionData zone sessions !! k) <->
      exists s, s ∈ sessions /\ sessionHour zone s = Some k)
  /\ (forall h, is_Some (processSessionData zone sessions !! Some h) ->
        (h < 24)%nat)
  /\ (forall s t,
        s ∈ sessions -> timestamp s = Some t -> t <> 0%Z ->
        if (Z.abs t <=? maxTimeValue)%Z
        then exists h, (h < 24)%nat /\ s ∈ atHour zone (Some h) sessions
        else s ∈ atHour zone None sessions)
  /\ (forall s, s ∈ atHour zone None sessions ->
        exists t, timestamp s = Some t /\ (maxTimeValue < Z.abs t)%Z)
  /\ (forall e, processSessionData zone sessions !! k = Some e ->
        (1 <= entryCount e)%nat
        /\ (length (entryAudio e) <= entryCount e)%nat
        /\ (length (entryLight e) <= entryCount e)%nat).
Proof.
  assert (forall k', is_Some (pooled zone k' sessions) <->
            exists s, s ∈ sessions /\ sessionHour zone s = Some k')
    as Hsome.
  { intros k'. unfold pooled.
    destruct (atHour zone k' sessions) as [|s here] eqn:Hhere; cbn.
    - split; [intros [e He]; discriminate|].
      intros (s & Hs). apply atHour_elem_of in Hs.
      rewrite Hhere in Hs. apply elem_of_nil in Hs. contradiction.
    - split; [|intros _; eexists; reflexivity].
      intros _. exists s. apply atHour_elem_of. rewrite Hhere. left. }
  split; [apply processSessionData_pooled|].
  split; [rewrite processSessionData_pooled; apply Hsome|].
  split; [|split; [|split]].
  - intros h. rewrite processSessionData_pooled, Hsome.
    intros (s & _ & Hs). unfold sessionHour in Hs.
    destruct (timestamp s) as [t|]; [|discriminate].
    destruct (t =? 0)%Z; [discriminate|].
    destruct (getHours_cases zone t) as [(_ & h' & Hh & Hlt)|(_ & Hnan)];
      congruence.
  - intros s t Hs Ht Hnz.
    assert (sessionHour zone s = Some (getHours zone t)) as Hkey.
    { unfold sessionHour. rewrite Ht.
      apply Z.eqb_neq in Hnz. rewrite Hnz. reflexivity. }
    destruct (getHours_cases zone t) as [(Hin & h & Hh & Hlt)|(Hout & Hnan)].
    + apply Z.leb_le in Hin. rewrite Hin. exists h. split; [exact Hlt|].
      apply atHour_elem_of. split; [exact Hs | congruence].
    + apply Z.leb_gt in Hout. rewrite Hout.
      apply atHour_elem_of. split; [exact Hs | congruence].
  - intros s Hs. apply atHour_elem_of in Hs as [_ Hs].
    unfold sessionHour in Hs.
    destruct (timestamp s) as [t|]; [|discriminate].
    destruct (t =? 0)%Z; [discriminate|].
    exists t. split; [reflexivity|].
    destruct (getHours_cases zone t) as [(_ & h & Hh & _)|(Hout & _)];
      [congruence | exact Hout].
  - rewrite processSessionData_pooled. unfold pooled.
    destruct (length (atHour zone k sessions) =? 0)%nat eqn:E;
      [intros e He; discriminate|].
    apply Nat.eqb_neq in E. intros e [= <-]. cbn.
    split; [lia|]. split; apply omap_length_le.
Qed.

Lemma samples_pooled_by_hour_witness :
  is_Some (processSessionData Samples.utc
             (sessionData Samples.run_zero_lux) !! Some 9%nat).
Proof.
  destruct (samples_pooled_by_hour Samples.utc
              (sessionData Samples.run_zero_lux) (Some 9%nat))
    as (_ & Hsome & _).
  apply Hsome. eexists. split; [left|]. vm_compute. reflexivity.
Defined.

(** A sample dated beyond the range of [Date] is filed under [NaN], where
    the loop over the hours 0 to 23 does not find it. *)
Example sample_beyond_the_dates :
  let far := {| timestamp := Some 9000000000000000%Z;
                audioDb := Some (-45);
                lightLux := None |} in
  atHour Samples.utc None [far] = [far]
  /\ forall h, processSessionData Samples.utc [far] !! Some h = None.
Proof.
  cbv zeta. split; [vm_compute; reflexivity|].
  intros h. rewrite processSessionData_pooled. reflexivity.
Qed.
End PoolingFacts.

Section GapFacts.
Import Fusion Aggregator Pooling.
Local Open Scope Q_scope.

Lemma fold_left_preserves {A S : Type} (I : S -> Prop) (f : S -> A -> S) l :
  (forall s a, I s -> I (f s a)) -> forall s, I s -> I (fold_left f l s).
Proof.
  intros Hstep. induction l as [|a l IH]; intros s Hs; simpl; [exact Hs|].
  apply IH, Hstep, Hs.
Qed.

(** Every entry of the manual audio recording counts a row or more. *)
Lemma processAudioData_counts rows business k a :
  processAudioData rows business !! k = Some a -> (1 <= count a)%nat.
Proof.
  unfold processAudioData. destruct (last rows) as [lastRow|];
    [|rewrite lookup_empty; discriminate].
  destruct (_ && _); [rewrite lookup_empty; discriminate|].
  rewrite lookup_fmap.
  match goal with
  | |- context [fold_left ?f ?l ?init] =>
      pose proof (fold_left_preserves
                    (map_Forall (fun _ (e : Q * nat) => (1 <= e.2)%nat))
                    f l) as Hinv
  end.
  match type of Hinv with
  | _ -> forall s, _ -> _ (fold_left ?f ?l s) =>
      destruct (fold_left f l ∅ !! k) as [[s n]|] eqn:Hk;
      [|discriminate]
  end.
  intros [= <-]. cbn.
  eapply (Hinv _ ∅ (map_Forall_empty _) k (s, n)); exact Hk.
  Unshelve.
  intros acc [idx row] Hacc. cbv beta iota zeta.
  apply map_Forall_insert_2; [cbn; lia | exact Hacc].
Qed.

(** The signals of an hour without any sample. *)
Lemma gap_signals inp h :
  (hourSignals inp h).2 = 0%nat -> hourSignals inp h = (-70, None, 0%nat).
Proof.
  unfold hourSignals.
  pose proof (processSessionData_pooled (timeZone inp) (sessionData inp)
                (Some h)) as Hs.
  destruct (processSessionData (timeZone inp) (sessionData inp) !! Some h)
    as [e|] eqn:He.
  - unfold pooled in Hs.
    destruct (length (atHour (timeZone inp) (Some h) (sessionData inp))
              =? 0)%nat eqn:E;
      [discriminate|].
    apply Nat.eqb_neq in E. injection Hs as ->. cbn [entryCount entryLight].
    destruct (omap lightLux _); cbn; lia.
  - destruct (processAudioData _ _ !! Z.of_nat h) as [a|] eqn:Ha.
    + apply processAudioData_counts in Ha.
      destruct (manualLuxValues _ _ _); cbn; lia.
    + destruct (manualLuxValues _ _ _) as [|v vs]; cbn; [reflexivity | lia].
Qed.

(** X7. An hour without any sample ([sampleCount = 0]) has the default
    signals, -70 dB and no light level; its bucket reports no traffic and
    an activity of -70 dB, and, unless the areal dataset fills it, 0
    pedestrians and the score 2.5 that the default light term alone gives. *)
Theorem gap_hour_defaults inp h :
  (hourSignals inp h).2 = 0%nat ->
  hourSignals inp h = (-70, None, 0%nat)
  /\ traffic (hourlyPoint inp h) == 0
  /\ activity (hourlyPoint inp h) == -70
  /\ lightLevel (hourlyPoint inp h) = None
  /\ sampleCount (hourlyPoint inp h) = 0%nat
  /\ (sessionData inp <> [] \/ footfallData inp !! h = None ->
      pedestrians (hourlyPoint inp h) == 0
      /\ score (hourlyPoint inp h) == 2.5).
Proof.
  intros Hgap. pose proof (gap_signals inp h Hgap) as Hsig.
  split; [exact Hsig|]. unfold hourlyPoint. rewrite Hsig.
  cbn [bucket traffic activity lightLevel sampleCount pedestrians score].
  split; [vm_compute; reflexivity|]. split; [vm_compute; reflexivity|].
  split; [reflexivity|]. split; [reflexivity|].
  intros Hnone. unfold footfallWithSource. cbn [Nat.ltb Nat.leb].
  assert (match footfallData inp !! h with
          | Some v =>
              if (length (sessionData inp) =? 0)%nat
              then (ArealFallback, v) else (NoData, 0)
          | None => (NoData, 0)
          end = (NoData, 0)) as ->.
  { destruct (footfallData inp !! h) as [v|]; [|reflexivity].
    destruct Hnone as [Hs|Hn]; [|discriminate].
    destruct (sessionData inp); [congruence | reflexivity]. }
  split; vm_compute; reflexivity.
Qed.

Lemma gap_hour_defaults_witness :
  pedestrians (hourlyPoint Samples.run_zero_lux 3) == 0
  /\ score (hourlyPoint Samples.run_zero_lux 3) == 2.5.
Proof.
  destruct (gap_hour_defaults Samples.run_zero_lux 3) as (_ & _ & _ & _ & _ & H).
  - vm_compute. reflexivity.
  - apply H. left. discriminate.
Defined.
End GapFacts.

(** ** The areal footfall dataset *)

Section ArealFacts.
Import Fusion Aggregator Areal.
Local Open Scope Q_scope.

(** A record that counts: its total is positive and below 10000. *)
Lemma hourlyFootfall_snoc rows row :
  hourlyFootfall (rows ++ [row])
  = if Qltb 0 (totalPedestrians row) && Qltb (totalPedestrians row) 10000
    then
      let current := default (0, 0%nat) (hourlyFootfall rows !! rowHour row) in
      <[rowHour row := (current.1 + totalPedestrians row, S current.2)]>
        (hourlyFootfall rows)
    else hourlyFootfall rows.
Proof.
  unfold hourlyFootfall at 1. rewrite fold_left_app. reflexivity.
Qed.

Lemma hourlyFootfall_entries rows h :
  (forall s n, hourlyFootfall rows !! h = Some (s, n) ->
     (1 <= n)%nat /\ 0 < s)
  /\ (is_Some (hourlyFootfall rows !! h) <->
      exists row, row ∈ rows /\ rowHour row = h
                  /\ 0 < totalPedestrians row < 10000).
Proof.
  induction rows as [|row rows [IHval IHkey]] using rev_ind.
  - split; [intros s n H; discriminate|].
    split; [intros [e He]; discriminate|].
    intros (row & Hin & _). apply elem_of_nil in Hin. contradiction.
  - rewrite hourlyFootfall_snoc.
    destruct (Qltb 0 (totalPedestrians row)) eqn:Epos;
      [destruct (Qltb (totalPedestrians row) 10000) eqn:Ecap|]; cbn [andb].
    + apply Qltb_lt in Epos, Ecap. cbv zeta.
      destruct (decide (rowHour row = h)) as [<-|Hne].
      * rewrite lookup_insert_eq. split.
        -- intros s n [= <- <-]. split; [lia|].
           destruct (hourlyFootfall rows !! rowHour row) as [[s0 n0]|] eqn:E;
             cbn; [|lra].
           destruct (IHval s0 n0 eq_refl) as [_ Hs0]. lra.
        -- split; [|intros _; eexists; reflexivity].
           intros _. exists row. split; [|split; [reflexivity | lra]].
           apply elem_of_app. right. left.
      * rewrite lookup_insert_ne by exact Hne.
        split; [exact IHval|]. rewrite IHkey. split.
        -- intros (r & Hr & Hh & Ht). exists r.
           split; [apply elem_of_app; left; exact Hr | auto].
        -- intros (r & Hr & Hh & Ht). exists r.
           apply elem_of_app in Hr as [Hr|Hr]; [auto|].
           apply list_elem_of_singleton in Hr. subst r. contradiction.
    + apply Qltb_ge in Ecap. split; [exact IHval|]. rewrite IHkey. split.
      * intros (r & Hr & Hh & Ht). exists r.
        split; [apply elem_of_app; left; exact Hr | auto].
      * intros (r & Hr & Hh & Ht). exists r.
        apply elem_of_app in Hr as [Hr|Hr]; [auto|].
        apply list_elem_of_singleton in Hr. subst r. lra.
    + apply Qltb_ge in Epos. split; [exact IHval|]. rewrite IHkey. split.
      * intros (r & Hr & Hh & Ht). exists r.
        split; [apply elem_of_app; left; exact Hr | auto].
      * intros (r & Hr & Hh & Ht). exists r.
        apply elem_of_app in Hr as [Hr|Hr]; [auto|].
        apply list_elem_of_singleton in Hr. subst r. lra.
Qed.

Lemma hourlyAverages_value rows h v :
  hourlyAverages rows !! h = Some v -> 0 < v <= 150.
Proof.
  unfold hourlyAverages. rewrite lookup_fmap.
  destruct (hourlyFootfall rows !! h) as [[s n]|] eqn:E; [|discriminate].
  intros [= <-].
  destruct (proj1 (hourlyFootfall_entries rows h) s n E) as [Hn Hs].
  assert ((0 <? n)%nat = true) as -> by (apply Nat.ltb_lt; lia).
  assert (0 < s / of_nat n) as Havg.
  { apply Qlt_shift_div_l; [|lra].
    unfold of_nat. change 0 with (inject_Z 0). rewrite <- Zlt_Qlt. lia. }
  set (average := s / of_nat n) in *. clearbody average. minmax.
Qed.

(** X8. The areal dataset gives an hour a value exactly when the file has a
    record of that hour whose total is positive and below 10000, and every
    value it gives is positive and at most 150. *)
Theorem areal_values_bounded rows h :
  (forall v, hourlyAverages rows !! h = Some v -> 0 < v <= 150)
  /\ (is_Some (hourlyAverages rows !! h) <->
      exists row, row ∈ rows /\ rowHour row = h
                  /\ 0 < totalPedestrians row < 10000).
Proof.
  split; [intros v; apply hourlyAverages_value|].
  rewrite <- (proj2 (hourlyFootfall_entries rows h)).
  unfold hourlyAverages. rewrite lookup_fmap.
  destruct (hourlyFootfall rows !! h); cbn; split; intros [e He];
    first [discriminate | eexists; reflexivity].
Qed.

Lemma areal_values_bounded_witness :
  let rows := [ {| rowHour := 9; counts := [1200; 800] |};
                {| rowHour := 9; counts := [20000; 3000] |} ] in
  exists v, hourlyAverages rows !! 9%nat = Some v /\ 0 < v <= 150.
Proof.
  intros rows. exists 150. split; [vm_compute; reflexivity|].
  apply (proj1 (areal_values_bounded rows 9%nat)). vm_compute. reflexivity.
Defined.

(** X9. In a run whose areal values come from the footfall file, the
    pedestrians of every bucket are a whole number between 0 and 150, and
    at most 100 for an hour that has samples. *)
Theorem bucket_pedestrians_bounded rows sessions h audio light n :
  let b := bucket sessions (hourlyAverages rows) h (audio, light, n) in
  (exists z : Z, pedestrians b = inject_Z z /\ (0 <= z <= 150)%Z)
  /\ ((0 < n)%nat -> pedestrians b <= 100).
Proof.
  cbn [bucket pedestrians]. unfold footfallWithSource.
  destruct (0 <? n)%nat eqn:En; cbn [snd].
  - pose proof (estimatePedestrians_range audio light n) as He.
    split.
    + eexists. split; [reflexivity|]. rewrite !Zle_Qle.
      apply (Math_round_range _ 0 150).
      change (inject_Z 0) with 0. change (inject_Z 150) with 150. lra.
    + intros _. apply (Math_round_range _ 0 100).
      change (inject_Z 0) with 0. change (inject_Z 100) with 100. lra.
  - apply Nat.ltb_ge in En. split; [|intros Hn; lia].
    eexists. split; [reflexivity|]. rewrite !Zle_Qle.
    apply (Math_round_range _ 0 150).
    change (inject_Z 0) with 0. change (inject_Z 150) with 150.
    destruct (hourlyAverages rows !! h) as [v|] eqn:Hv; [|cbn; lra].
    apply hourlyAverages_value in Hv.
    destruct (length sessions =? 0)%nat; cbn; lra.
Qed.

Lemma bucket_pedestrians_bounded_witness :
  pedestrians (bucket [] (hourlyAverages []) 9 (-30, None, 4%nat)) <= 100.
Proof.
  apply (bucket_pedestrians_bounded [] [] 9 (-30) None 4). lia.
Defined.
End ArealFacts.

(** ** The peak hour and the activity rate *)

Section PeakFacts.
Import Aggregator Metrics.
Local Open Scope Q_scope.

(** The reduction [(max, item) => item.score > max.score ? item : max]
    returns the first of the entries with the greatest score. *)
Lemma reduce_max_first {A : Type} (sc : A -> Q) (first : A) (l : list A) :
  let r :=
    fold_left (fun max item => if Qltb (sc max) (sc item) then item else max)
              l first in
  exists before after,
    first :: l = before ++ r :: after
    /\ (forall d, d ∈ before -> sc d < sc r)
    /\ (forall d, d ∈ after -> sc d <= sc r).
Proof.
  cbv zeta. induction l as [|x l IH] using rev_ind.
  - exists [], []. split; [reflexivity|].
    split; intros d Hd; apply elem_of_nil in Hd; contradiction.
  - rewrite fold_left_app. cbn [fold_left].
    set (m := fold_left _ l first) in *. clearbody m.
    destruct IH as (before & after & Hsplit & Hbefore & Hafter).
    destruct (Qltb (sc m) (sc x)) eqn:E.
    + apply Qltb_lt in E. exists (first :: l), [].
      split; [reflexivity|].
      split; [|intros d Hd; apply elem_of_nil in Hd; contradiction].
      intros d Hd. rewrite Hsplit in Hd.
      apply elem_of_app in Hd as [Hd|Hd].
      * specialize (Hbefore d Hd). lra.
      * apply elem_of_cons in Hd as [->|Hd]; [exact E|].
        specialize (Hafter d Hd). lra.
    + apply Qltb_ge in E. exists before, (after ++ [x]).
      split.
      { rewrite app_comm_cons, Hsplit, <- app_assoc. reflexivity. }
      split; [exact Hbefore|].
      intros d Hd. apply elem_of_app in Hd as [Hd|Hd]; [auto|].
      apply list_elem_of_singleton in Hd. subst d. exact E.
Qed.

(** The same when the reduction starts from the first entry of the array
    it runs over, as both callers write it. *)
Lemma reduce_max_of_array {A : Type} (sc : A -> Q) (first : A) (l : list A) :
  let r :=
    fold_left (fun max item => if Qltb (sc max) (sc item) then item else max)
              (first :: l) first in
  exists before after,
    first :: l = before ++ r :: after
    /\ (forall d, d ∈ before -> sc d < sc r)
    /\ (forall d, d ∈ after -> sc d <= sc r).
Proof.
  cbv zeta.
  destruct (reduce_max_first sc first (first :: l))
    as (before & after & Hsplit & Hbefore & Hafter).
  set (r := fold_left _ (first :: l) first) in *. clearbody r.
  destruct before as [|b before]; cbn in Hsplit.
  - injection Hsplit as <- <-. exists [], l.
    split; [reflexivity|].
    split; [intros d Hd; apply elem_of_nil in Hd; contradiction|].
    intros d Hd. apply Hafter. right. exact Hd.
  - injection Hsplit as <- Hsplit. exists before, after.
    split; [exact Hsplit|]. split; [|exact Hafter].
    intros d Hd. apply Hbefore. right. exact Hd.
Qed.

(** Where an entry of the filtered array stands in the array itself. *)
Lemma filterb_split {A : Type} (p : A -> bool) (l a b : list A) (x : A) :
  JsArray.filterb p l = a ++ x :: b ->
  exists l1 l2,
    l = l1 ++ x :: l2 /\ JsArray.filterb p l1 = a /\ JsArray.filterb p l2 = b.
Proof.
  revert a. induction l as [|y l IH]; intros a H.
  - destruct a; discriminate.
  - cbn in H. destruct (p y) eqn:Ey.
    + destruct a as [|a0 a]; cbn in H; injection H as -> H.
      * exists [], l. split; [reflexivity|]. split; [reflexivity | exact H].
      * destruct (IH a H) as (l1 & l2 & -> & H1 & H2).
        exists (a0 :: l1), l2. split; [reflexivity|].
        split; [cbn; rewrite Ey; f_equal; exact H1 | exact H2].
    + destruct (IH a H) as (l1 & l2 & -> & H1 & H2).
      exists (y :: l1), l2. split; [reflexivity|].
      split; [cbn; rewrite Ey; exact H1 | exact H2].
Qed.

Lemma filterb_all_false {A : Type} (p : A -> bool) (l : list A) :
  Forall (fun x => p x = false) l -> JsArray.filterb p l = [].
Proof.
  induction 1 as [|y l Hy _ IH]; cbn; [reflexivity|].
  rewrite Hy. exact IH.
Qed.

Lemma filterb_nil_none {A : Type} (p : A -> bool) (l : list A) :
  JsArray.filterb p l = [] -> Forall (fun x => p x = false) l.
Proof.
  induction l as [|y l IH]; cbn; intros H; [constructor|].
  destruct (p y) eqn:Ey; [discriminate|]. constructor; auto.
Qed.

(** X10. The peak hour is undefined only for an empty array. Otherwise it
    is the first of the best-scored hours among the hours that have
    samples, or among all hours when none has: the candidates before it
    score strictly lower, those after it score no higher. *)
Theorem peak_is_first_best_hour hd :
  (peakData hd = None <-> hd = [])
  /\ forall p, peakData hd = Some p ->
     let candidate d :=
       (0 < sampleCount d)%nat
       \/ Forall (fun e => sampleCount e = 0%nat) hd in
     exists before after,
       hd = before ++ p :: after
       /\ candidate p
       /\ (forall d, d ∈ before -> candidate d -> score d < score p)
       /\ (forall d, d ∈ after -> candidate d -> score d <= score p).
Proof.
  unfold peakData.
  destruct (JsArray.filterb (fun d => (0 <? sampleCount d)%nat) hd)
    as [|first rest] eqn:Efilter.
  - apply filterb_nil_none in Efilter.
    assert (Forall (fun e => sampleCount e = 0%nat) hd) as Hnone.
    { eapply Forall_impl; [exact Efilter|].
      intros e He. cbv beta in He. apply Nat.ltb_ge in He. lia. }
    destruct hd as [|first l]; [split; [tauto | discriminate]|].
    split; [split; discriminate|].
    intros p Hp.
    assert (p = maxByScore first (first :: l)) as -> by congruence.
    clear Hp. cbv zeta. unfold maxByScore.
    destruct (reduce_max_of_array score first l)
      as (before & after & Hsplit & Hbefore & Hafter).
    exists before, after. split; [exact Hsplit|].
    split; [right; exact Hnone|]. split; auto.
  - split.
    { split; [discriminate|]. intros ->. discriminate. }
    intros p Hp.
    assert (p = maxByScore first (first :: rest)) as -> by congruence.
    clear Hp. cbv zeta. unfold maxByScore.
    destruct (reduce_max_of_array score first rest)
      as (a & b & Hsplit & Hbefore & Hafter).
    set (r := fold_left _ (first :: rest) first) in *. clearbody r.
    rewrite Hsplit in Efilter.
    assert (r ∈ JsArray.filterb (fun d => (0 <? sampleCount d)%nat) hd)
      as Hr.
    { rewrite Efilter. apply elem_of_app. right. left. }
    apply filterb_elem_of in Hr as [_ Hr]. apply Nat.ltb_lt in Hr.
    assert (forall d, d ∈ hd ->
              (0 < sampleCount d)%nat
              \/ Forall (fun e => sampleCount e = 0%nat) hd ->
              (0 <? sampleCount d)%nat = true) as Hcand.
    { intros d Hd [H|H]; [apply Nat.ltb_lt; exact H|].
      rewrite Forall_forall in H.
      assert (r ∈ hd) as Hin.
      { eapply (proj1 (filterb_elem_of _ hd r)).
        rewrite Efilter. apply elem_of_app. right. left. }
      specialize (H r Hin). lia. }
    destruct (filterb_split _ _ _ _ _ Efilter)
      as (l1 & l2 & Hhd & H1 & H2).
    exists l1, l2. split; [exact Hhd|]. split; [left; exact Hr|].
    split; intros d Hd Hc.
    + apply Hbefore. rewrite <- H1. apply filterb_elem_of.
      split; [exact Hd|]. apply Hcand; [|exact Hc].
      rewrite Hhd. apply elem_of_app. left. exact Hd.
    + apply Hafter. rewrite <- H2. apply filterb_elem_of.
      split; [exact Hd|]. apply Hcand; [|exact Hc].
      rewrite Hhd. apply elem_of_app. right. right. exact Hd.
Qed.

Lemma peak_is_first_best_hour_witness :
  let hd := Samples.day_with_gap in
  exists p before after, peakData hd = Some p /\ hd = before ++ p :: after.
Proof.
  intros hd. destruct (peakData hd) as [p|] eqn:E;
    [|vm_compute in E; discriminate].
  destruct (proj2 (peak_is_first_best_hour hd) p E) as (b & a & H & _).
  exists p, b, a. split; [reflexivity | exact H].
Defined.

(** X11. The activity rate of a run is a percentage with one decimal: ten
    times the rate is a whole number between 0 and 1000, and the rate is 0
    when no hour has a sample. *)
Theorem activityRate_percentage (inp : Inputs) :
  (exists z : Z, activityRate (hourlyData inp) == inject_Z z / 10
                 /\ (0 <= z <= 1000)%Z)
  /\ (Forall (fun d => sampleCount d = 0%nat) (hourlyData inp) ->
      activityRate (hourlyData inp) == 0).
Proof.
  unfold activityRate. cbv zeta.
  set (busy := JsArray.filterb _ (hourlyData inp)).
  assert (length busy <= 24)%nat as Hlen.
  { transitivity (length (hourlyData inp)).
    - apply sublist_length, filterb_sublist.
    - unfold hourlyData. rewrite length_map, length_seq. lia. }
  split.
  - eexists. split; [reflexivity|]. rewrite !Zle_Qle.
    apply (Math_round_range _ 0 1000).
    change (inject_Z 0) with 0. change (inject_Z 1000) with 1000.
    assert (0 <= of_nat (length busy) <= 24) as Hq.
    { unfold of_nat. change 0 with (inject_Z 0).
      change 24 with (inject_Z 24). rewrite <- !Zle_Qle. lia. }
    set (n := of_nat (length busy)) in *. clearbody n.
    const_div. lra.
  - intros Hnone.
    assert (busy = []) as ->.
    { subst busy. apply filterb_all_false.
      rewrite Forall_forall in Hnone |- *. intros d Hd.
      specialize (Hnone d Hd). unfold hourlyData in Hd.
      apply list_elem_of_fmap in Hd as (h & -> & _).
      unfold hourlyPoint in *.
      pose proof (gap_signals inp h) as Hgap.
      destruct (hourSignals inp h) as [[audio lux] n].
      cbn in Hnone. cbn [snd] in Hgap. specialize (Hgap Hnone).
      injection Hgap as -> _ _. reflexivity. }
    vm_compute. reflexivity.
Qed.

Lemma activityRate_percentage_witness :
  activityRate
    (hourlyData {| business := costa;
                   manualData := {| audio := []; light := [] |};
                   sessionData := []; footfallData := ∅;
                   timeZone := Samples.utc |}) == 0.
Proof.
  apply activityRate_percentage. vm_compute.
  repeat constructor.
Defined.
End PeakFacts.

(** ** More on the busy-period segmenter *)

Section SegmenterFacts.
Import Aggregator BusyPeriods Segments.
Local Open Scope Q_scope.

(** The scan of a day whose buckets are in the order of their hours keeps
    whatever its step keeps. *)
Lemma scan_fold_with hd
    (J : nat -> list BusyPeriod * option CurrentPeriod -> Prop) :
  map hour hd = seq 0 (length hd) ->
  (forall i st d,
      hd !! i = Some d -> hour d = i -> scan_inv hd i st ->
      J i st -> J (S i) (scanHour hd st d)) ->
  forall l pre st,
    hd = pre ++ l ->
    scan_inv hd (length pre) st ->
    J (length pre) st ->
    J (length hd) (fold_left (scanHour hd) l st).
Proof.
  intros Hhours Hstep. induction l as [|d l IH]; intros pre st Hsplit Hinv HJ.
  - rewrite app_nil_r in Hsplit. subst pre. exact HJ.
  - simpl. assert (hd !! length pre = Some d) as Hd.
    { rewrite Hsplit. apply list_lookup_middle. reflexivity. }
    assert (hour d = length pre) as Hh.
    { assert (map hour hd !! length pre = Some (hour d)) as Hm
        by (rewrite list_lookup_fmap, Hd; reflexivity).
      rewrite Hhours in Hm. apply lookup_seq in Hm. lia. }
    apply (IH (pre ++ [d])).
    + rewrite <- app_assoc. exact Hsplit.
    + rewrite length_app. simpl. rewrite Nat.add_1_r.
      apply scanHour_inv; assumption.
    + rewrite length_app. simpl. rewrite Nat.add_1_r.
      apply Hstep; assumption.
Qed.

Lemma hours_upto_length (hd : list RealTrafficDataPoint) n :
  map hour hd = seq 0 n -> map hour hd = seq 0 (length hd).
Proof.
  intros H. rewrite H. f_equal.
  rewrite <- (length_map hour hd), H, length_seq. reflexivity.
Qed.

Lemma scan_start_inv hd : scan_inv hd 0 ([], None).
Proof. split; [constructor | left; reflexivity]. Qed.

Lemma scanHour_ordered hd i st d :
  hd !! i = Some d -> hour d = i -> scan_inv hd i st ->
  ordered_inv i st -> ordered_inv (S i) (scanHour hd st d).
Proof.
  intros Hd Hh [_ Hcur] [Hs Hb]. destruct st as [bp cur].
  cbn [fst snd] in *. unfold scanHour.
  destruct (isBusy hd d); destruct cur as [cp|].
  - destruct Hcur as (Hend & Hle & _).
    assert ((hour d <=? cur_end cp + 1)%nat = true) as ->
      by (apply Nat.leb_le; lia).
    split; [exact Hs | exact Hb].
  - split; [exact Hs|]. cbn. rewrite Hh. exact Hb.
  - destruct Hcur as (Hend & Hle & _).
    destruct (1 <=? cur_end cp - cur_start cp)%nat.
    + split; cbn [fst snd].
      * apply StronglySorted_app_2; [|exact Hs|repeat constructor].
        intros p q Hp Hq. apply list_elem_of_singleton in Hq. subst q.
        rewrite Forall_forall in Hb. exact (Hb p Hp).
      * apply Forall_app. split.
        -- eapply Forall_impl; [exact Hb|]. cbn. intros p Hp. lia.
        -- constructor; [cbn; lia | constructor].
    + split; [exact Hs|]. cbn [fst snd].
      eapply Forall_impl; [exact Hb|]. cbn. intros p Hp. lia.
  - split; [exact Hs|]. cbn [fst snd] in *.
    eapply Forall_impl; [exact Hb|]. cbn. intros p Hp. lia.
Qed.

Lemma closedPeriods_ordered hd :
  map hour hd = seq 0 (length hd) ->
  StronglySorted apart (closedPeriods hd).
Proof.
  intros Hhours. unfold closedPeriods.
  pose proof (scan_fold_inv hd Hhours hd [] ([], None) eq_refl
                (scan_start_inv hd)) as [_ Hcur].
  pose proof (scan_fold_with hd ordered_inv Hhours (scanHour_ordered hd)
                hd [] ([], None) eq_refl (scan_start_inv hd)) as [Hs Hb].
  { split; constructor. }
  destruct (fold_left (scanHour hd) hd ([], None)) as [bp cur].
  cbn [fst snd] in *. destruct cur as [cp|]; [|exact Hs].
  destruct (1 <=? cur_end cp - cur_start cp)%nat; [|exact Hs].
  apply StronglySorted_app_2; [|exact Hs|repeat constructor].
  intros p q Hp Hq. apply list_elem_of_singleton in Hq. subst q.
  rewrite Forall_forall in Hb. exact (Hb p Hp).
Qed.

(** Runs that lie apart and span two hours or more each: a day has room
    for eight of them. *)
Lemma apart_runs_count lo (l : list BusyPeriod) :
  StronglySorted apart l ->
  Forall (fun p => (lo <= start p /\ start p + 1 <= end_ p
                    /\ end_ p <= 23)%nat) l ->
  (length l = 0 \/ 3 * length l + lo <= 26)%nat.
Proof.
  intros Hs. revert lo. induction Hs as [|p l _ IH Hp]; intros lo Hall.
  - left. reflexivity.
  - right. apply Forall_cons in Hall as [(Hlo & Hspan & Hend) Hall].
    destruct (IH (lo + 3)%nat) as [Hnil|Hlen].
    + rewrite Forall_forall in Hall, Hp |- *. intros q Hq.
      destruct (Hall q Hq) as (_ & Hq2 & Hq3). specialize (Hp q Hq).
      unfold apart in Hp. lia.
    + cbn [length]. lia.
    + cbn [length]. lia.
Qed.

Lemma busyAt_in_day hd h : busyAt hd h = true -> (h < length hd)%nat.
Proof.
  unfold busyAt. intros H. apply lookup_lt_is_Some.
  destruct (hd !! h); [eexists; reflexivity | discriminate].
Qed.

(** The runs that end at the same hour start at the same hour. *)
Lemma run_of_start hd s s' e :
  (s <= e)%nat -> (s' <= e)%nat ->
  run_of hd s e -> run_of hd s' e -> s = s'.
Proof.
  intros Hs Hs' [Hall Hbefore] [Hall' Hbefore'].
  destruct (Nat.lt_trichotomy s s') as [Hlt|[Heq|Hgt]]; [|exact Heq|].
  - destruct Hbefore' as [->|Hb]; [lia|].
    rewrite Hall in Hb by lia. discriminate.
  - destruct Hbefore as [->|Hb]; [lia|].
    rewrite Hall' in Hb by lia. discriminate.
Qed.

Lemma scanHour_keeps hd st d p : p ∈ st.1 -> p ∈ (scanHour hd st d).1.
Proof.
  destruct st as [bp cur]. cbn [fst]. intros Hp. unfold scanHour.
  destruct (isBusy hd d); destruct cur as [cp|]; cbn [fst];
    try exact Hp.
  - destruct (hour d <=? cur_end cp + 1)%nat; cbn [fst]; [exact Hp|].
    apply elem_of_app. left. exact Hp.
  - destruct (1 <=? cur_end cp - cur_start cp)%nat; cbn [fst]; [|exact Hp].
    apply elem_of_app. left. exact Hp.
Qed.

Lemma scanHour_complete hd i st d :
  hd !! i = Some d -> hour d = i -> scan_inv hd i st ->
  complete_inv hd i st -> complete_inv hd (S i) (scanHour hd st d).
Proof.
  intros Hd Hh [_ Hcur] Hcomplete s e Hmax Hlt.
  destruct (decide (e + 1 < i)%nat) as [Hpast|Hnow].
  { destruct (Hcomplete s e Hmax Hpast) as (p & Hp & Hse).
    exists p. split; [apply scanHour_keeps; exact Hp | exact Hse]. }
  assert (i = e + 1)%nat as Hi by lia.
  destruct Hmax as (Hspan & Hrun & Hafter).
  assert (isBusy hd d = false) as Eb.
  { unfold busyAt in Hafter. rewrite <- Hi, Hd in Hafter. exact Hafter. }
  destruct st as [bp cur]. cbn [fst snd] in *. unfold scanHour. rewrite Eb.
  destruct cur as [cp|].
  - destruct Hcur as (Hend & Hle & Hcp).
    assert (cur_end cp = e) as He by lia.
    assert (cur_start cp = s) as Hs.
    { rewrite He in Hcp, Hle.
      apply (run_of_start hd _ _ e); [exact Hle | lia | exact Hcp | exact Hrun]. }
    assert ((1 <=? cur_end cp - cur_start cp)%nat = true) as ->
      by (apply Nat.leb_le; lia).
    exists (closePeriod hd cp). split; [|split; [exact Hs | exact He]].
    cbn [fst]. apply elem_of_app. right. left.
  - exfalso. destruct Hcur as [->|Hprev]; [lia|].
    destruct Hrun as [Hall _].
    rewrite Hi, Nat.add_sub, Hall in Hprev by lia. discriminate.
Qed.

Lemma closedPeriods_complete hd s e :
  map hour hd = seq 0 (length hd) ->
  maximal_run hd s e ->
  exists p, p ∈ closedPeriods hd /\ start p = s /\ end_ p = e.
Proof.
  intros Hhours Hmax. unfold closedPeriods.
  pose proof (scan_fold_inv hd Hhours hd [] ([], None) eq_refl
                (scan_start_inv hd)) as [_ Hcur].
  pose proof (scan_fold_with hd (complete_inv hd) Hhours
                (scanHour_complete hd) hd [] ([], None) eq_refl
                (scan_start_inv hd)) as Hcomplete.
  destruct (fold_left (scanHour hd) hd ([], None)) as [bp cur].
  cbn [fst snd] in *.
  assert (complete_inv hd (length hd) (bp, cur)) as Hall.
  { apply Hcomplete. intros s' e' _ Hlt. cbn in Hlt. lia. }
  clear Hcomplete.
  destruct (decide (e + 1 < length hd)%nat) as [Hpast|Hlast].
  { destruct (Hall s e Hmax Hpast) as (p & Hp & Hse). cbn [fst] in Hp.
    exists p. split; [|exact Hse].
    destruct cur as [cp|]; [|exact Hp].
    destruct (1 <=? cur_end cp - cur_start cp)%nat; [|exact Hp].
    apply elem_of_app. left. exact Hp. }
  destruct Hmax as (Hspan & Hrun & Hafter).
  assert (e < length hd)%nat as He
    by (apply busyAt_in_day, (proj1 Hrun); lia).
  assert (length hd = e + 1)%nat as Hlen by lia.
  destruct cur as [cp|].
  - destruct Hcur as (Hend & Hle & Hcp).
    assert (cur_end cp = e) as Hce by lia.
    assert (cur_start cp = s) as Hcs.
    { rewrite Hce in Hcp, Hle.
      apply (run_of_start hd _ _ e); [exact Hle | lia | exact Hcp | exact Hrun]. }
    assert ((1 <=? cur_end cp - cur_start cp)%nat = true) as ->
      by (apply Nat.leb_le; lia).
    exists (closePeriod hd cp). split; [|split; [exact Hcs | exact Hce]].
    apply elem_of_app. right. left.
  - exfalso. destruct Hcur as [Hz|Hprev]; [lia|].
    destruct Hrun as [Hrun _].
    rewrite Hlen, Nat.add_sub, Hrun in Hprev by lia. discriminate.
Qed.

(** X12. On a day of 24 buckets in the order of their hours, every maximal
    run of two or more qualifying hours is among the closed runs and in the
    ranking, and among the periods returned when the day has three runs or
    fewer. *)
Theorem every_run_is_reported (hd : list RealTrafficDataPoint) (s e : nat) :
  map hour hd = seq 0 24 ->
  (s < e)%nat ->
  (forall h, (s <= h <= e)%nat -> busyAt hd h = true) ->
  (s = 0%nat \/ busyAt hd (s - 1) = false) ->
  busyAt hd (e + 1) = false ->
  (exists p, p ∈ closedPeriods hd /\ start p = s /\ end_ p = e)
  /\ (exists p, p ∈ rankedPeriods hd /\ start p = s /\ end_ p = e)
  /\ ((length (closedPeriods hd) <= 3)%nat ->
      exists t, t ∈ topBusyPeriods hd /\ top_start t = s /\ top_end t = e).
Proof.
  intros Hhours Hspan Hall Hbefore Hafter.
  destruct (closedPeriods_complete hd s e (hours_upto_length hd 24 Hhours))
    as (p & Hp & Hs & He).
  { split; [exact Hspan|]. split; [split; assumption | exact Hafter]. }
  assert (p ∈ rankedPeriods hd) as Hranked
    by (apply sort_elem_of; exact Hp).
  split; [exists p; auto|]. split; [exists p; auto|].
  intros Hfew.
  exists {| top_start := start p; top_end := end_ p; top_reason := reason p |}.
  split; [|split; [exact Hs | exact He]].
  unfold topBusyPeriods, keptPeriods, JsArray.slice_first.
  apply list_elem_of_fmap. exists p. split; [reflexivity|].
  rewrite take_ge; [exact Hranked|].
  unfold rankedPeriods. rewrite sort_length. exact Hfew.
Qed.

Lemma every_run_is_reported_witness :
  exists t, t ∈ topBusyPeriods Samples.day_with_gap
            /\ top_start t = 2%nat /\ top_end t = 4%nat.
Proof.
  apply (every_run_is_reported Samples.day_with_gap 2 4).
  - vm_compute. reflexivity.
  - lia.
  - intros h Hh.
    assert (h = 2 \/ h = 3 \/ h = 4)%nat as [-> | [-> | ->]] by lia;
      vm_compute; reflexivity.
  - right. vm_compute. reflexivity.
  - vm_compute. reflexivity.
  - vm_compute. lia.
Defined.

(** X13. The closed runs of such a day are found in the order of the
    clock, an hour or more lying between one and the next, and the hour
    after a run, like the hour before it, does not qualify; a day has eight
    runs at most, and any two entries of the ranking are the same run or
    lie apart. *)
Theorem closed_periods_apart (hd : list RealTrafficDataPoint) :
  map hour hd = seq 0 24 ->
  StronglySorted apart (closedPeriods hd)
  /\ (length (closedPeriods hd) <= 8)%nat
  /\ (forall i j p q,
        rankedPeriods hd !! i = Some p -> rankedPeriods hd !! j = Some q ->
        i <> j -> apart p q \/ apart q p)
  /\ (forall p, p ∈ closedPeriods hd ->
        busyAt hd (end_ p + 1) = false
        /\ (start p = 0%nat \/ busyAt hd (start p - 1) = false)).
Proof.
  intros Hhours.
  pose proof (hours_upto_length hd 24 Hhours) as Hhours'.
  pose proof (closedPeriods_ordered hd Hhours') as Hsorted.
  assert (length hd = 24%nat) as Hlen
    by (rewrite <- (length_map hour hd), Hhours; reflexivity).
  split; [exact Hsorted|].
  split; [|split];
    [| |intros p Hp;
        pose proof (closedPeriods_runs hd Hhours') as Hruns;
        rewrite Forall_forall in Hruns;
        destruct (Hruns p Hp) as (_ & [_ Hbefore] & Hafter);
        split; assumption].
  - destruct (apart_runs_count 0 (closedPeriods hd) Hsorted) as [H|H];
      [|lia|lia].
    pose proof (closedPeriods_runs hd Hhours') as Hruns.
    eapply Forall_impl; [exact Hruns|].
    intros p (Hspan & [Hall _] & _).
    assert (end_ p < length hd)%nat by (apply busyAt_in_day, Hall; lia).
    lia.
  - assert (forall (l : list BusyPeriod) i j p q,
              StronglySorted apart l -> l !! i = Some p -> l !! j = Some q ->
              (i < j)%nat -> apart p q) as Hlt.
    { intros l i j p q Hs Hi Hj Hij.
      rewrite <- (take_drop_middle l i p Hi) in Hs, Hj.
      apply StronglySorted_app_1_r, StronglySorted_cons in Hs as [Hs _].
      rewrite Forall_forall in Hs. apply Hs.
      rewrite lookup_app_r in Hj by (rewrite length_take; lia).
      rewrite length_take in Hj.
      apply lookup_lt_Some in Hi as Hi'.
      replace (j - i `min` length l)%nat with (S (j - i - 1)) in Hj by lia.
      cbn in Hj. eapply list_elem_of_lookup_2. exact Hj. }
    assert (forall p q, p ∈ closedPeriods hd -> q ∈ closedPeriods hd ->
              p = q \/ apart p q \/ apart q p) as Hany.
    { intros p q Hp Hq.
      apply list_elem_of_lookup in Hp as [i Hi].
      apply list_elem_of_lookup in Hq as [j Hj].
      destruct (Nat.lt_trichotomy i j) as [H | [-> | H]].
      - right. left. exact (Hlt _ i j p q Hsorted Hi Hj H).
      - left. congruence.
      - right. right. exact (Hlt _ j i q p Hsorted Hj Hi H). }
    assert (NoDup (closedPeriods hd)) as Hnodup.
    { apply NoDup_alt. intros i j p Hi Hj.
      destruct (Nat.lt_trichotomy i j) as [H | [-> | H]]; [|reflexivity|].
      - pose proof (Hlt _ i j p p Hsorted Hi Hj H) as Hp.
        unfold apart in Hp.
        pose proof (closedPeriods_runs hd Hhours') as Hruns.
        rewrite Forall_forall in Hruns.
        destruct (Hruns p) as (Hspan & _);
          [eapply list_elem_of_lookup_2; exact Hi | lia].
      - pose proof (Hlt _ j i p p Hsorted Hj Hi H) as Hp.
        unfold apart in Hp.
        pose proof (closedPeriods_runs hd Hhours') as Hruns.
        rewrite Forall_forall in Hruns.
        destruct (Hruns p) as (Hspan & _);
          [eapply list_elem_of_lookup_2; exact Hi | lia]. }
    assert (NoDup (rankedPeriods hd)) as Hnodup'.
    { unfold rankedPeriods.
      rewrite (sort_Permutation (fun a b => avgScore b - avgScore a)).
      exact Hnodup. }
    intros i j p q Hi Hj Hij.
    assert (forall k r, rankedPeriods hd !! k = Some r ->
              r ∈ closedPeriods hd) as Hclosed.
    { intros k r Hk.
      apply (sort_elem_of (fun a b => avgScore b - avgScore a)).
      eapply list_elem_of_lookup_2. exact Hk. }
    destruct (Hany p q (Hclosed i p Hi) (Hclosed j q Hj)) as [-> | H];
      [|exact H].
    exfalso. apply Hij.
    exact (proj1 (NoDup_alt _) Hnodup' i j q Hi Hj).
Qed.

Lemma closed_periods_apart_witness :
  (length (closedPeriods Samples.day_with_gap) <= 8)%nat.
Proof.
  apply closed_periods_apart. vm_compute. reflexivity.
Defined.
End SegmenterFacts.

(** ** The hours of a busy period *)

Section PeriodFacts.
Import Aggregator BusyPeriods Segments.
Local Open Scope Q_scope.




Lemma sum_from xs a : fold_left Qplus xs a == a + sum xs.
Proof.
  unfold sum. revert a. induction xs as [|x xs IH]; intros a; cbn.
  - lra.
  - rewrite (IH (a + x)), (IH (0 + x)). lra.
Qed.


Lemma scanHour_closed_by hd st d :
  Forall (closed_by hd) st.1 -> Forall (closed_by hd) (scanHour hd st d).1.
Proof.
  destruct st as [bp cur]. cbn [fst]. intros Hbp. unfold scanHour.
  assert (forall cp, Forall (closed_by hd) (bp ++ [closePeriod hd cp]))
    as Hpush.
  { intros cp. apply Forall_app. split; [exact Hbp|].
    constructor; [exists cp; reflexivity | constructor]. }
  destruct (isBusy hd d); destruct cur as [cp|]; cbn [fst]; try exact Hbp.
  - destruct (hour d <=? cur_end cp + 1)%nat; cbn [fst];
      [exact Hbp | apply Hpush].
  - destruct (1 <=? cur_end cp - cur_start cp)%nat; cbn [fst];
      [apply Hpush | exact Hbp].
Qed.

Lemma closedPeriods_closed_by hd : Forall (closed_by hd) (closedPeriods hd).
Proof.
  unfold closedPeriods.
  pose proof (fold_left_preserves (fun st => Forall (closed_by hd) st.1)
                (scanHour hd) hd (scanHour_closed_by hd) ([], None))
    as Hbp.
  destruct (fold_left (scanHour hd) hd ([], None)) as [bp cur].
  cbn [fst] in Hbp. specialize (Hbp (Forall_nil_2 _)).
  destruct cur as [cp|]; [|exact Hbp].
  destruct (1 <=? cur_end cp - cur_start cp)%nat; [|exact Hbp].
  apply Forall_app. split; [exact Hbp|].
  constructor; [exists cp; reflexivity | constructor].
Qed.


End PeriodFacts.

(** ** The segmenter, as a whole *)

Section SegmenterContract.
Import Aggregator BusyPeriods Segments.
Local Open Scope Q_scope.

Lemma filterb_cons {A : Type} (P : A -> bool) x l :
  JsArray.filterb P (x :: l)
  = if P x then x :: JsArray.filterb P l else JsArray.filterb P l.
Proof. reflexivity. Qed.

(** Inserting into a sorted array leaves the elements of one key in the
    order in which they were inserted. *)
Lemma sort_insert_stable {A : Type} (cmp : A -> A -> Q) (key : A -> Q)
    (P : A -> bool) (c : Q) x l :
  JsArray.orders_by cmp key ->
  (forall y, P y = true -> key y == c) ->
  StronglySorted (fun a b => key a <= key b) l ->
  JsArray.filterb P (JsArray.sort_insert cmp x l)
  = JsArray.filterb P l ++ (if P x then [x] else []).
Proof.
  intros Hord HP. induction l as [|y l IH]; intros Hs.
  - cbn. destruct (P x); reflexivity.
  - apply StronglySorted_cons in Hs as [Hy Hl]. cbn [JsArray.sort_insert].
    destruct (Qltb (cmp x y) 0) eqn:E.
    + apply Qltb_lt, Hord in E. rewrite (filterb_cons P x).
      destruct (P x) eqn:Px; [|rewrite app_nil_r; reflexivity].
      assert (JsArray.filterb P (y :: l) = []) as ->; [|reflexivity].
      apply filterb_all_false. apply HP in Px.
      assert (forall z, key y <= key z -> P z = false) as Hfar.
      { intros z Hz. destruct (P z) eqn:Pz; [|reflexivity].
        apply HP in Pz. lra. }
      constructor; [apply Hfar; lra|].
      eapply Forall_impl; [exact Hy|]. cbn. intros z Hz. apply Hfar, Hz.
    + rewrite !filterb_cons, (IH Hl). destruct (P y); reflexivity.
Qed.

(** [sort] is stable. *)
Lemma sort_stable {A : Type} (cmp : A -> A -> Q) (key : A -> Q)
    (P : A -> bool) (c : Q) l :
  JsArray.orders_by cmp key ->
  (forall y, P y = true -> key y == c) ->
  JsArray.filterb P (JsArray.sort cmp l) = JsArray.filterb P l.
Proof.
  intros Hord HP. unfold JsArray.sort.
  assert (forall acc,
            StronglySorted (fun a b => key a <= key b) acc ->
            JsArray.filterb P
              (fold_left (fun acc x => JsArray.sort_insert cmp x acc) l acc)
            = JsArray.filterb P acc ++ JsArray.filterb P l) as Hgen.
  { induction l as [|x l IH]; intros acc Hacc; cbn [fold_left].
    - rewrite app_nil_r. reflexivity.
    - rewrite IH by (apply sort_insert_sorted; assumption).
      rewrite (sort_insert_stable cmp key P c x acc Hord HP Hacc).
      rewrite filterb_cons, <- app_assoc.
      destruct (P x); reflexivity. }
  apply (Hgen []). constructor.
Qed.

(** The hours from [s] to [e] among the first [n] hours. *)
Lemma hours_between s e n :
  JsArray.filterb (fun h => ((s <=? h) && (h <=? e))%nat) (seq 0 n)
  = seq s (Nat.min n (e + 1) - s).
Proof.
  induction n as [|n IH]; [reflexivity|].
  rewrite seq_S. unfold JsArray.filterb in *.
  rewrite List.filter_app, IH. cbn [List.filter Nat.add].
  destruct (s <=? n)%nat eqn:Es; destruct (n <=? e)%nat eqn:Ee;
    cbn [andb];
    try apply Nat.leb_le in Es; try apply Nat.leb_le in Ee;
    try apply Nat.leb_gt in Es; try apply Nat.leb_gt in Ee.
  - replace (Nat.min (S n) (e + 1) - s)%nat
      with (S (Nat.min n (e + 1) - s)) by lia.
    rewrite seq_S. f_equal. f_equal. lia.
  - rewrite app_nil_r. f_equal. lia.
  - rewrite app_nil_r. f_equal. lia.
  - rewrite app_nil_r. f_equal. lia.
Qed.

(** The average score of a closed run is the mean of the scores of the
    hours from its start to its end. *)
Lemma closed_run_average hd p :
  map hour hd = seq 0 (length hd) ->
  p ∈ closedPeriods hd ->
  avgScore p = average (map score (periodData hd p))
  /\ map hour (periodData hd p) = seq (start p) (end_ p - start p + 1).
Proof.
  intros Hhours Hp.
  pose proof (closedPeriods_closed_by hd) as Hby.
  rewrite Forall_forall in Hby. destruct (Hby p Hp) as [cp Hcp].
  split; [rewrite Hcp; reflexivity|].
  pose proof (closedPeriods_runs hd Hhours) as Hruns.
  rewrite Forall_forall in Hruns.
  destruct (Hruns p Hp) as (Hspan & [Hall _] & _).
  assert (end_ p < length hd)%nat as Hend
    by (apply busyAt_in_day, Hall; lia).
  unfold periodData.
  rewrite <- (filterb_map hour
                (fun h => ((start p <=? h) && (h <=? end_ p))%nat)).
  rewrite Hhours, hours_between. f_equal. lia.
Qed.

(** C2. On a day of 24 buckets in the order of their hours, the scan
    extends the current run with a qualifying hour that is within an hour
    of its end, and at an hour that does not qualify closes it, keeping it
    when it spans two hours or more (end - start >= 1).  So the runs
    emitted are exactly the maximal runs of two or more consecutive
    qualifying hours, in the order of the clock and once each, with the
    mean score of their hours as average score; they are ranked by average
    score, highest first, runs of the same average staying in the order of
    the clock, and the first three of the ranking, at most, are
    returned. *)
Theorem busy_periods_ranked (hd : list RealTrafficDataPoint) :
  map hour hd = seq 0 24 ->
  (forall p, p ∈ closedPeriods hd ->
      (1 <= end_ p - start p)%nat
      /\ (forall h, (start p <= h <= end_ p)%nat -> busyAt hd h = true)
      /\ (start p = 0%nat \/ busyAt hd (start p - 1) = false)
      /\ busyAt hd (end_ p + 1) = false)
  /\ rankedPeriods hd ≡ₚ closedPeriods hd
  /\ StronglySorted (fun p q => avgScore q <= avgScore p) (rankedPeriods hd)
  /\ keptPeriods hd = take 3 (rankedPeriods hd)
  /\ topBusyPeriods hd
     = map (fun p => {| top_start := start p;
                        top_end := end_ p;
                        top_reason := reason p |})
           (keptPeriods hd)
  /\ (length (topBusyPeriods hd) <= 3)%nat
  /\ (forall t, t ∈ topBusyPeriods hd -> (1 <= top_end t - top_start t)%nat)
  /\ (forall s e,
        (s < e)%nat ->
        (forall h, (s <= h <= e)%nat -> busyAt hd h = true) ->
        (s = 0%nat \/ busyAt hd (s - 1) = false) ->
        busyAt hd (e + 1) = false ->
        exists p, p ∈ closedPeriods hd /\ start p = s /\ end_ p = e)
  /\ StronglySorted apart (closedPeriods hd)
  /\ (forall p, p ∈ closedPeriods hd ->
        avgScore p = average (map score (periodData hd p))
        /\ map hour (periodData hd p)
           = seq (start p) (end_ p - start p + 1))
  /\ (forall c,
        JsArray.filterb (fun p => Qeq_bool (avgScore p) c) (rankedPeriods hd)
        = JsArray.filterb (fun p => Qeq_bool (avgScore p) c)
                          (closedPeriods hd))
  /\ (forall busyPeriods cp d,
        isBusy hd d = true ->
        (hour d <= cur_end cp + 1)%nat ->
        scanHour hd (busyPeriods, Some cp) d
        = (busyPeriods,
           Some {| cur_start := cur_start cp;
                   cur_end := hour d;
                   cur_score := Math_max (cur_score cp) (score d);
                   cur_pedestrians :=
                     Math_max (cur_pedestrians cp) (pedestrians d);
                   cur_activity := Math_max (cur_activity cp) (activity d) |}))
  /\ (forall busyPeriods cp d,
        isBusy hd d = false ->
        scanHour hd (busyPeriods, Some cp) d
        = (if (1 <=? cur_end cp - cur_start cp)%nat
           then busyPeriods ++ [closePeriod hd cp]
           else busyPeriods,
           None)).
Proof.
  intros Hhours.
  pose proof (hours_upto_length hd 24 Hhours) as Hhours'.
  pose proof (closedPeriods_runs hd Hhours') as Hruns.
  rewrite Forall_forall in Hruns.
  assert (forall p, p ∈ closedPeriods hd -> (1 <= end_ p - start p)%nat)
    as Hspan by (intros p Hp; apply (Hruns p Hp)).
  split; [|split; [|split; [|split; [|split; [|split; [|split;
    [|split; [|split; [|split; [|split; [|split]]]]]]]]]]].
  - intros p Hp. destruct (Hruns p Hp) as (Hlen & [Hall Hbefore] & Hafter).
    auto.
  - apply sort_Permutation.
  - apply rankedPeriods_sorted.
  - reflexivity.
  - reflexivity.
  - unfold topBusyPeriods, keptPeriods, JsArray.slice_first.
    rewrite length_map, length_take. lia.
  - intros t Ht. unfold topBusyPeriods in Ht.
    apply list_elem_of_fmap in Ht as (p & -> & Hp). simpl.
    apply Hspan.
    apply (sort_elem_of (fun a b => avgScore b - avgScore a)).
    eapply (subseteq_take 3). exact Hp.
  - intros s e Hse Hall Hbefore Hafter.
    apply (closedPeriods_complete hd s e Hhours').
    split; [exact Hse|]. split; [split; assumption | exact Hafter].
  - apply closedPeriods_ordered. exact Hhours'.
  - intros p Hp. apply closed_run_average; assumption.
  - intros c. unfold rankedPeriods.
    apply (sort_stable _ (fun p => - avgScore p) _ (- c)).
    + intros a b. split; intros H; lra.
    + intros y Hy. apply Qeq_bool_iff in Hy. rewrite Hy. reflexivity.
  - intros bp cp d Hbusy Hnear. unfold scanHour. rewrite Hbusy.
    apply Nat.leb_le in Hnear. rewrite Hnear. reflexivity.
  - intros bp cp d Hbusy. unfold scanHour. rewrite Hbusy.
    destruct (1 <=? cur_end cp - cur_start cp)%nat; reflexivity.
Qed.

Lemma busy_periods_ranked_witness :
  (exists p, p ∈ closedPeriods Samples.day_five_runs
             /\ start p = 14%nat /\ end_ p = 16%nat)
  /\ (length (topBusyPeriods Samples.day_five_runs) <= 3)%nat
  /\ StronglySorted (fun p q => avgScore q <= avgScore p)
       (rankedPeriods Samples.day_five_runs).
Proof.
  assert (map hour Samples.day_five_runs = seq 0 24) as Hhours
    by (vm_compute; reflexivity).
  destruct (busy_periods_ranked Samples.day_five_runs Hhours)
    as (_ & _ & Hsorted & _ & _ & Hlen & _ & Hcomplete & _).
  split; [|split; [exact Hlen | exact Hsorted]].
  apply Hcomplete.
  - lia.
  - intros h Hh.
    assert (h = 14 \/ h = 15 \/ h = 16)%nat as [-> | [-> | ->]] by lia;
      vm_compute; reflexivity.
  - right. vm_compute. reflexivity.
  - vm_compute. reflexivity.
Defined.

(** The five runs of the sample day in the order of the clock, the
    isolated hour 18:00 being no run, their ranking, in which the two runs
    of average 9 stay in the order of the clock, and the three returned. *)
Example day_five_runs_periods :
  map (fun p => (start p, end_ p)) (closedPeriods Samples.day_five_runs)
  = [(2, 4); (7, 8); (10, 11); (14, 16); (20, 21)]%nat
  /\ map (fun p => (start p, end_ p)) (rankedPeriods Samples.day_five_runs)
     = [(10, 11); (20, 21); (2, 4); (14, 16); (7, 8)]%nat
  /\ map (fun t => (top_start t, top_end t))
         (topBusyPeriods Samples.day_five_runs)
     = [(10, 11); (20, 21); (2, 4)]%nat.
Proof. split; [|split]; vm_compute; reflexivity. Qed.
End SegmenterContract.

(** ** More on the filter *)

Section KalmanRangeFacts.
Import Kalman.
Local Open Scope Q_scope.

(** One step of the filter: the gain lies strictly between 0 and 1, so the
    estimate stays between the previous estimate and the measurement and
    the covariance drops below the measurement noise. *)
Lemma kalmanStep_bounds lo hi st acc z :
  lo <= st_x st <= hi -> 0 <= st_P st -> 0 < st_Q st -> 0 < st_R st ->
  lo <= z <= hi ->
  let r := kalmanStep (st, acc) z in
  lo <= st_x r.1 <= hi
  /\ 0 < st_P r.1 /\ st_P r.1 < st_R st /\ st_P r.1 < st_P st + st_Q st
  /\ st_Q r.1 = st_Q st /\ st_R r.1 = st_R st
  /\ r.2 = acc ++ [st_x r.1].
Proof.
  intros Hx HP HQ HR Hz. cbn.
  set (Pp := st_P st + st_Q st).
  assert (0 < Pp) as HPp by (subst Pp; lra).
  set (K := Pp / (Pp + st_R st)).
  assert (0 < K) as HK0 by (subst K; apply Qlt_shift_div_l; lra).
  assert (K < 1) as HK1 by (subst K; apply Qlt_shift_div_r; lra).
  assert ((1 - K) * Pp == st_R st * K) as HPnew.
  { subst K. field. lra. }
  split; [split; nra|].
  split; [nra|]. split; [rewrite HPnew; nra|]. split; [nra|].
  split; [reflexivity|]. split; reflexivity.
Qed.

Lemma kalman_fold_bounds lo hi l :
  Forall (fun z => lo <= z <= hi) l ->
  forall st acc,
    lo <= st_x st <= hi -> 0 <= st_P st -> 0 < st_Q st -> 0 < st_R st ->
    Forall (fun v => lo <= v <= hi) acc ->
    let r := fold_left kalmanStep l (st, acc) in
    lo <= st_x r.1 <= hi
    /\ 0 <= st_P r.1
    /\ st_Q r.1 = st_Q st /\ st_R r.1 = st_R st
    /\ Forall (fun v => lo <= v <= hi) r.2
    /\ (l <> [] -> 0 < st_P r.1 < st_R st).
Proof.
  induction 1 as [|z l Hz _ IH]; intros st acc Hx HP HQ HR Hacc.
  - cbn. split; [exact Hx|]. split; [exact HP|].
    split; [reflexivity|]. split; [reflexivity|].
    split; [exact Hacc | congruence].
  - cbn [fold_left].
    destruct (kalmanStep_bounds lo hi st acc z Hx HP HQ HR Hz)
      as (Hx' & HP' & HPR & _ & HQ' & HR' & Hacc').
    destruct (kalmanStep (st, acc) z) as [st' acc'] eqn:Estep.
    cbn [fst snd] in *.
    destruct (IH st' acc') as (Hx2 & HP2 & HQ2 & HR2 & Hacc2 & Hlast).
    + exact Hx'.
    + lra.
    + rewrite HQ'. exact HQ.
    + rewrite HR'. exact HR.
    + rewrite Hacc'. apply Forall_app. split; [exact Hacc|].
      constructor; [exact Hx' | constructor].
    + cbv zeta. split; [exact Hx2|]. split; [exact HP2|].
      split; [congruence|]. split; [congruence|].
      split; [exact Hacc2|]. intros _.
      destruct l as [|z' l]; [cbn; lra|].
      rewrite <- HR'. apply Hlast. discriminate.
Qed.

(** The covariance after a step does not depend on the estimate or on the
    measurement. *)
Lemma kalman_fold_covariance l l' :
  length l = length l' ->
  forall st st' acc acc',
    st_P st = st_P st' -> st_Q st = st_Q st' -> st_R st = st_R st' ->
    let r := fold_left kalmanStep l (st, acc) in
    let r' := fold_left kalmanStep l' (st', acc') in
    st_P r.1 = st_P r'.1 /\ st_Q r.1 = st_Q r'.1 /\ st_R r.1 = st_R r'.1.
Proof.
  revert l'. induction l as [|z l IH]; intros [|z' l'] Hlen; try discriminate.
  - intros st st' acc acc' HP HQ HR. cbn. auto.
  - intros st st' acc acc' HP HQ HR. cbn [fold_left].
    injection Hlen as Hlen.
    destruct (kalmanStep (st, acc) z) as [s1 a1] eqn:E1.
    destruct (kalmanStep (st', acc') z') as [s2 a2] eqn:E2.
    apply (IH l' Hlen).
    + injection E1 as <- _. injection E2 as <- _. cbn.
      rewrite HP, HQ, HR. reflexivity.
    + injection E1 as <- _. injection E2 as <- _. exact HQ.
    + injection E1 as <- _. injection E2 as <- _. exact HR.
Qed.

Lemma kalmanFilter_fold z0 l init :
  kalmanFilter (z0 :: l) init
  = let r := fold_left kalmanStep (z0 :: l)
               ({| st_x := default z0 (init ≫= init_x);
                   st_P := default 1 (init ≫= init_P);
                   st_Q := default 0.01 (init ≫= init_Q);
                   st_R := default 0.1 (init ≫= init_R) |}, []) in
    {| smoothed := r.2; predicted := st_x r.1; state := r.1 |}.
Proof.
  unfold kalmanFilter. cbv zeta.
  destruct (fold_left kalmanStep _ _) as [st sm]. reflexivity.
Qed.

(** X15. On a series that is not empty, with an initial covariance that is
    not negative and noises that are positive (the defaults are), every
    smoothed value and the prediction lie within any bounds that hold the
    measurements and the initial estimate, and the final covariance is
    positive and below the measurement noise, both noises being returned
    unchanged. *)
Theorem kalman_estimates_in_range ms init lo hi :
  ms <> [] ->
  Forall (fun z => lo <= z <= hi) ms ->
  (forall x, init ≫= init_x = Some x -> lo <= x <= hi) ->
  0 <= default 1 (init ≫= init_P) ->
  0 < default 0.01 (init ≫= init_Q) ->
  0 < default 0.1 (init ≫= init_R) ->
  let r := kalmanFilter ms init in
  Forall (fun v => lo <= v <= hi) (smoothed r)
  /\ lo <= predicted r <= hi
  /\ 0 < st_P (state r) < st_R (state r)
  /\ st_Q (state r) = default 0.01 (init ≫= init_Q)
  /\ st_R (state r) = default 0.1 (init ≫= init_R).
Proof.
  intros Hne Hms Hx HP HQ HR.
  destruct ms as [|z0 l]; [congruence|].
  rewrite kalmanFilter_fold. cbv zeta. cbn [smoothed predicted state].
  set (st0 := {| st_x := default z0 (init ≫= init_x);
                 st_P := default 1 (init ≫= init_P);
                 st_Q := default 0.01 (init ≫= init_Q);
                 st_R := default 0.1 (init ≫= init_R) |}).
  destruct (kalman_fold_bounds lo hi (z0 :: l) Hms st0 [])
    as (Hx' & _ & HQ' & HR' & Hacc & HPl); try assumption.
  - subst st0. cbn [st_x].
    destruct (init ≫= init_x) as [x|]; cbn [default].
    + apply Hx. reflexivity.
    + apply Forall_cons in Hms as [Hz0 _]. exact Hz0.
  - constructor.
  - cbv zeta in *. split; [exact Hacc|]. split; [exact Hx'|].
    split; [rewrite HR'; apply HPl; discriminate|].
    split; assumption.
Qed.

Lemma kalman_estimates_in_range_witness :
  40 <= predicted (kalmanFilter [40; 60; 50] None) <= 60.
Proof.
  apply (kalman_estimates_in_range [40; 60; 50] None 40 60).
  - discriminate.
  - repeat constructor; cbn; lra.
  - intros x Hx. discriminate.
  - cbn. lra.
  - cbn. lra.
  - cbn. lra.
Defined.

(** X16. The final covariance and the noises depend on the number of
    measurements only: two series of the same length filtered from initial
    states of the same covariance and noises end with the same ones,
    whatever the measurements and the initial estimates. *)
Theorem kalman_covariance_ignores_data ms ms' init init' :
  length ms = length ms' ->
  init ≫= init_P = init' ≫= init_P ->
  init ≫= init_Q = init' ≫= init_Q ->
  init ≫= init_R = init' ≫= init_R ->
  st_P (state (kalmanFilter ms init)) = st_P (state (kalmanFilter ms' init'))
  /\ st_Q (state (kalmanFilter ms init))
     = st_Q (state (kalmanFilter ms' init'))
  /\ st_R (state (kalmanFilter ms init))
     = st_R (state (kalmanFilter ms' init')).
Proof.
  intros Hlen HP HQ HR.
  destruct ms as [|z0 l], ms' as [|z0' l']; try discriminate.
  - cbn. auto.
  - rewrite !kalmanFilter_fold. cbv zeta. cbn [state].
    apply kalman_fold_covariance; [exact Hlen | | |]; cbn.
    + rewrite HP. reflexivity.
    + rewrite HQ. reflexivity.
    + rewrite HR. reflexivity.
Qed.

Lemma kalman_covariance_ignores_data_witness :
  st_P (state (kalmanFilter [40; 60; 50] None))
  = st_P (state (kalmanFilter [1; 2; 3] None)).
Proof.
  apply (kalman_covariance_ignores_data [40; 60; 50] [1; 2; 3] None None);
    reflexivity.
Defined.
End KalmanRangeFacts.

(** ** More on the smoother *)

Section SmootherFacts.
Import Kalman Smoother.
Local Open Scope Q_scope.

(** The filter the smoother runs: the defaults, no initial state. *)
Lemma kalmanFilter_range ms lo hi :
  ms <> [] ->
  Forall (fun z => lo <= z <= hi) ms ->
  Forall (fun v => lo <= v <= hi) (smoothed (kalmanFilter ms None))
  /\ lo <= predicted (kalmanFilter ms None) <= hi.
Proof.
  intros Hne Hms. destruct ms as [|z0 l]; [congruence|].
  rewrite kalmanFilter_cons. cbv zeta. cbn [smoothed predicted].
  destruct (kalman_fold_bounds lo hi (z0 :: l) Hms
              {| st_x := z0; st_P := 1; st_Q := 0.01; st_R := 0.1 |} [])
    as (Hx & _ & _ & _ & Hacc & _); cbn; try lra.
  - apply Forall_cons in Hms as [Hz0 _]. exact Hz0.
  - constructor.
  - split; assumption.
Qed.

(** A non-empty list of numbers has a least element and an upper bound. *)
Lemma list_bounds (l : list Q) :
  l <> [] ->
  exists lo hi, lo ∈ l /\ Forall (fun x => lo <= x <= hi) l.
Proof.
  induction l as [|x l IH]; [congruence|]. intros _.
  destruct l as [|y l].
  - exists x, x. split; [left|]. repeat constructor; lra.
  - destruct IH as (lo & hi & Hlo & Hall); [discriminate|].
    exists (Math_min x lo), (Math_max x hi). split.
    + unfold Math_min. destruct (Qltb lo x); [right; exact Hlo | left].
    + constructor; [split; minmax|].
      eapply Forall_impl; [exact Hall|]. cbn. intros z [Hz1 Hz2].
      split; minmax.
Qed.

(** Where a point of the output comes from. *)
Lemma smoothed_point finish hd o :
  o ∈ smoothedData (smoothAndPredictWith finish hd) ->
  exists d,
    d ∈ sortedData hd /\ s_hour o = hour d /\ s_raw o = value d
    /\ (o = keep d
        \/ (Qltb 0 (value d) = true
            /\ (2 <= length (hoursWithData hd))%nat
            /\ s_value o ∈ smoothed (kalmanFilter (series hd) None))).
Proof.
  unfold smoothAndPredictWith.
  destruct (length (hoursWithData hd) <? 2)%nat eqn:Hlen;
    cbn [smoothedData]; intros Ho;
    apply list_elem_of_fmap in Ho as (d & -> & Hd); exists d.
  - split; [exact Hd|]. split; [reflexivity|]. split; [reflexivity|].
    left. reflexivity.
  - apply Nat.ltb_ge in Hlen.
    split; [exact Hd|].
    destruct (Qltb 0 (value d)) eqn:Epos;
      [|split; [reflexivity|]; split; [reflexivity|]; left; reflexivity].
    destruct (JsArray.findIndex _ (hoursWithData hd)) as [i|];
      [|split; [reflexivity|]; split; [reflexivity|]; left; reflexivity].
    destruct (smoothed (kalmanFilter (series hd) None) !! i) as [v|] eqn:Ev;
      [|split; [reflexivity|]; split; [reflexivity|]; left; reflexivity].
    split; [reflexivity|]. split; [reflexivity|]. right.
    split; [reflexivity|]. split; [exact Hlen|]. cbn [s_value].
    eapply list_elem_of_lookup_2. exact Ev.
Qed.

Lemma series_measured hd v :
  v ∈ series hd -> exists d, d ∈ hd /\ value d = v /\ 0 < v.
Proof.
  unfold series. intros Hv.
  apply list_elem_of_fmap in Hv as (d & -> & Hd).
  pose proof (hoursWithData_measured hd d Hd) as Hpos.
  apply Qltb_lt in Hpos.
  apply filterb_elem_of in Hd as [Hd _].
  rewrite sortedData_Permutation in Hd. exists d. auto.
Qed.

Lemma smoothed_values_range finish hd o lo hi :
  (forall d, d ∈ hd -> 0 < value d -> lo <= value d <= hi) ->
  o ∈ smoothedData (smoothAndPredictWith finish hd) ->
  0 < s_raw o -> lo <= s_value o <= hi.
Proof.
  intros Hrange Ho Hraw.
  destruct (smoothed_point finish hd o Ho)
    as (d & Hd & _ & Hr & [-> | (_ & Hlen & Hv)]).
  - cbn in *. apply Hrange; [|exact Hraw].
    rewrite sortedData_Permutation in Hd. exact Hd.
  - destruct (kalmanFilter_range (series hd) lo hi) as [Hall _].
    + intros Hnil. apply (f_equal length) in Hnil.
      rewrite series_length in Hnil. cbn in Hnil. lia.
    + apply Forall_forall. intros v Hin.
      destruct (series_measured hd v Hin) as (d' & Hd' & <- & Hpos).
      apply Hrange; assumption.
    + rewrite Forall_forall in Hall. apply Hall. exact Hv.
Qed.

(** X17. The smoother changes measured hours only, and keeps them within
    the range of the measured values: an hour whose raw value is not
    positive is passed through, and the smoothed value of a measured hour
    lies within any bounds that hold the measured values; it is positive
    in particular. *)
Theorem smoothing_stays_in_range f hd o :
  f = smoothAndPredictPedestrians \/ f = smoothAndPredictScores ->
  o ∈ smoothedData (f hd) ->
  (s_raw o <= 0 -> s_value o = s_raw o)
  /\ (forall lo hi,
        (forall d, d ∈ hd -> 0 < value d -> lo <= value d <= hi) ->
        0 < s_raw o -> lo <= s_value o <= hi)
  /\ (0 < s_raw o -> 0 < s_value o).
Proof.
  intros Hf Ho.
  assert (exists finish, f = smoothAndPredictWith finish) as [finish ->].
  { destruct Hf as [-> | ->]; eexists; reflexivity. }
  clear Hf. split; [|split].
  - intros Hraw.
    destruct (smoothed_point finish hd o Ho)
      as (d & _ & _ & Hr & [-> | (Hpos & _)]); [reflexivity|].
    apply Qltb_lt in Hpos. rewrite Hr in Hraw. lra.
  - intros lo hi Hrange Hraw.
    exact (smoothed_values_range finish hd o lo hi Hrange Ho Hraw).
  - intros Hraw.
    destruct (smoothed_point finish hd o Ho)
      as (d & Hd & _ & Hr & [-> | (Hpos & Hlen & Hv)]);
      [cbn [keep s_value s_raw] in *; exact Hraw|].
    destruct (list_bounds (series hd)) as (lo & hi & Hlo & Hall).
    { intros Hnil. apply (f_equal length) in Hnil.
      rewrite series_length in Hnil. cbn in Hnil. lia. }
    destruct (series_measured hd lo Hlo) as (_ & _ & _ & Hlopos).
    destruct (kalmanFilter_range (series hd) lo hi) as [Hsm _];
      [|exact Hall|].
    { intros Hnil. rewrite Hnil in Hlo. apply elem_of_nil in Hlo.
      exact Hlo. }
    rewrite Forall_forall in Hsm. specialize (Hsm _ Hv). lra.
Qed.

Lemma smoothing_stays_in_range_witness :
  Forall (fun o => 0 < s_raw o -> 40 <= s_value o <= 60)
         (smoothedData
            (smoothAndPredictPedestrians
               [ {| hour := 0; value := 40 |}; {| hour := 1; value := 0 |};
                 {| hour := 2; value := 0 |}; {| hour := 3; value := 60 |} ])).
Proof.
  apply Forall_forall. intros o Ho Hraw.
  refine (proj1 (proj2 (smoothing_stays_in_range
                          smoothAndPredictPedestrians _ o
                          (or_introl eq_refl) Ho)) 40 60 _ Hraw).
  intros d Hd Hpos.
  repeat (apply elem_of_cons in Hd as [-> | Hd]; [cbn in *; lra|]).
  apply elem_of_nil in Hd. contradiction.
Defined.

(** The output follows the input sorted by hour, point by point. *)
Lemma smoothed_follows_sorted finish hd :
  map s_hour (smoothedData (smoothAndPredictWith finish hd))
  = map hour (sortedData hd)
  /\ map s_raw (smoothedData (smoothAndPredictWith finish hd))
     = map value (sortedData hd).
Proof.
  destruct (smoothedData_unfold finish hd) as (g & -> & Hg & _).
  rewrite <- !list_fmap_compose.
  split; apply list_fmap_ext; intros i d _; cbn; apply Hg.
Qed.

(** X18. The smoother returns one point per input point, in the order of
    the hours; every point carries the hour and, as its raw value, the
    value of its input point. *)
Theorem smoother_output_shape f hd :
  f = smoothAndPredictPedestrians \/ f = smoothAndPredictScores ->
  map (fun o => (s_hour o, s_raw o)) (smoothedData (f hd))
  = map (fun d => (hour d, value d)) (sortedData hd)
  /\ sortedData hd ≡ₚ hd
  /\ StronglySorted (fun a b => (a <= b)%nat)
       (map s_hour (smoothedData (f hd)))
  /\ length (smoothedData (f hd)) = length hd.
Proof.
  intros Hf.
  assert (exists finish, f = smoothAndPredictWith finish) as [finish ->].
  { destruct Hf as [-> | ->]; eexists; reflexivity. }
  clear Hf.
  destruct (smoothedData_unfold finish hd) as (g & Hmap & Hg & _).
  destruct (smoothed_follows_sorted finish hd) as [Hhours _].
  split; [|split; [apply sortedData_Permutation|split]].
  - rewrite Hmap, <- list_fmap_compose.
    apply list_fmap_ext. intros i d _. cbn.
    destruct (Hg d) as [-> ->]. reflexivity.
  - rewrite Hhours.
    assert (StronglySorted (fun a b => of_nat (hour a) <= of_nat (hour b))
              (sortedData hd)) as Hs.
    { apply (sort_sorted _ (fun d => of_nat (hour d))).
      intros a b. split; intros H; lra. }
    clear Hmap Hhours. induction Hs as [|d l _ IH Hd]; [constructor|].
    cbn. constructor; [exact IH|].
    apply Forall_fmap. eapply Forall_impl; [exact Hd|].
    cbn. intros e He. unfold of_nat in He.
    rewrite <- Zle_Qle in He. lia.
  - rewrite Hmap, length_map.
    apply Permutation_length, sortedData_Permutation.
Qed.

Lemma smoother_output_shape_witness :
  length (smoothedData
            (smoothAndPredictScores
               [ {| hour := 3; value := 60 |}; {| hour := 0; value := 40 |} ]))
  = 2%nat.
Proof.
  apply (smoother_output_shape smoothAndPredictScores). right. reflexivity.
Defined.

Lemma forecast_nonneg finish hd :
  (forall p, 0 <= finish p) ->
  0 <= nextHourPrediction (smoothAndPredictWith finish hd).
Proof.
  intros Hfinish. unfold smoothAndPredictWith.
  destruct (length (hoursWithData hd) <? 2)%nat; cbn [nextHourPrediction];
    [|apply Hfinish].
  destruct (last (hoursWithData hd)) as [d|] eqn:Hlast; [|lra].
  apply last_Some_elem_of in Hlast.
  apply hoursWithData_measured, Qltb_lt in Hlast. lra.
Qed.

(** X19. The forecast is never negative. It is 0 without a measured hour
    and the value of the measured hour, as it is, when there is only one;
    with two measured hours the forecast of the score lies within any
    bounds that hold the two values. *)
Theorem forecast_of_short_series f hd :
  f = smoothAndPredictPedestrians \/ f = smoothAndPredictScores ->
  0 <= nextHourPrediction (f hd)
  /\ (series hd = [] -> nextHourPrediction (f hd) = 0)
  /\ (forall v, series hd = [v] -> nextHourPrediction (f hd) = v)
  /\ (forall a b lo hi,
        series hd = [a; b] -> lo <= a <= hi -> lo <= b <= hi ->
        lo <= nextHourPrediction (smoothAndPredictScores hd) <= hi).
Proof.
  intros Hf.
  assert (exists finish,
            f = smoothAndPredictWith finish /\ forall p, 0 <= finish p)
    as (finish & -> & Hfinish).
  { destruct Hf as [-> | ->]; eexists; (split; [reflexivity|]);
      intros p; cbv beta; minmax. }
  clear Hf. split; [apply forecast_nonneg; exact Hfinish|].
  split; [|split].
  - intros Hser. unfold smoothAndPredictWith.
    assert (hoursWithData hd = []) as ->.
    { unfold series in Hser. destruct (hoursWithData hd); [reflexivity|].
      discriminate. }
    reflexivity.
  - intros v Hser. unfold smoothAndPredictWith.
    unfold series in Hser.
    destruct (hoursWithData hd) as [|d [|d' l]]; try discriminate.
    injection Hser as <-. reflexivity.
  - intros a b lo hi Hser Ha Hb.
    assert (length (hoursWithData hd) = 2%nat) as Hlen
      by (rewrite <- series_length, Hser; reflexivity).
    destruct (kalmanFilter_range (series hd) lo hi) as [_ Hpred].
    { rewrite Hser. discriminate. }
    { rewrite Hser. repeat constructor; lra. }
    assert (0 < a) as Hpos.
    { destruct (series_measured hd a) as (_ & _ & _ & H); [|exact H].
      rewrite Hser. left. }
    unfold smoothAndPredictScores, smoothAndPredictWith.
    rewrite Hlen. cbn [Nat.ltb Nat.leb nextHourPrediction].
    unfold blendedPrediction. rewrite Hlen. cbn [Nat.leb].
    set (p := predicted (kalmanFilter (series hd) None)) in *.
    clearbody p. split; minmax.
Qed.

Lemma forecast_of_short_series_witness :
  nextHourPrediction
    (smoothAndPredictPedestrians
       [ {| hour := 0; value := 0 |}; {| hour := 1; value := 12.5 |} ])
  = 12.5.
Proof.
  apply (forecast_of_short_series smoothAndPredictPedestrians);
    [left; reflexivity | vm_compute; reflexivity].
Defined.
End SmootherFacts.

(** ** More on the clusterer *)

Section NearestFacts.
Import KMeans Geometry.
Local Open Scope Q_scope.

Lemma foldM_app {A S : Type} (f : S -> A -> Outcome S) s l1 l2 :
  foldM f s (l1 ++ l2) = foldM f s l1 ≫= (fun s' => foldM f s' l2).
Proof.
  revert s. induction l1 as [|a l1 IH]; intros s; cbn; [reflexivity|].
  destruct (f s a) as [s'| |]; cbn; [apply IH | reflexivity | reflexivity].
Qed.

Lemma euclideanDistance_squared a b :
  length a = length b ->
  euclideanDistance a b = Returned (Sqrt (squaredDistance a b)).
Proof.
  intros Hlen. unfold euclideanDistance.
  rewrite Hlen, Nat.eqb_refl. reflexivity.
Qed.

Lemma squares_from (l : list (Q * Q)) acc :
  fold_left (fun sum '(val, bi) => sum + (val - bi) ^ 2) l acc
  == acc + fold_left (fun sum '(val, bi) => sum + (val - bi) ^ 2) l 0.
Proof.
  revert acc. induction l as [|[x y] l IH]; intros acc; cbn [fold_left].
  - lra.
  - rewrite (IH (acc + (x - y) ^ 2)), (IH (0 + (x - y) ^ 2)). lra.
Qed.

Lemma squaredDistance_cons x y a b :
  squaredDistance (x :: a) (y :: b) == (x - y) ^ 2 + squaredDistance a b.
Proof.
  unfold squaredDistance. cbn [zip zip_with fold_left].
  rewrite squares_from. lra.
Qed.

Lemma square_nonneg (x : Q) : 0 <= x ^ 2.
Proof. cbn. nra. Qed.

Lemma squaredDistance_nonneg a b : 0 <= squaredDistance a b.
Proof.
  revert b. induction a as [|x a IH]; intros [|y b];
    try (unfold squaredDistance; cbn; lra).
  rewrite squaredDistance_cons.
  pose proof (square_nonneg (x - y)). pose proof (IH b). lra.
Qed.

(** X20. The quantity under the square root of a distance is never
    negative and is the same in both directions; it is 0 for vectors whose
    components are equal, and no squared difference of two components
    exceeds it. *)
Theorem distance_is_symmetric a b d :
  euclideanDistance a b = Returned d ->
  d = Sqrt (squaredDistance a b)
  /\ 0 <= squaredDistance a b
  /\ squaredDistance a b == squaredDistance b a
  /\ (Forall2 Qeq a b -> squaredDistance a b == 0)
  /\ (forall i x y,
        a !! i = Some x -> b !! i = Some y ->
        (x - y) ^ 2 <= squaredDistance a b).
Proof.
  intros Hd.
  assert (length a = length b) as Hlen.
  { destruct (decide (length a = length b)) as [H|H]; [exact H|].
    rewrite (euclideanDistance_throws a b H) in Hd. discriminate. }
  rewrite (euclideanDistance_squared a b Hlen) in Hd.
  injection Hd as <-. split; [reflexivity|].
  split; [apply squaredDistance_nonneg|].
  revert b Hlen. induction a as [|x a IH]; intros [|y b] Hlen;
    try discriminate.
  - split; [reflexivity|]. split; [reflexivity|].
    intros i x y Hx. rewrite lookup_nil in Hx. discriminate.
  - injection Hlen as Hlen. destruct (IH b Hlen) as (Hsym & Hzero & Hpart).
    pose proof (square_nonneg (x - y)) as Hsq.
    pose proof (squaredDistance_nonneg a b) as Hrest.
    split; [|split].
    + rewrite !squaredDistance_cons, Hsym. cbn. ring.
    + intros H. apply Forall2_cons in H as [Hxy Hab].
      rewrite squaredDistance_cons, (Hzero Hab), Hxy. cbn. ring.
    + intros i x' y' Hx Hy. rewrite squaredDistance_cons.
      destruct i as [|i]; cbn in Hx, Hy.
      * injection Hx as <-. injection Hy as <-. lra.
      * specialize (Hpart i x' y' Hx Hy). lra.
Qed.

Lemma distance_is_symmetric_witness :
  squaredDistance [-40; 0; 20; 9] [-70; 0; 0; 2.5]
  == squaredDistance [-70; 0; 0; 2.5] [-40; 0; 20; 9].
Proof.
  apply (distance_is_symmetric [-40; 0; 20; 9] [-70; 0; 0; 2.5]
           (Sqrt (squaredDistance [-40; 0; 20; 9] [-70; 0; 0; 2.5]))).
  reflexivity.
Defined.

(** The scan of the centroids keeps the first of the nearest ones. *)
Lemma nearest_scan f cs :
  Forall (fun c => length c = length f) cs ->
  exists minDist idx,
    foldM
      (fun '(minDist, nearestCluster) '(cIdx, centroid) =>
         dist ← euclideanDistance f centroid;
         Returned (if dist_ltb dist minDist then (dist, cIdx)
                   else (minDist, nearestCluster)))
      (Infinity, 0%nat)
      (imap (fun cIdx centroid => (cIdx, centroid)) cs)
    = Returned (minDist, idx)
    /\ ((cs = [] /\ minDist = Infinity /\ idx = 0%nat)
        \/ exists c,
             cs !! idx = Some c
             /\ minDist = Sqrt (squaredDistance f c)
             /\ forall j c',
                  cs !! j = Some c' ->
                  squaredDistance f c <= squaredDistance f c'
                  /\ ((j < idx)%nat ->
                      squaredDistance f c < squaredDistance f c')).
Proof.
  induction cs as [|x cs IH] using rev_ind; intros Hall.
  - exists Infinity, 0%nat. split; [reflexivity|]. left. auto.
  - apply Forall_app in Hall as [Hcs Hx].
    apply Forall_cons in Hx as [Hx _].
    destruct (IH Hcs) as (md & idx & Hfold & Hbest).
    rewrite imap_app, foldM_app, Hfold. cbn.
    rewrite (euclideanDistance_squared f x) by congruence. cbn.
    rewrite Nat.add_0_r.
    destruct Hbest as [(-> & -> & ->)|(c & Hc & -> & Hleast)].
    + cbn. eexists _, _. split; [reflexivity|]. right.
      exists x. split; [reflexivity|]. split; [reflexivity|].
      intros j c' Hj. destruct j as [|j]; [|discriminate].
      injection Hj as <-. split; [lra | lia].
    + cbn [dist_ltb].
      apply lookup_lt_Some in Hc as Hidx.
      destruct (Qltb (squaredDistance f x) (squaredDistance f c)) eqn:E.
      * apply Qltb_lt in E. eexists _, _. split; [reflexivity|]. right.
        exists x. split; [apply list_lookup_middle; reflexivity|].
        split; [reflexivity|].
        intros j c' Hj.
        destruct (decide (j < length cs)%nat) as [Hlt|Hge].
        -- rewrite lookup_app_l in Hj by exact Hlt.
           destruct (Hleast j c' Hj) as [Hle _]. split; intros; lra.
        -- rewrite lookup_app_r in Hj by lia.
           destruct (j - length cs)%nat as [|n] eqn:En; [|discriminate].
           injection Hj as <-. split; [lra | lia].
      * apply Qltb_ge in E. eexists _, _. split; [reflexivity|]. right.
        exists c. split; [rewrite lookup_app_l by exact Hidx; exact Hc|].
        split; [reflexivity|].
        intros j c' Hj.
        destruct (decide (j < length cs)%nat) as [Hlt|Hge].
        -- rewrite lookup_app_l in Hj by exact Hlt. exact (Hleast j c' Hj).
        -- rewrite lookup_app_r in Hj by lia.
           destruct (j - length cs)%nat as [|n] eqn:En; [|discriminate].
           injection Hj as <-. split; [exact E | lia].
Qed.

(** X21. Among centroids of the length of the feature vector, the nearest
    cluster is the first of those at the least distance: no centroid is
    nearer, and every centroid before it is strictly farther. *)
Theorem nearest_is_first_least f cs :
  cs <> [] ->
  Forall (fun c => length c = length f) cs ->
  exists n c,
    nearestCluster f cs = Returned n
    /\ cs !! n = Some c
    /\ forall j c',
         cs !! j = Some c' ->
         squaredDistance f c <= squaredDistance f c'
         /\ ((j < n)%nat -> squaredDistance f c < squaredDistance f c').
Proof.
  intros Hne Hall. unfold nearestCluster.
  destruct (nearest_scan f cs Hall)
    as (md & idx & -> & [(Hnil & _)|(c & Hc & _ & Hleast)]);
    [contradiction|].
  exists idx, c. split; [reflexivity|]. split; assumption.
Qed.

Lemma nearest_is_first_least_witness :
  let cs := [[-70; 0; 0; 2.5]; [-40; 0; 20; 9]; [-40; 0; 20; 9]] in
  exists n c, nearestCluster [-40; 0; 20; 9] cs = Returned n
              /\ cs !! n = Some c.
Proof.
  intros cs.
  destruct (nearest_is_first_least [-40; 0; 20; 9] cs)
    as (n & c & Hn & Hc & _).
  - discriminate.
  - repeat constructor.
  - exists n, c. split; assumption.
Defined.

(** X22. For no cluster at all the clusterer returns nothing when no hour
    has data, and throws on the first hour that has: there is no cluster
    to push it onto. *)
Theorem zero_clusters_throw hd draws :
  kMeansClustering hd 0 draws
  = match validData hd with
    | [] => Returned []
    | _ :: _ => Thrown "TypeError: clusters[nearestCluster] is undefined"
    end.
Proof.
  unfold kMeansClustering.
  destruct hd as [|d0 hd]; [reflexivity|].
  cbn [length Nat.eqb]. fold (validData (d0 :: hd)).
  destruct (validData (d0 :: hd)) as [|d vd]; reflexivity.
Qed.
End NearestFacts.

(** ** What the clusterer returns *)

Section ClusterShapeFacts.
Import KMeans.
Local Open Scope Q_scope.

(** Where a result of the clusterer comes from. *)
Lemma kMeansClustering_inv hd k draws results :
  kMeansClustering hd k draws = Returned results ->
  results = []
  \/ exists centroids0 clusters centroids,
       initCentroids k (validData hd) ∅ draws = Returned centroids0
       /\ iterate maxIterations k (validData hd) centroids0 [] true
          = Returned (clusters, centroids)
       /\ results
          = imap
              (fun idx cluster =>
                 {| clusterId := clusterId cluster;
                    label := labelOf idx;
                    hours := hours cluster;
                    centroid := centroid cluster |})
              (JsArray.sort
                 (fun a b => coord 3 (centroid a) - coord 3 (centroid b))
                 (imap
                    (fun cIdx hours =>
                       {| clusterId := cIdx;
                          label := EmptyString;
                          hours := JsArray.sort JsArray.by_number hours;
                          centroid := default [] (centroids !! cIdx) |})
                    clusters)).
Proof.
  unfold kMeansClustering.
  destruct (length hd =? 0)%nat; [intros [= <-]; left; reflexivity|].
  fold (validData hd).
  destruct (length (validData hd) <? k)%nat;
    [intros [= <-]; left; reflexivity|].
  destruct (initCentroids k (validData hd) ∅ draws) as [centroids0| |]
    eqn:Einit; [|discriminate|discriminate].
  rewrite bind_returned.
  destruct (iterate maxIterations k (validData hd) centroids0 [] true)
    as [[clusters centroids]| |] eqn:Eiter; [|discriminate|discriminate].
  rewrite bind_returned. intros [= <-]. right.
  exists centroids0, clusters, centroids.
  split; [reflexivity|]. split; [exact Eiter | reflexivity].
Qed.

Lemma imap_clusterId {A : Type} (g : nat -> A -> ClusterResult) l :
  (forall i x, clusterId (g i x) = i) ->
  map clusterId (imap g l) = seq 0 (length l).
Proof.
  intros Hg. apply list_eq. intros i.
  rewrite list_lookup_fmap, list_lookup_imap.
  destruct (l !! i) as [x|] eqn:Hi; cbn.
  - rewrite Hg. symmetry. apply lookup_seq. split; [reflexivity|].
    eapply lookup_lt_Some. exact Hi.
  - symmetry. apply lookup_ge_None. rewrite length_seq.
    apply lookup_ge_None. exact Hi.
Qed.

(** X23. The clusters returned carry the identifiers 0 to n - 1 once each,
    n being their number; the cluster at rank [i] has the label of that
    rank, every cluster from rank 2 on being "busy"; and the hours of a
    cluster are in ascending order. *)
Theorem clusters_are_numbered_and_sorted hd k draws results :
  kMeansClustering hd k draws = Returned results ->
  map clusterId results ≡ₚ seq 0 (length results)
  /\ (forall i c, results !! i = Some c ->
        label c = labelOf i
        /\ ((2 <= i)%nat -> label c = "busy")
        /\ StronglySorted (fun a b => (a <= b)%nat) (hours c)).
Proof.
  intros Hres.
  destruct (kMeansClustering_inv hd k draws results Hres)
    as [->|(centroids0 & clusters & centroids & _ & _ & ->)].
  { split; [reflexivity|]. intros i c Hi. discriminate. }
  set (mk := fun cIdx hours =>
               {| clusterId := cIdx;
                  label := EmptyString;
                  hours := JsArray.sort JsArray.by_number hours;
                  centroid := default [] (centroids !! cIdx) |}).
  set (cmp := fun a b => coord 3 (centroid a) - coord 3 (centroid b)).
  split.
  - rewrite length_imap, sort_length, length_imap.
    rewrite <- (imap_clusterId mk clusters) by reflexivity.
    rewrite <- (fmap_Permutation clusterId _ _
                  (sort_Permutation cmp (imap mk clusters))).
    match goal with
    | |- ?l ≡ₚ ?l' => assert (l = l') as ->; [|reflexivity]
    end.
    apply list_eq. intros i.
    rewrite !list_lookup_fmap, list_lookup_imap.
    destruct (JsArray.sort cmp (imap mk clusters) !! i); reflexivity.
  - intros i c Hi. rewrite list_lookup_imap in Hi.
    destruct (JsArray.sort cmp (imap mk clusters) !! i) as [c0|] eqn:Hc0;
      [|discriminate].
    injection Hi as <-. cbn [label hours].
    split; [reflexivity|]. split.
    + intros Hrank. destruct i as [|[|i]]; [lia | lia | reflexivity].
    + apply list_elem_of_lookup_2, sort_elem_of in Hc0.
      apply elem_of_lookup_imap in Hc0 as (j & h & -> & _).
      cbn [mk hours].
      assert (StronglySorted (fun a b => of_nat a <= of_nat b)
                (JsArray.sort JsArray.by_number h)) as Hs.
      { apply (sort_sorted _ of_nat). intros a b. unfold JsArray.by_number.
        split; intros H; lra. }
      eapply StronglySorted_weaken; [|exact Hs].
      intros a b Hab. unfold of_nat in Hab.
      rewrite <- Zle_Qle in Hab. lia.
Qed.

Lemma clusters_are_numbered_and_sorted_witness :
  exists results,
    kMeansClustering Samples.sample_rows 3 Samples.sample_draws
    = Returned results
    /\ map clusterId results ≡ₚ seq 0 (length results).
Proof.
  destruct (kMeansClustering Samples.sample_rows 3 Samples.sample_draws)
    as [results| |] eqn:E;
    [|vm_compute in E; discriminate|vm_compute in E; discriminate].
  exists results. split; [reflexivity|].
  apply (clusters_are_numbered_and_sorted _ _ _ _ E).
Defined.

Lemma foldM_preserves {A S : Type} (f : S -> A -> Outcome S)
    (I : S -> Prop) l :
  (forall s a s', I s -> f s a = Returned s' -> I s') ->
  forall s s', I s -> foldM f s l = Returned s' -> I s'.
Proof.
  intros Hstep. induction l as [|a l IH]; intros s s' Hs; cbn.
  - intros [= <-]. exact Hs.
  - destruct (f s a) as [s1| |] eqn:E; cbn; [|discriminate|discriminate].
    apply IH. eapply Hstep; eassumption.
Qed.

Lemma find_elem_of {A : Type} (p : A -> bool) l x :
  JsArray.find p l = Some x -> x ∈ l.
Proof.
  induction l as [|y l IH]; cbn; [discriminate|].
  destruct (p y); [intros [= <-]; left | intros H; right; auto].
Qed.

(** The first centroids are feature vectors of valid hours. *)
Lemma initCentroids_features k vd used draws cs :
  initCentroids k vd used draws = Returned cs ->
  Forall (fun c => exists d, d ∈ vd /\ c = features d) cs.
Proof.
  revert used draws cs. induction k as [|k IH]; intros used draws cs; cbn.
  - intros [= <-]. constructor.
  - destruct (drawUnused (length vd) used draws) as [[idx rest]|];
      [|discriminate].
    destruct (at_index vd idx) as [d|] eqn:Hd; [|discriminate].
    destruct (initCentroids k vd ({[idx]} ∪ used) rest) as [cs'| |] eqn:E;
      cbn; [|discriminate|discriminate].
    intros [= <-]. constructor; [|eapply IH; exact E].
    exists d. split; [|reflexivity].
    unfold at_index in Hd. destruct (idx <? 0)%Z; [discriminate|].
    eapply list_elem_of_lookup_2. exact Hd.
Qed.

(** A property of the centroids that the mean of feature vectors has is
    kept by the update step and by the iteration. *)
Lemma updateCentroids_keeps (Z : list Q -> Prop) vd clusters cs cs' ch :
  (forall pts,
      pts <> [] ->
      Forall (fun p => exists d, d ∈ vd /\ p = features d) pts ->
      Z (meanPoint pts)) ->
  Forall Z cs ->
  updateCentroids vd clusters cs = Returned (cs', ch) ->
  Forall Z cs'.
Proof.
  intros Hmean Hcs. unfold updateCentroids.
  match goal with
  | |- foldM ?f ?s ?l = _ -> _ =>
      intros Hfold;
      apply (foldM_preserves f (fun st => Forall Z st.1) l) in Hfold;
      [exact Hfold | | exact Hcs]
  end.
  intros [cs1 ch1] cIdx [cs2 ch2] Hinv. cbn [fst] in *.
  destruct (cs1 !! cIdx) as [c|]; [|intros [= <- _]; exact Hinv].
  destruct (clusters !! cIdx) as [members|]; [|discriminate].
  destruct (length members =? 0)%nat; [intros [= <- _]; exact Hinv|].
  set (pts := omap _ members).
  destruct (0 <? length pts)%nat eqn:Epts; [|intros [= <- _]; exact Hinv].
  destruct (euclideanDistance c (meanPoint pts)) as [d| |];
    cbn; [|discriminate|discriminate].
  intros [= <- _]. apply Forall_insert; [exact Hinv|].
  apply Hmean.
  - intros Hnil. rewrite Hnil in Epts. discriminate.
  - apply Forall_forall. intros p Hp. subst pts.
    apply list_elem_of_omap in Hp as (h & _ & Hh).
    destruct (JsArray.find _ vd) as [row|] eqn:Hrow; [|discriminate].
    injection Hh as <-. exists row. split; [|reflexivity].
    eapply find_elem_of. exact Hrow.
Qed.

Lemma iterate_keeps (Z : list Q -> Prop) k vd :
  (forall pts,
      pts <> [] ->
      Forall (fun p => exists d, d ∈ vd /\ p = features d) pts ->
      Z (meanPoint pts)) ->
  forall remaining cs clusters changed clusters' cs',
    Forall Z cs ->
    iterate remaining k vd cs clusters changed = Returned (clusters', cs') ->
    Forall Z cs'.
Proof.
  intros Hmean. induction remaining as [|n IH];
    intros cs clusters changed clusters' cs' Hcs; cbn.
  - intros [= _ <-]. exact Hcs.
  - destruct changed; [|intros [= _ <-]; exact Hcs].
    destruct (assignHours k vd cs) as [cl| |]; cbn;
      [|discriminate|discriminate].
    destruct (updateCentroids vd cl cs) as [[cs1 ch1]| |] eqn:Eup; cbn;
      [|discriminate|discriminate].
    apply IH. eapply updateCentroids_keeps; eassumption.
Qed.

Lemma sum_zeros xs : Forall (fun x => x == 0) xs -> sum xs == 0.
Proof.
  induction 1 as [|x xs Hx _ IH]; [reflexivity|].
  unfold sum. cbn [fold_left]. rewrite sum_from, IH, Hx. reflexivity.
Qed.

(** Without a light reading on any hour, the light coordinate of every
    centroid returned is 0. *)
Lemma no_light_no_coordinate hd k draws results :
  Forall (fun d => light d = None) hd ->
  kMeansClustering hd k draws = Returned results ->
  Forall (fun c => coord 1 (centroid c) == 0) results.
Proof.
  intros Hlight Hres.
  destruct (kMeansClustering_inv hd k draws results Hres)
    as [->|(centroids0 & clusters & centroids & Hinit & Hiter & ->)];
    [constructor|].
  assert (forall d, d ∈ validData hd -> coord 1 (features d) == 0)
    as Hfeat.
  { intros d Hd. apply filterb_elem_of in Hd as [Hd _].
    rewrite Forall_forall in Hlight. unfold features, coord. cbn.
    rewrite (Hlight d Hd). reflexivity. }
  assert (Forall (fun c => coord 1 c == 0) centroids) as Hcs.
  { eapply (iterate_keeps (fun c => coord 1 c == 0)); [| |exact Hiter].
    - intros pts Hne Hpts. unfold meanPoint, coord at 1. cbn.
      unfold average. rewrite sum_zeros; [unfold Qdiv; ring|].
      apply Forall_fmap. eapply Forall_impl; [exact Hpts|].
      cbn. intros p (d & Hd & ->). apply Hfeat. exact Hd.
    - eapply Forall_impl; [eapply initCentroids_features; exact Hinit|].
      cbn. intros c (d & Hd & ->). apply Hfeat. exact Hd. }
  apply Forall_forall. intros c Hc.
  apply elem_of_lookup_imap in Hc as (i & c0 & -> & Hi). cbn [centroid].
  apply list_elem_of_lookup_2, sort_elem_of in Hi.
  apply elem_of_lookup_imap in Hi as (j & h & -> & _). cbn [centroid].
  destruct (centroids !! j) as [cj|] eqn:Hj; cbn [default];
    [|reflexivity].
  rewrite Forall_forall in Hcs. apply Hcs.
  eapply list_elem_of_lookup_2. exact Hj.
Qed.
End ClusterShapeFacts.

(** ** A whole run *)

Section RunFacts.
Import Aggregator BusyPeriods Metrics.
Local Open Scope Q_scope.

(** What a run that returns is made of. *)
Lemma generateRealTrafficData_inv inp draws m :
  generateRealTrafficData inp draws = KMeans.Returned m ->
  exists p cl,
    peakData (hourlyData inp) = Some p
    /\ KMeans.kMeansClustering (map toHourRow (hourlyData inp)) 3 draws
       = KMeans.Returned cl
    /\ peakHour m = hour p
    /\ metricsHourlyData m = hourlyData inp
    /\ busyPeriods m = topBusyPeriods (hourlyData inp)
    /\ clusters m = cl
    /\ predictedPedestrians (nextHourPrediction m)
       = inject_Z
           (Math_round
              (Smoother.nextHourPrediction
                 (Smoother.smoothAndPredictPedestrians
                    (map (fun d => {| Smoother.hour := hour d;
                                      Smoother.value := pedestrians d |})
                         (hourlyData inp)))))
    /\ predictedScore (nextHourPrediction m)
       = inject_Z
           (Math_round
              (Smoother.nextHourPrediction
                 (Smoother.smoothAndPredictScores
                    (map (fun d => {| Smoother.hour := hour d;
                                      Smoother.value := score d |})
                         (hourlyData inp))) * 100)) / 100
    /\ map hour (smoothedData m) = map hour (hourlyData inp).
Proof.
  unfold generateRealTrafficData. cbv zeta.
  destruct (peakData (hourlyData inp)) as [p|]; [|discriminate].
  destruct (KMeans.kMeansClustering _ 3 draws) as [cl| |];
    [|discriminate|discriminate].
  intros Hm.
  assert (forall a b : BusinessMetrics,
            KMeans.Returned a = KMeans.Returned b -> a = b) as Hinj
    by (intros a b H; congruence).
  apply Hinj in Hm. subst m. clear Hinj. exists p, cl.
  cbn [peakHour metricsHourlyData busyPeriods clusters nextHourPrediction
       predictedPedestrians predictedScore smoothedData].
  split; [reflexivity|]. split; [reflexivity|]. split; [reflexivity|].
  split; [reflexivity|]. split; [reflexivity|]. split; [reflexivity|].
  split; [reflexivity|]. split; [reflexivity|].
  unfold smoothedBuckets. rewrite <- list_fmap_compose.
  apply list_fmap_ext. intros i d _. reflexivity.
Qed.

Lemma toHourRow_no_light (hd : list RealTrafficDataPoint) :
  Forall (fun d => KMeans.light d = None) (map toHourRow hd).
Proof. apply Forall_fmap, Forall_forall. intros d _. reflexivity. Qed.

(** X24. The light level of the hours does not reach the clusterer: it
    reads a field [light], the hourly data carry [lightLevel].  The light
    coordinate of every centroid computed from hourly data, and so of
    every centroid a run returns, is 0. *)
Theorem light_never_reaches_the_clusters :
  (forall hd k draws results,
      KMeans.kMeansClustering (map toHourRow hd) k draws
      = KMeans.Returned results ->
      Forall (fun c => KMeans.coord 1 (KMeans.centroid c) == 0) results)
  /\ (forall inp draws m,
        generateRealTrafficData inp draws = KMeans.Returned m ->
        Forall (fun c => KMeans.coord 1 (KMeans.centroid c) == 0)
               (clusters m)).
Proof.
  split.
  - intros hd k draws results Hres.
    exact (no_light_no_coordinate _ k draws results
             (toHourRow_no_light hd) Hres).
  - intros inp draws m Hm.
    destruct (generateRealTrafficData_inv inp draws m Hm)
      as (p & cl & _ & Hcl & _ & _ & _ & -> & _).
    exact (no_light_no_coordinate _ 3 draws cl
             (toHourRow_no_light (hourlyData inp)) Hcl).
Qed.

Lemma light_never_reaches_the_clusters_witness :
  let hd :=
    map (fun h => {| hour := h; score := 2 + of_nat h;
                     pedestrians := 10 * of_nat h; traffic := 0;
                     activity := -40; lightLevel := Some 300;
                     sampleCount := 5 |})
        (seq 0 4) in
  exists results,
    KMeans.kMeansClustering (map toHourRow hd) 3 [0; 0.3; 0.8]
    = KMeans.Returned results
    /\ Forall (fun c => KMeans.coord 1 (KMeans.centroid c) == 0) results.
Proof.
  intros hd.
  destruct (KMeans.kMeansClustering (map toHourRow hd) 3 [0; 0.3; 0.8])
    as [results| |] eqn:E;
    [|vm_compute in E; discriminate|vm_compute in E; discriminate].
  exists results. split; [reflexivity|].
  exact (proj1 light_never_reaches_the_clusters hd 3%nat _ results E).
Defined.

Lemma peakData_some hd :
  hd <> [] -> exists p, peakData hd = Some p /\ p ∈ hd.
Proof.
  intros Hne. unfold peakData.
  destruct (JsArray.filterb (fun d => (0 <? sampleCount d)%nat) hd)
    as [|first rest] eqn:Efilter.
  - destruct hd as [|first l]; [congruence|].
    eexists. split; [reflexivity|]. unfold maxByScore.
    destruct (reduce_max_of_array score first l)
      as (before & after & Hsplit & _).
    set (r := fold_left _ (first :: l) first) in *. clearbody r.
    rewrite Hsplit. apply elem_of_app. right. left.
  - eexists. split; [reflexivity|]. unfold maxByScore.
    destruct (reduce_max_of_array score first rest)
      as (before & after & Hsplit & _).
    set (r := fold_left _ (first :: rest) first) in *. clearbody r.
    apply (filterb_elem_of (fun d => (0 <? sampleCount d)%nat)).
    rewrite Efilter, Hsplit. apply elem_of_app. right. left.
Qed.

Lemma round_nonneg x : 0 <= x -> 0 <= inject_Z (Math_round x).
Proof.
  intros H. change 0 with (inject_Z (Math_round 0)) at 1.
  apply Math_round_mono. exact H.
Qed.

(** X25. On random numbers in [0, 1) a run does not throw: it returns, or
    is still drawing when the random numbers are used up.  What it returns
    has a peak hour below 24, the 24 hours in order in both hourly series,
    three busy periods at most, no cluster or three, and forecasts that
    are not negative. *)
Theorem run_never_throws inp draws :
  Forall (fun r => 0 <= r < 1) draws ->
  (forall msg, generateRealTrafficData inp draws <> KMeans.Thrown msg)
  /\ (forall m,
        generateRealTrafficData inp draws = KMeans.Returned m ->
        (peakHour m < 24)%nat
        /\ map hour (metricsHourlyData m) = seq 0 24
        /\ map hour (smoothedData m) = seq 0 24
        /\ (length (busyPeriods m) <= 3)%nat
        /\ (clusters m = [] \/ length (clusters m) = 3%nat)
        /\ 0 <= predictedPedestrians (nextHourPrediction m)
        /\ 0 <= predictedScore (nextHourPrediction m)).
Proof.
  intros Hdraws.
  set (rows := map toHourRow (hourlyData inp)).
  assert ((exists cl, KMeans.kMeansClustering rows 3 draws
                      = KMeans.Returned cl
                      /\ (cl = [] \/ length cl = 3%nat))
          \/ KMeans.kMeansClustering rows 3 draws = KMeans.StillDrawing)
    as Hclusters.
  { destruct (decide (length (KMeans.validData rows) < 3)%nat) as [Hfew|Hok].
    - left. exists []. split; [|left; reflexivity].
      apply insufficient_data. exact Hfew.
    - destruct (kMeansClustering_outcome rows 3 draws) as [[-> _]|Hret];
        [lia | exact Hdraws | right; reflexivity |].
      destruct Hret as (sorted & -> & Hlen & _). left. eexists.
      split; [reflexivity|]. right. rewrite length_imap. exact Hlen. }
  split.
  - intros msg. unfold generateRealTrafficData. cbv zeta.
    destruct (peakData_some (hourlyData inp)) as (p & -> & _).
    { intros Hnil. apply (f_equal length) in Hnil. unfold hourlyData in Hnil.
      rewrite length_map, length_seq in Hnil. discriminate. }
    fold rows.
    destruct Hclusters as [(cl & -> & _)| ->]; discriminate.
  - intros m Hm.
    destruct (generateRealTrafficData_inv inp draws m Hm)
      as (p & cl & Hp & Hcl & -> & -> & -> & -> & -> & -> & ->).
    fold rows in Hcl.
    split.
    { destruct (peakData_some (hourlyData inp)) as (p' & Hp' & Hin).
      { intros Hnil. apply (f_equal length) in Hnil.
        unfold hourlyData in Hnil.
        rewrite length_map, length_seq in Hnil. discriminate. }
      rewrite Hp in Hp'. injection Hp' as <-.
      assert (hour p ∈ map hour (hourlyData inp)) as Hh
        by (apply list_elem_of_fmap_2; exact Hin).
      rewrite hourlyData_hours in Hh. apply elem_of_seq in Hh. lia. }
    split; [apply hourlyData_hours|]. split; [apply hourlyData_hours|].
    split.
    { unfold topBusyPeriods, keptPeriods, JsArray.slice_first.
      rewrite length_map, length_take. lia. }
    split.
    { destruct Hclusters as [(cl' & Hcl' & Hshape)|Hstill];
        [|rewrite Hstill in Hcl; discriminate].
      rewrite Hcl in Hcl'. injection Hcl' as <-. exact Hshape. }
    split.
    + apply round_nonneg.
      apply forecast_nonneg. intros q. cbv beta. minmax.
    + assert (0 <= Smoother.nextHourPrediction
                     (Smoother.smoothAndPredictScores
                        (map (fun d => {| Smoother.hour := hour d;
                                          Smoother.value := score d |})
                             (hourlyData inp)))) as Hs.
      { apply forecast_nonneg. intros q. cbv beta. minmax. }
      set (s := Smoother.nextHourPrediction _) in *. clearbody s.
      assert (0 <= inject_Z (Math_round (s * 100))) as Hr
        by (apply round_nonneg; lra).
      set (r := inject_Z (Math_round (s * 100))) in *. clearbody r.
      const_div. lra.
Qed.

Lemma run_never_throws_witness :
  generateRealTrafficData Samples.run_zero_lux [0; 0.5; 0.9]
  = KMeans.StillDrawing
  \/ exists m,
       generateRealTrafficData Samples.run_zero_lux [0; 0.5; 0.9]
       = KMeans.Returned m.
Proof.
  assert (forall o : KMeans.Outcome BusinessMetrics,
            (forall msg, o <> KMeans.Thrown msg) ->
            o = KMeans.StillDrawing \/ exists m, o = KMeans.Returned m)
    as Hcases.
  { intros [m|msg|] Hn;
      [right; exists m; reflexivity
      | exfalso; exact (Hn msg eq_refl)
      | left; reflexivity]. }
  apply Hcases.
  apply (run_never_throws Samples.run_zero_lux [0; 0.5; 0.9]).
  repeat constructor; cbn; lra.
Defined.
End RunFacts.

(** ** The signals of an hour *)

Section SignalSourceFacts.
Import Fusion Aggregator Pooling.
Local Open Scope Q_scope.

(** X26. At an hour that has session samples, the audio and the light
    level are the means of the readings of those samples, -70 dB and no
    light level when there is no reading; the manual recordings do not
    enter them.  The rows of the manual audio recording of that hour are
    still counted as samples. *)
Theorem session_samples_shadow_manual_data inp h :
  atHour (timeZone inp) (Some h) (sessionData inp) <> [] ->
  let here := atHour (timeZone inp) (Some h) (sessionData inp) in
  (hourSignals inp h).1
  = (match omap audioDb here with
     | [] => -70
     | _ :: _ => average (omap audioDb here)
     end,
     match omap lightLux here with
     | [] => None
     | _ :: _ => Some (average (omap lightLux here))
     end)
  /\ (hourSignals inp h).2
     = (length here
        + match processAudioData (audio (manualData inp))
                                 (Some (business inp)) !! Z.of_nat h with
          | Some a => count a
          | None => 0
          end)%nat.
Proof.
  intros Hne here. unfold hourSignals.
  rewrite processSessionData_pooled. unfold pooled. fold here.
  assert ((length here =? 0)%nat = false) as ->.
  { apply Nat.eqb_neq. intros Hz. apply length_zero_iff_nil in Hz.
    contradiction. }
  cbn [entryAudio entryLight entryCount].
  destruct (omap audioDb here) as [|a la]; destruct (omap lightLux here)
    as [|l ll]; cbn [fst snd]; (split; [reflexivity|]);
    rewrite Nat.max_0_r; reflexivity.
Qed.

Lemma session_samples_shadow_manual_data_witness :
  (hourSignals Samples.run_zero_lux 9).1 = (average [-45], Some (average [0])).
Proof.
  apply (session_samples_shadow_manual_data Samples.run_zero_lux 9).
  vm_compute. discriminate.
Defined.

Lemma fold_left_preserves_in {A S : Type} (I : S -> Prop)
    (f : S -> A -> S) l :
  (forall s a, a ∈ l -> I s -> I (f s a)) ->
  forall s, I s -> I (fold_left f l s).
Proof.
  induction l as [|a l IH]; intros Hstep s Hs; cbn; [exact Hs|].
  apply IH.
  - intros s' a' Ha'. apply Hstep. right. exact Ha'.
  - apply Hstep; [left | exact Hs].
Qed.

Lemma convertAudioToDb_bounds r : -80 <= convertAudioToDb r <= -30.
Proof.
  unfold convertAudioToDb. set (a := Qabs r). clearbody a. minmax.
Qed.

(** X27. Every entry of the manual audio recording counts a row or more,
    and when every row has a recording its average level lies between -80
    and -30 dB. *)
Theorem manual_audio_levels rows business k e :
  processAudioData rows business !! k = Some e ->
  (1 <= count e)%nat
  /\ (Forall (fun r => is_Some (recording r)) rows -> -80 <= avg e <= -30).
Proof.
  intros Hentry.
  split; [exact (processAudioData_counts rows business k e Hentry)|].
  intros Hrec. revert Hentry. unfold processAudioData.
  destruct (last rows) as [lastRow|]; [|rewrite lookup_empty; discriminate].
  destruct (_ && _); [rewrite lookup_empty; discriminate|].
  rewrite lookup_fmap.
  match goal with
  | |- context [fold_left ?f ?l ?init] =>
      assert (map_Forall
                (fun _ (e : Q * nat) =>
                   (1 <= e.2)%nat
                   /\ -80 * of_nat e.2 <= e.1 <= -30 * of_nat e.2)
                (fold_left f l init)) as Hinv
  end.
  { apply fold_left_preserves_in; [|apply map_Forall_empty].
    intros acc [idx row] Hin Hacc. cbv beta iota zeta.
    apply elem_of_lookup_imap in Hin as (i & row' & Heq & Hi).
    injection Heq as -> ->.
    rewrite Forall_forall in Hrec.
    destruct (Hrec row' (list_elem_of_lookup_2 _ _ _ Hi)) as [r Hr].
    rewrite Hr.
    pose proof (convertAudioToDb_bounds r) as Hdb.
    apply map_Forall_insert_2; [|exact Hacc]. cbn [fst snd].
    split; [lia|].
    match goal with
    | |- context [default _ ?o] => destruct o as [[s n]|] eqn:Hentry
    end; cbv [default from_option id]; cbn [fst snd].
    - destruct (Hacc _ _ Hentry) as [_ Hs]. cbn [fst snd] in Hs.
      unfold of_nat in *.
      rewrite Nat2Z.inj_succ, <- Z.add_1_r, inject_Z_plus.
      change (inject_Z 1) with 1.
      set (m := inject_Z (Z.of_nat n)) in *. clearbody m.
      rewrite !Qmult_plus_distr_r. lra.
    - change (of_nat 1) with 1. lra. }
  match goal with
  | |- context [?m !! k] => destruct (m !! k) as [[s n]|] eqn:Hk
  end; [|discriminate].
  intros [= <-]. cbn [count avg].
  destruct (Hinv _ _ Hk) as [Hn Hs]. cbn [fst snd] in *.
  assert (0 < of_nat n) as Hpos.
  { unfold of_nat. change 0 with (inject_Z 0). rewrite <- Zlt_Qlt. lia. }
  split.
  - apply Qle_shift_div_l; [exact Hpos | lra].
  - apply Qle_shift_div_r; [exact Hpos | lra].
Qed.

Lemma manual_audio_levels_witness :
  exists e,
    processAudioData (audio (manualData Samples.run_manual_only))
                     (Some costa) !! 8%Z = Some e
    /\ -80 <= avg e <= -30.
Proof.
  destruct (processAudioData (audio (manualData Samples.run_manual_only))
                             (Some costa) !! 8%Z) as [e|] eqn:E;
    [|vm_compute in E; discriminate].
  exists e. split; [reflexivity|].
  apply (manual_audio_levels _ _ _ e E).
  repeat constructor. eexists. reflexivity.
Defined.
End SignalSourceFacts.

(** ** The combined view *)

Section CombinedViewFacts.
Import DataService.
Local Open Scope Q_scope.

(** X28. A point of the combined view has a score that is not negative and
    a whole number of vehicles between 500 and 50000, whatever the data.
    For an hour without a footfall entry and without an audio reading it
    shows no pedestrian, -70 dB and 2000 vehicles. *)
Theorem walk_by_point_bounds h footfallData sessionData trafficEstimate :
  let p := calculateWalkByScore h footfallData sessionData trafficEstimate in
  hour p = h
  /\ 0 <= score p
  /\ (exists z : Z, traffic p = inject_Z z /\ (500 <= z <= 50000)%Z)
  /\ (Forall (fun d => footfallHour d <> h) footfallData ->
      Forall (fun s => sampleHour s = h -> sampleAudioDb s = None)
             sessionData ->
      pedestrians p == 0 /\ activity p == -70 /\ traffic p == 2000
      /\ score p == Math_max 0 (trafficEstimate / 50)).
Proof.
  cbv zeta. unfold calculateWalkByScore. cbv zeta.
  cbn [hour score traffic pedestrians activity].
  split; [reflexivity|]. split; [minmax|]. split.
  - eexists. split; [reflexivity|]. rewrite !Zle_Qle.
    apply (Math_round_range _ 500 50000).
    change (inject_Z 500) with 500. change (inject_Z 50000) with 50000.
    minmax.
  - intros Hfoot Hsess.
    assert (JsArray.filterb (fun d => (footfallHour d =? h)%nat) footfallData
            = []) as ->.
    { apply filterb_all_false. eapply Forall_impl; [exact Hfoot|].
      cbn. intros d Hd. apply Nat.eqb_neq. exact Hd. }
    assert (omap sampleAudioDb
              (JsArray.filterb (fun d => (sampleHour d =? h)%nat) sessionData)
            = []) as ->.
    { induction Hsess as [|s l Hs _ IH]; [reflexivity|]. cbn.
      destruct (sampleHour s =? h)%nat eqn:E; [|exact IH].
      apply Nat.eqb_eq in E. cbn. rewrite (Hs E). exact IH. }
    split; [vm_compute; reflexivity|]. split; [vm_compute; reflexivity|].
    split; [vm_compute; reflexivity|].
    set (t := trafficEstimate / 50). clearbody t.
    apply Math_max_comp; [reflexivity|].
    assert (Math_max 0 ((-70 + 70) / 10) == 0) as ->
      by (vm_compute; reflexivity).
    unfold Qdiv. ring.
Qed.

Lemma walk_by_point_bounds_witness :
  traffic (calculateWalkByScore 9 [] [] 0) == 2000.
Proof.
  apply (walk_by_point_bounds 9 [] [] 0); constructor.
Defined.

(** X29. On a non-empty series, the peak of the statistics is the first of
    the best-scored points, and the activity rate is a percentage with one
    decimal. *)
Theorem stats_peak_and_rate trafficData :
  trafficData <> [] ->
  let stats := getDataStats trafficData in
  (exists before after,
      trafficData = before ++ peakData stats :: after
      /\ (forall d, d ∈ before -> score d < score (peakData stats))
      /\ (forall d, d ∈ after -> score d <= score (peakData stats)))
  /\ (exists z : Z, activityRate stats == inject_Z z / 10
                    /\ (0 <= z <= 1000)%Z).
Proof.
  intros Hne. destruct trafficData as [|first l]; [congruence|].
  cbv zeta. unfold getDataStats. cbv zeta. cbn [peakData activityRate].
  split; [apply (reduce_max_of_array score first l)|].
  set (td := first :: l).
  set (busy := JsArray.filterb _ td).
  eexists. split; [reflexivity|]. rewrite !Zle_Qle.
  apply (Math_round_range _ 0 1000).
  change (inject_Z 0) with 0. change (inject_Z 1000) with 1000.
  assert (length busy <= length td)%nat as Hlen
    by apply sublist_length, filterb_sublist.
  assert (0 < of_nat (length td)) as Hpos.
  { unfold of_nat. change 0 with (inject_Z 0). rewrite <- Zlt_Qlt.
    subst td. cbn. lia. }
  assert (0 <= of_nat (length busy) <= of_nat (length td)) as Hq.
  { unfold of_nat. change 0 with (inject_Z 0). rewrite <- !Zle_Qle. lia. }
  set (b := of_nat (length busy)) in *. set (n := of_nat (length td)) in *.
  clearbody b n.
  assert (0 <= b / n <= 1) as Hfrac.
  { split; [apply Qle_shift_div_l; lra | apply Qle_shift_div_r; lra]. }
  set (f := b / n) in *. clearbody f. lra.
Qed.

Lemma stats_peak_and_rate_witness :
  exists z : Z,
    activityRate (getDataStats (combinedTrafficData [] [])) == inject_Z z / 10
    /\ (0 <= z <= 1000)%Z.
Proof.
  apply (stats_peak_and_rate (combinedTrafficData [] [])).
  discriminate.
Defined.
End CombinedViewFacts.

(** ** The recommendations *)

Section RecommendationFacts.
Import Aggregator BusyPeriods Metrics.
Local Open Scope Q_scope.




End RecommendationFacts.
